(** * Aegis token lifecycle: a shallow embedding of the Go sources

    The development follows the layout of the repository:
    - [time], [strings], [strconv], [uuid], [jwtlib]: the parts of the Go
      standard library and of the two imported packages
      (github.com/google/uuid, github.com/golang-jwt/jwt/v5) that the
      sources call;
    - [token]: domain/token (the Blacklist interface, memory.go, global.go);
    - [jwt]: util/jwt/jwt.go;
    - [db], [userService]: database/database.go (RunQueryWithArgs) and
      domain/user/service.go (the reads used by refresh);
    - [auth]: api/auth (the validate, introspect and revoke handlers);
    - [user]: api/user/api.go (refreshToken);
    - [global], [main]: domain/token/global.go and the cleanup loop of
      main.go;
    - [userModel]: domain/user (the role and permission methods of User).

    Handlers run in a small state monad over a [World]: the wall clock,
    the process-wide [GlobalBlacklist] variable, the database, the faults
    its next queries meet and the log of the queries. *)

From Stdlib Require Import ZArith Ascii String List Lia.
From stdpp Require Import gmap strings list fin_maps.

Local Open Scope string_scope.
Local Open Scope list_scope.
Local Open Scope Z_scope.

(* ================================================================== *)
(** ** Go standard library: time *)
(* ================================================================== *)

Module time.

(** A [time.Time] is modelled by its instant, in nanoseconds since the
    Unix epoch; a [time.Duration] is an int64 count of nanoseconds. *)
Definition Time : Type := Z.
Definition Duration : Type := Z.

Definition Nanosecond : Duration := 1.
Definition Millisecond : Duration := 1000000.
Definition Second : Duration := 1000000000.
Definition Minute : Duration := 60 * Second.
Definition Hour : Duration := 60 * Minute.

Definition MaxInt64 : Z := 9223372036854775807.
Definition MinInt64 : Z := -9223372036854775808.

(** Two's complement wrap-around of int64 arithmetic. *)
Definition wrap64 (z : Z) : Z := (z + 2 ^ 63) mod 2 ^ 64 - 2 ^ 63.

(** [d1 + d2] and [d1 * d2] on [time.Duration] values. *)
Definition dadd (d1 d2 : Duration) : Duration := wrap64 (d1 + d2).
Definition dmul (d1 d2 : Duration) : Duration := wrap64 (d1 * d2).

(** [t.Add(d)], [t.Before(u)], [t.After(u)], [t.Sub(u)], [t.Unix()]. *)
Definition Add (t : Time) (d : Duration) : Time := t + d.
Definition Before (t u : Time) : bool := t <? u.
Definition After (t u : Time) : bool := u <? t.
Definition Sub (t u : Time) : Z := t - u.
Definition Unix (t : Time) : Z := t / Second.

(** [time.Unix(sec, 0)]. *)
Definition FromUnix (sec : Z) : Time := sec * Second.

(** [t.Truncate(time.Second)]: the instant rounded down to a whole
    second. *)
Definition TruncateSecond (t : Time) : Time := t - t mod Second.

(** The wall clock: the current instant and the delays that will have
    elapsed at each of the next readings (no delay once the list is
    exhausted). A delay is a natural number of nanoseconds, so the
    readings never go backwards. *)
Record Clock := mkClock { current : Time; delays : list N }.

(** One reading of the clock: the clock first advances by the next
    delay. *)
Definition tick (c : Clock) : Time * Clock :=
  match delays c with
  | [] => (current c, c)
  | d :: ds =>
      let t := current c + Z.of_N d in
      (t, {| current := t; delays := ds |})
  end.

End time.

(* ================================================================== *)
(** ** Go standard library: strings, strconv *)
(* ================================================================== *)

Module strings.

(** [strings.HasPrefix(s, prefix)]. *)
Fixpoint HasPrefix (s prefix : string) : bool :=
  match prefix, s with
  | EmptyString, _ => true
  | String _ _, EmptyString => false
  | String b q, String a r => if Ascii.eqb a b then HasPrefix r q else false
  end.

(** [strings.Contains(s, substr)]: [substr] occurs somewhere in [s]. *)
Fixpoint Contains (s substr : string) : bool :=
  if HasPrefix s substr then true
  else match s with
       | EmptyString => false
       | String _ r => Contains r substr
       end.

(** [strings.Join(elems, sep)]. *)
Fixpoint Join (elems : list string) (sep : string) : string :=
  match elems with
  | [] => ""
  | [e] => e
  | e :: rest => e +:+ sep +:+ Join rest sep
  end.

End strings.

Module strconv.

Definition digit (a : ascii) : option Z :=
  let n := Z.of_N (N_of_ascii a) in
  if (48 <=? n) && (n <=? 57) then Some (n - 48) else None.

(** Value of a non-empty run of decimal digits. *)
Fixpoint digits (acc : Z) (s : string) : option Z :=
  match s with
  | EmptyString => Some acc
  | String a r =>
      match digit a with
      | Some d => digits (10 * acc + d) r
      | None => None
      end
  end.

(** [strconv.Atoi(s)] on a 64-bit platform: an optional sign and decimal
    digits; [None] is the error result (syntax or range). *)
Definition Atoi (s : string) : option Z :=
  let unsigned (r : string) :=
    match r with
    | EmptyString => None
    | _ => digits 0 r
    end in
  let v :=
    match s with
    | String "+"%char r => unsigned r
    | String "-"%char r => Z.opp <$> unsigned r
    | _ => unsigned s
    end in
  match v with
  | Some z => if (time.MinInt64 <=? z) && (z <=? time.MaxInt64)
              then Some z else None
  | None => None
  end.

End strconv.

(* ================================================================== *)
(** ** github.com/google/uuid *)
(* ================================================================== *)

Module uuid.

(** A [uuid.UUID] is a [16]byte array, kept here as the 128-bit number
    it spells in big-endian order. *)
Definition UUID : Type := N.

Definition xvalue (a : ascii) : option N :=
  let n := N_of_ascii a in
  if ((48 <=? n) && (n <=? 57))%N then Some (n - 48)%N
  else if ((97 <=? n) && (n <=? 102))%N then Some (n - 87)%N
  else if ((65 <=? n) && (n <=? 70))%N then Some (n - 55)%N
  else None.

Fixpoint xvalues (acc : N) (s : string) : option N :=
  match s with
  | EmptyString => Some acc
  | String a r =>
      match xvalue a with
      | Some d => xvalues (16 * acc + d)%N r
      | None => None
      end
  end.

Definition lower (a : ascii) : ascii :=
  let n := N_of_ascii a in
  if ((65 <=? n) && (n <=? 90))%N then ascii_of_N (n + 32) else a.

Fixpoint EqualFold (s t : string) : bool :=
  match s, t with
  | EmptyString, EmptyString => true
  | String a r, String b q =>
      if Ascii.eqb (lower a) (lower b) then EqualFold r q else false
  | _, _ => false
  end.

Definition dash_at (s : string) (i : nat) : bool :=
  match String.get i s with
  | Some a => Ascii.eqb a "-"%char
  | None => false
  end.

(** The 36-character form xxxxxxxx-xxxx-xxxx-xxxx-xxxxxxxxxxxx, read
    from the first 36 characters of [s]. *)
Definition parseDashed (s : string) : option UUID :=
  if dash_at s 8 && dash_at s 13 && dash_at s 18 && dash_at s 23 then
    xvalues 0 (substring 0 8 s +:+ substring 9 4 s +:+ substring 14 4 s
               +:+ substring 19 4 s +:+ substring 24 12 s)
  else None.

(** [uuid.Parse(s)]: the standard form, the urn:uuid: form, the braced
    form and the raw 32-digit form; [None] is the error result. *)
Definition Parse (s : string) : option UUID :=
  match String.length s with
  | 36%nat => parseDashed s
  | 45%nat =>
      if EqualFold (substring 0 9 s) "urn:uuid:"
      then parseDashed (substring 9 36 s) else None
  | 38%nat => parseDashed (substring 1 37 s)
  | 32%nat => xvalues 0 s
  | _ => None
  end.

Definition xdigit (n : N) : ascii :=
  if (n <? 10)%N then ascii_of_N (48 + n) else ascii_of_N (87 + n).

(** The [k] low hexadecimal digits of [u], most significant first. *)
Fixpoint hex (k : nat) (u : N) : string :=
  match k with
  | O => ""
  | S k' => hex k' (u / 16)%N +:+ String (xdigit (u mod 16)%N) ""
  end.

(** [u.String()]. *)
Definition String (u : UUID) : string :=
  let h := hex 32 u in
  substring 0 8 h +:+ "-" +:+ substring 8 4 h +:+ "-" +:+ substring 12 4 h
  +:+ "-" +:+ substring 16 4 h +:+ "-" +:+ substring 20 12 h.

End uuid.

(* ================================================================== *)
(** ** github.com/golang-jwt/jwt/v5 *)
(* ================================================================== *)

Module jwtlib.

Inductive SigningMethod := HS256 | HS384 | HS512 | RS256 | ES256 | NoneMethod.

(** The type assertion of the method to the HMAC family. *)
Definition isHMAC (m : SigningMethod) : bool :=
  match m with
  | HS256 | HS384 | HS512 => true
  | _ => false
  end.

(** [jwt.NewNumericDate(t)]: the instant truncated to whole seconds. *)
Definition NewNumericDate (t : time.Time) : time.Time :=
  time.TruncateSecond t.

(** [jwt.RegisteredClaims]; the date fields are pointers in the source
    ([None] is nil). *)
Record RegisteredClaims := mkRegisteredClaims {
  Issuer : string;
  Subject : string;
  Audience : list string;
  ExpiresAt : option time.Time;
  NotBefore : option time.Time;
  IssuedAt : option time.Time;
  ID : string
}.

(** The [jwt.Claims] interface, as far as the default validator uses
    it. *)
Class Claims (C : Type) := {
  GetExpirationTime : C -> option time.Time;
  GetNotBefore : C -> option time.Time
}.

(** The library's errors; [Error] gives [err.Error()]. Several claim
    failures are joined into one message; which separator joins them plays
    no part below. *)
Inductive error :=
| ErrTokenMalformed (detail : string)
| ErrTokenUnverifiable (reason : string)
| ErrTokenSignatureInvalid
| ErrTokenInvalidClaims (reasons : list string)
| ErrInvalidKeyType
| errorString (msg : string).

Definition Error (e : error) : string :=
  match e with
  | ErrTokenMalformed detail => "token is malformed: " +:+ detail
  | ErrTokenUnverifiable reason => "token is unverifiable: " +:+ reason
  | ErrTokenSignatureInvalid =>
      "token signature is invalid: signature is invalid"
  | ErrTokenInvalidClaims reasons =>
      "token has invalid claims: " +:+ strings.Join reasons ", "
  | ErrInvalidKeyType => "key is of invalid type"
  | errorString msg => msg
  end.

(** A token string, read symbolically. [Compact m key c] is the compact
    serialization of header [m] and claims [c] with the signature that
    method [m] computes under [key]; a tampered or forged signature is a
    [key] other than the verifier's. [Unparsable raw err] is any other
    text [raw], on which the parser fails with [err] before it looks at a
    key. The MAC is taken to be unforgeable: a signature verifies under
    exactly the key that made it. *)
Inductive TokenString (C : Type) :=
| Unparsable (raw : string) (err : error)
| Compact (m : SigningMethod) (key : string) (c : C).
Arguments Unparsable {C} raw err.
Arguments Compact {C} m key c.

(** [tokenString == ""]. *)
Definition isEmpty {C} (t : TokenString C) : bool :=
  match t with
  | Unparsable raw _ => String.eqb raw ""
  | Compact _ _ _ => false
  end.

(** [token.SignedString(key)] for a [[]byte] key: only the HMAC methods
    sign with such a key. *)
Definition SignedString {C} (m : SigningMethod) (key : string) (c : C)
  : TokenString C + error :=
  if isHMAC m then inl (Compact m key c) else inr ErrInvalidKeyType.

(** The default validator: expiry and not-before, each only when the
    claim is present. *)
Definition Validate {C} `{Claims C} (now : time.Time) (c : C) : list string :=
  (match GetExpirationTime c with
   | Some exp => if time.Before now exp then [] else ["token is expired"]
   | None => []
   end) ++
  (match GetNotBefore c with
   | Some nbf => if time.Before now nbf then ["token is not valid yet"] else []
   | None => []
   end).

(** The parsed [jwt.Token]. *)
Record Token (C : Type) := mkToken {
  Method : SigningMethod;
  Claims_ : C;
  Valid : bool
}.
Arguments mkToken {C} _ _ _.
Arguments Method {C} _.
Arguments Claims_ {C} _.
Arguments Valid {C} _.

(** [jwt.ParseWithClaims(tokenString, claims, keyFunc)]: parse, look the
    key up, verify the signature, then validate the claims against one
    reading of the clock. [keyFunc] returns the verification key or an
    error message. A token is returned with [Valid] set; every failure
    is an error. *)
Definition ParseWithClaims {C} `{Claims C} (clk : time.Clock)
    (tokenString : TokenString C)
    (keyFunc : SigningMethod -> string + string)
    : (Token C + error) * time.Clock :=
  match tokenString with
  | Unparsable _ err => (inr err, clk)
  | Compact m signedWith c =>
      match keyFunc m with
      | inr e =>
        (inr (ErrTokenUnverifiable ("error while executing keyfunc: " +:+ e)),
         clk)
      | inl key =>
          if negb (String.eqb signedWith key)
          then (inr ErrTokenSignatureInvalid, clk)
          else
            let (now, clk') := time.tick clk in
            match Validate now c with
            | [] => (inl (mkToken m c true), clk')
            | reasons => (inr (ErrTokenInvalidClaims reasons), clk')
            end
      end
  end.

(** The ways in which the parser refuses a token before it validates the
    claims, in the order of its checks: the text has not three segments;
    the header or the claims segment is not base64 or not the JSON
    expected; the header names no registered method, or no method; the
    signature segment is not base64; the key function returns an error;
    the signature does not verify. [cause] is the text of the error of
    the decoder (encoding/base64, encoding/json) or of the key function.
    The first seven are the errors an [Unparsable] text carries. *)
Inductive Refusal :=
| InvalidSegments
| HeaderNotBase64 (cause : string)
| HeaderNotJSON (cause : string)
| ClaimNotBase64 (cause : string)
| ClaimNotJSON (cause : string)
| AlgUnavailable
| AlgUnspecified
| SignatureNotBase64 (cause : string)
| KeyfuncFails (cause : string)
| SignatureInvalid.

(** The error returned for each. *)
Definition refusalError (r : Refusal) : error :=
  match r with
  | InvalidSegments =>
      ErrTokenMalformed "token contains an invalid number of segments"
  | HeaderNotBase64 cause =>
      ErrTokenMalformed ("could not base64 decode header: " +:+ cause)
  | HeaderNotJSON cause =>
      ErrTokenMalformed ("could not JSON decode header: " +:+ cause)
  | ClaimNotBase64 cause =>
      ErrTokenMalformed ("could not base64 decode claim: " +:+ cause)
  | ClaimNotJSON cause =>
      ErrTokenMalformed ("could not JSON decode claim: " +:+ cause)
  | AlgUnavailable =>
      ErrTokenUnverifiable "signing method (alg) is unavailable"
  | AlgUnspecified =>
      ErrTokenUnverifiable "signing method (alg) is unspecified"
  | SignatureNotBase64 cause =>
      ErrTokenMalformed ("could not base64 decode signature: " +:+ cause)
  | KeyfuncFails cause =>
      ErrTokenUnverifiable ("error while executing keyfunc: " +:+ cause)
  | SignatureInvalid => ErrTokenSignatureInvalid
  end.

End jwtlib.

(* ================================================================== *)
(** ** domain/token: the blacklist *)
(* ================================================================== *)

Module token.

(** [BlacklistEntry]. *)
Record BlacklistEntry := mkBlacklistEntry {
  JTI : string;
  ExpiresAt : time.Time;
  RevokedAt : time.Time
}.

(** [MemoryBlacklist] (memory.go). The mutex serialises the methods, so
    each one is a function of the map; [now] is the method's reading of
    [time.Now()]. *)
Record MemoryBlacklist := mkMemoryBlacklist {
  entries : gmap string BlacklistEntry
}.

Definition NewMemoryBlacklist : MemoryBlacklist :=
  {| entries := ∅ |}.

Definition Add (b : MemoryBlacklist) (jti : string) (expiresAt : time.Time)
    (now : time.Time) : MemoryBlacklist :=
  {| entries :=
       <[jti := {| JTI := jti; ExpiresAt := expiresAt; RevokedAt := now |}]>
         (entries b) |}.

Definition IsBlacklisted (b : MemoryBlacklist) (jti : string) : bool :=
  match entries b !! jti with
  | Some _ => true
  | None => false
  end.

(** One iteration of the loop of [Cleanup]. *)
Definition cleanupStep (now : time.Time) (jti : string) (entry : BlacklistEntry)
    (acc : gmap string BlacklistEntry * Z) : gmap string BlacklistEntry * Z :=
  if time.Before (ExpiresAt entry) now
  then (delete jti acc.1, acc.2 + 1)
  else acc.

(** [Cleanup]: range over the entries, delete the expired ones, count
    them. *)
Definition Cleanup (b : MemoryBlacklist) (now : time.Time)
    : MemoryBlacklist * Z :=
  let r := map_fold (cleanupStep now) (entries b, 0) (entries b) in
  ({| entries := r.1 |}, r.2).

Definition Size (b : MemoryBlacklist) : Z := Z.of_nat (size (entries b)).

End token.

(* ================================================================== *)
(** ** The database behind domain/user/service.go *)
(* ================================================================== *)

Module db.

(** A row of table users, with the columns the SELECT statements read. *)
Record UserRow := mkUserRow {
  id : string;
  subject : string;
  password_hash : string;
  salt : string;
  pepper : string;
  created_at : time.Time;
  created_by : string;
  updated_at : time.Time;
  updated_by : string
}.

(** The three tables read when a user is loaded; user_roles and
    user_permissions pair a user id with a role or permission name. A
    table is the list of its rows in the order in which a SELECT without
    ORDER BY visits them (for SQLite that is the order of the index it
    walks: the primary key of user_roles and user_permissions, so by user
    id and then by name). *)
Record Database := mkDatabase {
  users : list UserRow;
  user_roles : list (string * string);
  user_permissions : list (string * string)
}.

(** The queries of service.go that the refresh path can send, with their
    argument. *)
Inductive Query :=
| SELECT_USER_BY_ID (arg : string)
| SELECT_USER_PERMISSIONS (arg : string)
| SELECT_USER_ROLES (arg : string).

(** The rows each statement selects. *)
Definition selectUserById (d : Database) (arg : string) : list UserRow :=
  filter (λ r, id r = arg) (users d).

Definition selectNames (table : list (string * string)) (arg : string)
    : list string :=
  (filter (λ p, p.1 = arg) table).*2.

(** What can go wrong with one call of [RunQueryWithArgs]: the connection
    cannot be opened ([OpenConnection] returns an error), the statement
    fails ([db.Query] returns an error), or rows come back and [Scan]
    returns an error on those at the listed positions, counted from 0 (a
    stored value that does not convert to the destination variable). *)
Inductive Fault :=
| OpenFails (err : string)
| QueryFails (err : string)
| ScanFails (bad : list nat).

(** Nothing goes wrong. *)
Definition healthy : Fault := ScanFails [].

(** The cursor [*sql.Rows]: the rows in the order [Next] visits them,
    each with what [Scan] obtains from it ([None] is an error). [Next]
    is taken to visit every row the statement selects. *)
Definition Rows (A : Type) : Type := list (option A).

(** The cursor over [rows], the first of which has position [i]. *)
Fixpoint deliver {A} (bad : list nat) (i : nat) (rows : list A) : Rows A :=
  match rows with
  | [] => []
  | row :: rest =>
      (if existsb (Nat.eqb i) bad then None else Some row)
        :: deliver bad (S i) rest
  end.

(** The result [(rows, err)] of a query that selects [rows] and meets
    fault [f]. *)
Definition answer {A} (f : Fault) (rows : list A) : Rows A + string :=
  match f with
  | OpenFails err => inr err
  | QueryFails err => inr err
  | ScanFails bad => inl (deliver bad 0 rows)
  end.

End db.

(* ================================================================== *)
(** ** The state of the process and the monad of its operations *)
(* ================================================================== *)

(** [JWT_SECRET] and [TOKEN_EXPIRATION] are the package variables of
    util/jwt, [GlobalBlacklist] is the one of domain/token ([None] is the
    nil interface value); [faults] lists what goes wrong with the next
    calls of [RunQueryWithArgs], next call first (a call beyond the list
    meets no fault); [queries] logs the calls of [RunQueryWithArgs],
    oldest first. *)
Record World := mkWorld {
  clock : time.Clock;
  JWT_SECRET : string;
  TOKEN_EXPIRATION : time.Duration;
  GlobalBlacklist : option token.MemoryBlacklist;
  database : db.Database;
  faults : list db.Fault;
  queries : list db.Query
}.

Definition M (A : Type) : Type := World -> A * World.

Definition ret {A} (a : A) : M A := fun w => (a, w).

Definition bind {A B} (m : M A) (k : A -> M B) : M B :=
  fun w => let (a, w') := m w in k a w'.

Notation "x <- m ;; k" := (bind m (fun x => k))
  (at level 100, m at next level, right associativity).

Definition gets {A} (f : World -> A) : M A := fun w => (f w, w).

Definition withClock (c : time.Clock) (w : World) : World :=
  {| clock := c; JWT_SECRET := JWT_SECRET w;
     TOKEN_EXPIRATION := TOKEN_EXPIRATION w;
     GlobalBlacklist := GlobalBlacklist w;
     database := database w; faults := faults w; queries := queries w |}.

Definition withBlacklist (b : option token.MemoryBlacklist) (w : World) : World :=
  {| clock := clock w; JWT_SECRET := JWT_SECRET w;
     TOKEN_EXPIRATION := TOKEN_EXPIRATION w;
     GlobalBlacklist := b;
     database := database w; faults := faults w; queries := queries w |}.

Definition withQuery (q : db.Query) (w : World) : World :=
  {| clock := clock w; JWT_SECRET := JWT_SECRET w;
     TOKEN_EXPIRATION := TOKEN_EXPIRATION w;
     GlobalBlacklist := GlobalBlacklist w;
     database := database w; faults := faults w;
     queries := queries w ++ [q] |}.

(** [time.Now()]. *)
Definition Now : M time.Time :=
  fun w => let (t, c) := time.tick (clock w) in (t, withClock c w).

(** Run a computation of the clock alone. *)
Definition liftClock {A} (f : time.Clock -> A * time.Clock) : M A :=
  fun w => let (a, c) := f (clock w) in (a, withClock c w).

Definition withFaults (fs : list db.Fault) (w : World) : World :=
  {| clock := clock w; JWT_SECRET := JWT_SECRET w;
     TOKEN_EXPIRATION := TOKEN_EXPIRATION w;
     GlobalBlacklist := GlobalBlacklist w;
     database := database w; faults := fs; queries := queries w |}.

(** [db.RunQueryWithArgs(query, args...)] for the statement [q], which
    selects [rows] from the tables: the call is logged and meets the next
    fault; the result is the cursor or the error. *)
Definition RunQueryWithArgs {A} (q : db.Query) (rows : db.Database -> list A)
    : M (db.Rows A + string) :=
  fun w =>
    (db.answer (hd db.healthy (faults w)) (rows (database w)),
     withQuery q (withFaults (tl (faults w)) w)).

(* ================================================================== *)
(** ** util/jwt/jwt.go *)
(* ================================================================== *)

Module jwt.

Definition REFRESH_TOKEN_EXTRA_TIME : time.Duration := 1 * time.Minute.

(** [TokenClaims]: the application claims and the embedded
    [jwt.RegisteredClaims]. *)
Record TokenClaims := mkTokenClaims {
  UserId : string;
  Subject : string;
  Roles : list string;
  Permissions : list string;
  TokenType : string;
  RegisteredClaims : jwtlib.RegisteredClaims
}.

(** The fields promoted from the embedded struct. *)
Definition ID (c : TokenClaims) : string := jwtlib.ID (RegisteredClaims c).
Definition ExpiresAt (c : TokenClaims) : option time.Time :=
  jwtlib.ExpiresAt (RegisteredClaims c).
Definition IssuedAt (c : TokenClaims) : option time.Time :=
  jwtlib.IssuedAt (RegisteredClaims c).
Definition Issuer (c : TokenClaims) : string :=
  jwtlib.Issuer (RegisteredClaims c).

#[global] Instance TokenClaims_Claims : jwtlib.Claims TokenClaims := {|
  jwtlib.GetExpirationTime c := jwtlib.ExpiresAt (RegisteredClaims c);
  jwtlib.GetNotBefore c := jwtlib.NotBefore (RegisteredClaims c)
|}.

(** A token string of this service. *)
Definition TokenString : Type := jwtlib.TokenString TokenClaims.

Module TokenOutput.
Record t := mk { Token : TokenString; ExpiresAt : time.Time }.
End TokenOutput.

Module TokenPair.
Record t := mk {
  AccessToken : TokenString;
  RefreshToken : TokenString;
  ExpiresAt : time.Time;
  RefreshExpiresAt : time.Time
}.
End TokenPair.

(** [generateTokenWithType]. The claims literal sets ExpiresAt, IssuedAt
    and Issuer; every other registered claim keeps its zero value. *)
Definition generateTokenWithType (userId : uuid.UUID) (subject : string)
    (roles permissions : list string) (tokenType : string)
    (expiration : time.Duration) : M (TokenOutput.t + jwtlib.error) :=
  now1 <- Now ;;
  let expirationTime := time.Add now1 expiration in
  now2 <- Now ;;
  let claims :=
    {| UserId := uuid.String userId;
       Subject := subject;
       Roles := roles;
       Permissions := permissions;
       TokenType := tokenType;
       RegisteredClaims :=
         {| jwtlib.Issuer := "aegis";
            jwtlib.Subject := "";
            jwtlib.Audience := [];
            jwtlib.ExpiresAt := Some (jwtlib.NewNumericDate expirationTime);
            jwtlib.NotBefore := None;
            jwtlib.IssuedAt := Some (jwtlib.NewNumericDate now2);
            jwtlib.ID := "" |} |} in
  secret <- gets JWT_SECRET ;;
  match jwtlib.SignedString jwtlib.HS256 secret claims with
  | inr err => ret (inr err)
  | inl tokenString =>
      ret (inl {| TokenOutput.Token := tokenString;
                  TokenOutput.ExpiresAt := expirationTime |})
  end.

(** [GenerateTokenPair]. *)
Definition GenerateTokenPair (userId : uuid.UUID) (subject : string)
    (roles permissions : list string) : M (TokenPair.t + jwtlib.error) :=
  exp <- gets TOKEN_EXPIRATION ;;
  now1 <- Now ;;
  let accessExpiration := time.Add now1 exp in
  now2 <- Now ;;
  let refreshExpiration :=
    time.Add now2 (time.dadd exp REFRESH_TOKEN_EXTRA_TIME) in
  r1 <- generateTokenWithType userId subject roles permissions "access" exp ;;
  match r1 with
  | inr err => ret (inr err)
  | inl accessToken =>
      r2 <- generateTokenWithType userId subject roles permissions "refresh"
              (time.dadd exp REFRESH_TOKEN_EXTRA_TIME) ;;
      match r2 with
      | inr err => ret (inr err)
      | inl refreshToken =>
          ret (inl {| TokenPair.AccessToken := TokenOutput.Token accessToken;
                      TokenPair.RefreshToken := TokenOutput.Token refreshToken;
                      TokenPair.ExpiresAt := accessExpiration;
                      TokenPair.RefreshExpiresAt := refreshExpiration |})
      end
  end.

(** The key function handed to the parser by [ValidateToken]. *)
Definition keyFunc (secret : string) (m : jwtlib.SigningMethod)
    : string + string :=
  if negb (jwtlib.isHMAC m) then inr "unexpected signing method"
  else inl secret.

(** [ValidateToken]. *)
Definition ValidateToken (tokenString : TokenString)
    : M (TokenClaims + jwtlib.error) :=
  secret <- gets JWT_SECRET ;;
  r <- liftClock (fun c => jwtlib.ParseWithClaims c tokenString (keyFunc secret)) ;;
  match r with
  | inr err => ret (inr err)
  | inl token =>
      if negb (jwtlib.Valid token)
      then ret (inr (jwtlib.errorString "invalid token"))
      else ret (inl (jwtlib.Claims_ token))
  end.

(** [ValidateRefreshToken]. *)
Definition ValidateRefreshToken (tokenString : TokenString)
    : M (TokenClaims + jwtlib.error) :=
  r <- ValidateToken tokenString ;;
  match r with
  | inr err => ret (inr err)
  | inl claims =>
      if negb (String.eqb (TokenType claims) "refresh")
      then ret (inr (jwtlib.errorString "token is not a refresh token"))
      else ret (inl claims)
  end.

Definition DEFAULT_EXPIRATION_MINUTES : Z := 1440.

(** [getTokenExpiration], from the value of AEGIS_JWT_EXP_TIME (empty
    when unset). *)
Definition getTokenExpiration (expStr : string) : time.Duration :=
  let default := time.dmul DEFAULT_EXPIRATION_MINUTES time.Minute in
  if negb (String.eqb expStr "") then
    match strconv.Atoi expStr with
    | Some minutes =>
        if 0 <? minutes then time.dmul minutes time.Minute else default
    | None => default
    end
  else default.

(** [getJwtSecret], from the value of AEGIS_JWT_SECRET and the hex
    encoding of the 32 random bytes drawn when it is unset. *)
Definition getJwtSecret (secret generatedSecret : string) : string :=
  if negb (String.eqb secret "") then secret else generatedSecret.

End jwt.

(* ================================================================== *)
(** ** domain/user/service.go: loading a user *)
(* ================================================================== *)

Module userService.

Record User := mkUser {
  Id : uuid.UUID;
  Subject : string;
  PasswordHash : string;
  Salt : string;
  Pepper : string;
  CreatedAt : time.Time;
  CreatedBy : string;
  UpdatedAt : time.Time;
  UpdatedBy : string;
  Roles : list string;
  Permissions : list string
}.

Definition setPermissions (user : User) (permissions : list string) : User :=
  {| Id := Id user; Subject := Subject user;
     PasswordHash := PasswordHash user; Salt := Salt user;
     Pepper := Pepper user; CreatedAt := CreatedAt user;
     CreatedBy := CreatedBy user; UpdatedAt := UpdatedAt user;
     UpdatedBy := UpdatedBy user; Roles := Roles user;
     Permissions := permissions |}.

Definition setRoles (user : User) (roles : list string) : User :=
  {| Id := Id user; Subject := Subject user;
     PasswordHash := PasswordHash user; Salt := Salt user;
     Pepper := Pepper user; CreatedAt := CreatedAt user;
     CreatedBy := CreatedBy user; UpdatedAt := UpdatedAt user;
     UpdatedBy := UpdatedBy user; Roles := roles;
     Permissions := Permissions user |}.

(** The loop [for rows.Next() { err := rows.Scan(&name); if err != nil
    { continue }; names = append(names, name) }]. *)
Fixpoint scanNames (rows : db.Rows string) (names : list string) : list string :=
  match rows with
  | [] => names
  | None :: rest => scanNames rest names
  | Some name :: rest => scanNames rest (names ++ [name])
  end.

(** [LoadUserPermissions], [LoadUserRoles]: the user is the pointer's
    target, returned updated; when the query fails the function returns
    at once and the user is as it was. *)
Definition LoadUserPermissions (user : User) : M User :=
  r <- RunQueryWithArgs
      (db.SELECT_USER_PERMISSIONS (uuid.String (Id user)))
      (fun d => db.selectNames (db.user_permissions d) (uuid.String (Id user))) ;;
  match r with
  | inr err => ret user
  | inl rows => ret (setPermissions user (scanNames rows []))
  end.

Definition LoadUserRoles (user : User) : M User :=
  r <- RunQueryWithArgs
      (db.SELECT_USER_ROLES (uuid.String (Id user)))
      (fun d => db.selectNames (db.user_roles d) (uuid.String (Id user))) ;;
  match r with
  | inr err => ret user
  | inl rows => ret (setRoles user (scanNames rows []))
  end.

(** [GetUserById]; [None] is the nil pointer. It is returned when the
    query fails, when it selects no row, when [Scan] fails on the first
    row and when the id read is no UUID. *)
Definition GetUserById (userId : uuid.UUID) : M (option User) :=
  r <- RunQueryWithArgs
      (db.SELECT_USER_BY_ID (uuid.String userId))
      (fun d => db.selectUserById d (uuid.String userId)) ;;
  match r with
  | inr err => ret None
  | inl [] => ret None
  | inl (None :: _) => ret None
  | inl (Some row :: _) =>
      match uuid.Parse (db.id row) with
      | None => ret None
      | Some id =>
          let user :=
            {| Id := id; Subject := db.subject row;
               PasswordHash := db.password_hash row; Salt := db.salt row;
               Pepper := db.pepper row; CreatedAt := db.created_at row;
               CreatedBy := db.created_by row; UpdatedAt := db.updated_at row;
               UpdatedBy := db.updated_by row; Roles := [];
               Permissions := [] |} in
          user <- LoadUserPermissions user ;;
          user <- LoadUserRoles user ;;
          ret (Some user)
      end
  end.

End userService.

(* ================================================================== *)
(** ** gin and encoding/json, as the handlers use them *)
(* ================================================================== *)

Module http.
Definition StatusOK : Z := 200.
Definition StatusBadRequest : Z := 400.
Definition StatusUnauthorized : Z := 401.
Definition StatusInternalServerError : Z := 500.
End http.

Module gin.

(** What a handler leaves behind: one [c.JSON(code, obj)], where [obj]
    is either [gin.H{"error": msg}] or the handler's response struct, or
    a run-time panic (a nil pointer dereference). *)
Inductive Outcome (R : Type) :=
| JSON_H (code : Z) (error : string)
| JSON (code : Z) (obj : R)
| Panic.
Arguments JSON_H {R} code error.
Arguments JSON {R} code obj.
Arguments Panic {R}.

(** The status the client sees; the Recovery middleware of
    [gin.Default()] answers a panic with 500. *)
Definition status {R} (o : Outcome R) : Z :=
  match o with
  | JSON_H code _ => code
  | JSON code _ => code
  | Panic => http.StatusInternalServerError
  end.

(** The request body: text that encoding/json cannot decode into the
    request struct (with the decoder's message), or the decoded struct,
    absent fields holding their zero value. *)
Inductive Body (R : Type) :=
| Undecodable (err : string)
| Decoded (req : R).
Arguments Undecodable {R} err.
Arguments Decoded {R} req.

(** [c.ShouldBindJSON(&req)] for a request struct whose fields tagged
    binding:"required" are listed by [missing] when they hold their zero
    value. *)
Definition ShouldBindJSON {R} (name : string) (missing : R -> option string)
    (body : Body R) : R + string :=
  match body with
  | Undecodable err => inr err
  | Decoded req =>
      match missing req with
      | Some field =>
          inr ("Key: '" +:+ name +:+ "." +:+ field +:+
               "' Error:Field validation for '" +:+ field +:+
               "' failed on the 'required' tag")
      | None => inl req
      end
  end.

End gin.

Module utf8.

(** [lo <= b <= hi] on a byte. *)
Definition within (lo hi : N) (b : ascii) : bool :=
  let n := N_of_ascii b in ((lo <=? n) && (n <=? hi))%N.

(** For a first byte above 127, the size of the encoding it starts and
    the range accepted for the second byte; [None] for a byte that starts
    no encoding. *)
Definition first (s0 : ascii) : option (nat * N * N) :=
  let x := N_of_ascii s0 in
  if ((194 <=? x) && (x <=? 223))%N then Some (2%nat, 128%N, 191%N)
  else if (x =? 224)%N then Some (3%nat, 160%N, 191%N)
  else if (((225 <=? x) && (x <=? 236)) || ((238 <=? x) && (x <=? 239)))%N
       then Some (3%nat, 128%N, 191%N)
  else if (x =? 237)%N then Some (3%nat, 128%N, 159%N)
  else if (x =? 240)%N then Some (4%nat, 144%N, 191%N)
  else if ((241 <=? x) && (x <=? 243))%N then Some (4%nat, 128%N, 191%N)
  else if (x =? 244)%N then Some (4%nat, 128%N, 143%N)
  else None.

(** [utf8.DecodeRuneInString(s)] on text that starts with a byte above
    127: the size of the encoding at the start of [s]; [None] is the
    result [(RuneError, 1)] for bytes that are no encoding. *)
Definition size (s : string) : option nat :=
  match s with
  | String s0 (String s1 r1) =>
      match first s0 with
      | None => None
      | Some (sz, lo, hi) =>
          if negb (within lo hi s1) then None
          else if (sz <=? 2)%nat then Some 2%nat
          else match r1 with
               | String s2 r2 =>
                   if negb (within 128 191 s2) then None
                   else if (sz <=? 3)%nat then Some 3%nat
                   else match r2 with
                        | String s3 _ =>
                            if negb (within 128 191 s3) then None
                            else Some 4%nat
                        | EmptyString => None
                        end
               | EmptyString => None
               end
      end
  | _ => None
  end.

End utf8.

Module json.

(** The JSON values the response structs produce. *)
Inductive Value :=
| Bool (b : bool)
| Number (n : Z)
| Str (s : string)
| Strings (l : list string).

(** A JSON object: its members in the order they are written. *)
Definition Object : Type := list (string * Value).

(** A member tagged omitempty is left out when it is false, 0, the empty
    string or an empty slice. *)
Definition isEmptyValue (v : Value) : bool :=
  match v with
  | Bool b => negb b
  | Number n => n =? 0
  | Str s => String.eqb s ""
  | Strings l => match l with [] => true | _ => false end
  end.

Definition always (key : string) (v : Value) : Object := [(key, v)].
Definition omitempty (key : string) (v : Value) : Object :=
  if isEmptyValue v then [] else [(key, v)].

Definition quote : ascii := "034"%char.
Definition backslash : ascii := "092"%char.

Definition hexDigit (n : N) : ascii :=
  if (n <? 10)%N then ascii_of_N (48 + n) else ascii_of_N (87 + n).

(** One byte below 128 of a string literal. The quote, the backslash,
    the control characters and the characters <, > and & are escaped. *)
Definition escape (a : ascii) : string :=
  let n := N_of_ascii a in
  if Ascii.eqb a quote then String backslash (String quote "")
  else if Ascii.eqb a backslash then String backslash (String backslash "")
  else if (n =? 8)%N then String backslash "b"
  else if (n =? 12)%N then String backslash "f"
  else if (n =? 10)%N then String backslash "n"
  else if (n =? 13)%N then String backslash "r"
  else if (n =? 9)%N then String backslash "t"
  else if ((n <? 32)%N || (n =? 60)%N || (n =? 62)%N || (n =? 38)%N)%bool then
    String backslash "u00" +:+
    String (hexDigit (n / 16)%N) (String (hexDigit (n mod 16)%N) "")
  else String a "".

(** The encodings of U+2028 and U+2029 (bytes e2 80 a8 and e2 80 a9),
    with the last hexadecimal digit of the code point. *)
Definition separator (s : string) : option ascii :=
  match s with
  | String s0 (String s1 (String s2 _)) =>
      if ((N_of_ascii s0 =? 226) && (N_of_ascii s1 =? 128))%N then
        if (N_of_ascii s2 =? 168)%N then Some "8"%char
        else if (N_of_ascii s2 =? 169)%N then Some "9"%char
        else None
      else None
  | _ => None
  end.

(** The loop of the encoder over the bytes of a string. A byte below 128
    is escaped on its own. Above, the UTF-8 encoding that starts there is
    decoded: bytes that are no encoding give the replacement character,
    one byte at a time; U+2028 and U+2029 are escaped; any other encoding
    is copied. [pending] counts the bytes of the encoding just decoded
    that are still to pass, and [copy] tells whether they are written. *)
Fixpoint escapeFrom (copy : bool) (pending : nat) (s : string) : string :=
  match s with
  | EmptyString => ""
  | String a r =>
      match pending with
      | S k => (if copy then String a "" else "") +:+ escapeFrom copy k r
      | O =>
          if (N_of_ascii a <? 128)%N then escape a +:+ escapeFrom true 0 r
          else
            match utf8.size s with
            | None => String backslash "ufffd" +:+ escapeFrom true 0 r
            | Some n =>
                match separator s with
                | Some digit =>
                    String backslash "u202" +:+ String digit ""
                    +:+ escapeFrom false (Nat.pred n) r
                | None => String a (escapeFrom true (Nat.pred n) r)
                end
            end
      end
  end.

Definition escapeAll (s : string) : string := escapeFrom true 0 s.

Definition literal (s : string) : string :=
  String quote (escapeAll s) +:+ String quote "".

Definition digitChar (n : Z) : ascii := ascii_of_N (48 + Z.to_N n).

Fixpoint decimal (fuel : nat) (n : Z) (acc : string) : string :=
  match fuel with
  | O => acc
  | S fuel' =>
      let acc' := String (digitChar (n mod 10)) acc in
      if n <? 10 then acc' else decimal fuel' (n / 10) acc'
  end.

Definition number (n : Z) : string :=
  if n <? 0 then "-" +:+ decimal (S (Z.to_nat (Z.log2 (- n)))) (- n) ""
  else decimal (S (Z.to_nat (Z.log2 n))) n "".

Definition renderValue (v : Value) : string :=
  match v with
  | Bool true => "true"
  | Bool false => "false"
  | Number n => number n
  | Str s => literal s
  | Strings l => "[" +:+ strings.Join (map literal l) "," +:+ "]"
  end.

Definition renderMember (m : string * Value) : string :=
  literal m.1 +:+ ":" +:+ renderValue m.2.

(** The text [json.Marshal] writes for the object. *)
Definition render (o : Object) : string :=
  "{" +:+ strings.Join (map renderMember o) "," +:+ "}".

End json.

(* ================================================================== *)
(** ** api/auth: the validate, introspect and revoke handlers *)
(* ================================================================== *)

Module auth.

Record ValidateTokenRequest := mkValidateTokenRequest {
  Token : jwt.TokenString
}.

Record UserInfo := mkUserInfo {
  ID : string;
  Subject : string;
  Roles : list string;
  Permissions : list string
}.

Module ValidateTokenResponse.
Record t := mk {
  Valid : bool;
  User : option UserInfo;
  ExpiresAt : option time.Time;
  Error : string
}.
End ValidateTokenResponse.

(** [determineValidationError], on [err.Error()]. *)
Definition determineValidationError (errMsg : string) : string :=
  if strings.Contains errMsg "expired" then "token expired"
  else if strings.Contains errMsg "signature" then "invalid signature"
  else if strings.Contains errMsg "malformed" then "malformed token"
  else if strings.Contains errMsg "unexpected signing method"
       then "invalid signing method"
  else "invalid token".

(** The required field of the three request structs of this package. *)
Definition missingToken (t : jwt.TokenString) : option string :=
  if jwtlib.isEmpty t then Some "Token" else None.

(** [GlobalBlacklist != nil && GlobalBlacklist.IsBlacklisted(jti)]. *)
Definition revoked (jti : string) : M bool :=
  bl <- gets GlobalBlacklist ;;
  match bl with
  | None => ret false
  | Some b => ret (token.IsBlacklisted b jti)
  end.

(** [ValidateToken], the handler of POST /api/auth/validate. *)
Definition ValidateToken (body : gin.Body ValidateTokenRequest)
    : M (gin.Outcome ValidateTokenResponse.t) :=
  match gin.ShouldBindJSON "ValidateTokenRequest"
          (fun r => missingToken (Token r)) body with
  | inr err => ret (gin.JSON_H http.StatusBadRequest err)
  | inl req =>
      r <- jwt.ValidateToken (Token req) ;;
      match r with
      | inr err =>
          let errorMessage := determineValidationError (jwtlib.Error err) in
          ret (gin.JSON http.StatusOK
                 {| ValidateTokenResponse.Valid := false;
                    ValidateTokenResponse.User := None;
                    ValidateTokenResponse.ExpiresAt := None;
                    ValidateTokenResponse.Error := errorMessage |})
      | inl claims =>
          isRevoked <- revoked (jwt.ID claims) ;;
          if isRevoked then
            ret (gin.JSON http.StatusOK
                   {| ValidateTokenResponse.Valid := false;
                      ValidateTokenResponse.User := None;
                      ValidateTokenResponse.ExpiresAt := None;
                      ValidateTokenResponse.Error := "token revoked" |})
          else
            match jwt.ExpiresAt claims with
            | None => ret gin.Panic
            | Some expiresAt =>
                ret (gin.JSON http.StatusOK
                       {| ValidateTokenResponse.Valid := true;
                          ValidateTokenResponse.User :=
                            Some {| ID := jwt.UserId claims;
                                    Subject := jwt.Subject claims;
                                    Roles := jwt.Roles claims;
                                    Permissions := jwt.Permissions claims |};
                          ValidateTokenResponse.ExpiresAt := Some expiresAt;
                          ValidateTokenResponse.Error := "" |})
            end
      end
  end.

Record IntrospectTokenRequest := mkIntrospectTokenRequest {
  IntrospectToken_Token : jwt.TokenString;
  TokenTypeHint : string
}.

Module IntrospectTokenResponse.
Record t := mk {
  Active : bool;
  Scope : string;
  ClientId : string;
  Username : string;
  TokenType : string;
  Exp : Z;
  Iat : Z;
  Sub : string;
  Iss : string;
  Roles : list string;
  Permissions : list string
}.

(** The composite literal [IntrospectTokenResponse{Active: false}]. *)
Definition inactive : t :=
  {| Active := false; Scope := ""; ClientId := ""; Username := "";
     TokenType := ""; Exp := 0; Iat := 0; Sub := ""; Iss := "";
     Roles := []; Permissions := [] |}.

(** The struct tags: active is always written, the rest omitempty. *)
Definition Marshal (r : t) : json.Object :=
  json.always "active" (json.Bool (Active r)) ++
  json.omitempty "scope" (json.Str (Scope r)) ++
  json.omitempty "client_id" (json.Str (ClientId r)) ++
  json.omitempty "username" (json.Str (Username r)) ++
  json.omitempty "token_type" (json.Str (TokenType r)) ++
  json.omitempty "exp" (json.Number (Exp r)) ++
  json.omitempty "iat" (json.Number (Iat r)) ++
  json.omitempty "sub" (json.Str (Sub r)) ++
  json.omitempty "iss" (json.Str (Iss r)) ++
  json.omitempty "roles" (json.Strings (Roles r)) ++
  json.omitempty "permissions" (json.Strings (Permissions r)).
End IntrospectTokenResponse.

(** The two loops of [buildScopeString]. *)
Fixpoint appendRoles (scopes roles : list string) : list string :=
  match roles with
  | [] => scopes
  | role :: rest =>
      if negb (String.eqb role "")
      then appendRoles (scopes ++ ["role:" +:+ role]) rest
      else appendRoles scopes rest
  end.

Fixpoint appendPermissions (scopes permissions : list string) : list string :=
  match permissions with
  | [] => scopes
  | permission :: rest =>
      if negb (String.eqb permission "")
      then appendPermissions (scopes ++ [permission]) rest
      else appendPermissions scopes rest
  end.

(** [buildScopeString]. *)
Definition buildScopeString (roles permissions : list string) : string :=
  let scopes := appendRoles [] roles in
  let scopes := appendPermissions scopes permissions in
  strings.Join scopes " ".

(** [IntrospectToken], the handler of POST /api/auth/introspect. *)
Definition IntrospectToken (body : gin.Body IntrospectTokenRequest)
    : M (gin.Outcome IntrospectTokenResponse.t) :=
  match gin.ShouldBindJSON "IntrospectTokenRequest"
          (fun r => missingToken (IntrospectToken_Token r)) body with
  | inr err => ret (gin.JSON_H http.StatusBadRequest err)
  | inl req =>
      r <- jwt.ValidateToken (IntrospectToken_Token req) ;;
      match r with
      | inr err =>
          ret (gin.JSON http.StatusOK IntrospectTokenResponse.inactive)
      | inl claims =>
          isRevoked <- revoked (jwt.ID claims) ;;
          if isRevoked then
            ret (gin.JSON http.StatusOK IntrospectTokenResponse.inactive)
          else
            let scope :=
              buildScopeString (jwt.Roles claims) (jwt.Permissions claims) in
            match jwt.ExpiresAt claims, jwt.IssuedAt claims with
            | Some exp, Some iat =>
                ret (gin.JSON http.StatusOK
                       {| IntrospectTokenResponse.Active := true;
                          IntrospectTokenResponse.Scope := scope;
                          IntrospectTokenResponse.ClientId :=
                            "aegis-default-client";
                          IntrospectTokenResponse.Username := jwt.Subject claims;
                          IntrospectTokenResponse.TokenType := "Bearer";
                          IntrospectTokenResponse.Exp := time.Unix exp;
                          IntrospectTokenResponse.Iat := time.Unix iat;
                          IntrospectTokenResponse.Sub := jwt.UserId claims;
                          IntrospectTokenResponse.Iss := jwt.Issuer claims;
                          IntrospectTokenResponse.Roles := jwt.Roles claims;
                          IntrospectTokenResponse.Permissions :=
                            jwt.Permissions claims |})
            | _, _ => ret gin.Panic
            end
      end
  end.

Record RevokeTokenRequest := mkRevokeTokenRequest {
  RevokeToken_Token : jwt.TokenString
}.

Module RevokeTokenResponse.
Record t := mk { Success : bool; Message : string }.
End RevokeTokenResponse.

(** [token.GlobalBlacklist.Add(jti, expiresAt)]: the method reads the
    clock for RevokedAt and updates the shared instance. *)
Definition GlobalBlacklist_Add (b : token.MemoryBlacklist) (jti : string)
    (expiresAt : time.Time) : M unit :=
  now <- Now ;;
  fun w => (tt, withBlacklist (Some (token.Add b jti expiresAt now)) w).

(** [RevokeToken], the handler of POST /api/auth/revoke. *)
Definition RevokeToken (body : gin.Body RevokeTokenRequest)
    : M (gin.Outcome RevokeTokenResponse.t) :=
  match gin.ShouldBindJSON "RevokeTokenRequest"
          (fun r => missingToken (RevokeToken_Token r)) body with
  | inr err => ret (gin.JSON_H http.StatusBadRequest err)
  | inl req =>
      bl <- gets GlobalBlacklist ;;
      match bl with
      | None =>
          ret (gin.JSON_H http.StatusInternalServerError
                 "Token revocation system unavailable")
      | Some b =>
          r <- jwt.ValidateToken (RevokeToken_Token req) ;;
          match r with
          | inr err => ret (gin.JSON_H http.StatusBadRequest "Invalid token")
          | inl claims =>
              if token.IsBlacklisted b (jwt.ID claims) then
                ret (gin.JSON http.StatusOK
                       {| RevokeTokenResponse.Success := true;
                          RevokeTokenResponse.Message :=
                            "Token already revoked" |})
              else
                match jwt.ExpiresAt claims with
                | None => ret gin.Panic
                | Some exp =>
                    let expiresAt := time.FromUnix (time.Unix exp) in
                    _ <- GlobalBlacklist_Add b (jwt.ID claims) expiresAt ;;
                    ret (gin.JSON http.StatusOK
                           {| RevokeTokenResponse.Success := true;
                              RevokeTokenResponse.Message :=
                                "Token revoked successfully" |})
                end
          end
      end
  end.

End auth.

(* ================================================================== *)
(** ** api/user/api.go: refreshToken *)
(* ================================================================== *)

Module user.

Record RefreshTokenRequest := mkRefreshTokenRequest {
  RefreshToken : jwt.TokenString
}.

Record UserResponse := mkUserResponse {
  Id : string;
  Subject : string;
  CreatedAt : time.Time;
  CreatedBy : string;
  UpdatedAt : time.Time;
  UpdatedBy : string;
  Roles : list string;
  Permissions : list string
}.

Module LoginResponse.
Record t := mk {
  User : UserResponse;
  AccessToken : jwt.TokenString;
  RefreshToken : jwt.TokenString;
  ExpiresAt : time.Time;
  RefreshExpiresAt : time.Time
}.
End LoginResponse.

Definition toUserResponse (user : userService.User) : UserResponse :=
  {| Id := uuid.String (userService.Id user);
     Subject := userService.Subject user;
     CreatedAt := userService.CreatedAt user;
     CreatedBy := userService.CreatedBy user;
     UpdatedAt := userService.UpdatedAt user;
     UpdatedBy := userService.UpdatedBy user;
     Roles := userService.Roles user;
     Permissions := userService.Permissions user |}.

Definition missingRefreshToken (r : RefreshTokenRequest) : option string :=
  if jwtlib.isEmpty (RefreshToken r) then Some "RefreshToken" else None.

(** [refreshToken], the handler of POST /users/refresh. The two copy
    loops turn the user's roles and permissions into strings. *)
Definition refreshToken (body : gin.Body RefreshTokenRequest)
    : M (gin.Outcome LoginResponse.t) :=
  match gin.ShouldBindJSON "RefreshTokenRequest" missingRefreshToken body with
  | inr err => ret (gin.JSON_H http.StatusBadRequest err)
  | inl req =>
      r <- jwt.ValidateRefreshToken (RefreshToken req) ;;
      match r with
      | inr err =>
          ret (gin.JSON_H http.StatusUnauthorized "invalid refresh token")
      | inl claims =>
          match uuid.Parse (jwt.UserId claims) with
          | None => ret (gin.JSON_H http.StatusUnauthorized "invalid token")
          | Some userId =>
              found <- userService.GetUserById userId ;;
              match found with
              | None =>
                  ret (gin.JSON_H http.StatusUnauthorized "user not found")
              | Some user =>
                  let roles := map (fun role => role) (userService.Roles user) in
                  let permissions :=
                    map (fun permission => permission)
                        (userService.Permissions user) in
                  p <- jwt.GenerateTokenPair (userService.Id user)
                         (userService.Subject user) roles permissions ;;
                  match p with
                  | inr err =>
                      ret (gin.JSON_H http.StatusInternalServerError
                             "failed to generate tokens")
                  | inl tokenPair =>
                      ret (gin.JSON http.StatusOK
                             {| LoginResponse.User := toUserResponse user;
                                LoginResponse.AccessToken :=
                                  jwt.TokenPair.AccessToken tokenPair;
                                LoginResponse.RefreshToken :=
                                  jwt.TokenPair.RefreshToken tokenPair;
                                LoginResponse.ExpiresAt :=
                                  jwt.TokenPair.ExpiresAt tokenPair;
                                LoginResponse.RefreshExpiresAt :=
                                  jwt.TokenPair.RefreshExpiresAt tokenPair |})
                  end
              end
          end
      end
  end.

End user.

(* ================================================================== *)
(** * Vocabulary of the properties *)
(* ================================================================== *)

(** An entry that a sweep at [now] deletes. *)
Definition expired (now : time.Time) (kv : string * token.BlacklistEntry) : Prop :=
  time.Before (token.ExpiresAt kv.2) now = true.

#[local] Instance expired_dec now kv : Decision (expired now kv) :=
  decide (time.Before (token.ExpiresAt kv.2) now = true).

(** The invariant of the loop of [Cleanup]: once the entries of [m] have
    been visited, those of them that are expired are gone from the map,
    nothing else has changed, and the counter is their number. *)
Definition swept (now : time.Time) (b0 : gmap string token.BlacklistEntry)
    (acc : gmap string token.BlacklistEntry * Z)
    (m : gmap string token.BlacklistEntry) : Prop :=
  (forall k, acc.1 !! k =
     match m !! k with
     | Some e => if time.Before (token.ExpiresAt e) now then None else b0 !! k
     | None => b0 !! k
     end) /\
  acc.2 = Z.of_nat (size (filter (expired now) m)).

(** The scope string in the words of the specification: every role
    prefixed with role:, then every permission verbatim, joined by single
    spaces. *)
Definition scopeAsSpecified (roles permissions : list string) : string :=
  strings.Join (map (fun role => "role:" +:+ role) roles ++ permissions) " ".

(** A world for the examples: the clock at instant [t0] with the given
    delays, secret [test-secret], the default lifetime of 1440 minutes,
    the given blacklist variable, an empty database and no fault. *)
Definition exampleWorld (t0 : time.Time) (ds : list N)
    (bl : option token.MemoryBlacklist) : World :=
  {| clock := time.mkClock t0 ds;
     JWT_SECRET := "test-secret";
     TOKEN_EXPIRATION := jwt.getTokenExpiration "";
     GlobalBlacklist := bl;
     database := db.mkDatabase [] [] [];
     faults := [];
     queries := [] |}.

(** Text without exactly three dot-separated segments, with the error the
    parser reports on it. *)
Definition notThreeSegments (raw : string) : jwt.TokenString :=
  jwtlib.Unparsable raw
    (jwtlib.ErrTokenMalformed "token contains an invalid number of segments").

(** The body of a validate request carrying [t]. *)
Definition validateBody (t : jwt.TokenString) : gin.Body auth.ValidateTokenRequest :=
  gin.Decoded (auth.mkValidateTokenRequest t).

(** The response of the validate endpoint to a rejected token. *)
Definition rejected (msg : string) : gin.Outcome auth.ValidateTokenResponse.t :=
  gin.JSON http.StatusOK
    {| auth.ValidateTokenResponse.Valid := false;
       auth.ValidateTokenResponse.User := None;
       auth.ValidateTokenResponse.ExpiresAt := None;
       auth.ValidateTokenResponse.Error := msg |}.

(** The [n]-th next reading of a clock (from 0), with the clock after
    it. *)
Fixpoint reading (n : nat) (c : time.Clock) : time.Time * time.Clock :=
  match n with
  | O => time.tick c
  | S n' => reading n' (time.tick c).2
  end.

(** The claims literal of [generateTokenWithType], for an expiry instant
    and an issue instant. *)
Definition issuedClaims (userId : uuid.UUID) (subject : string)
    (roles permissions : list string) (tokenType : string)
    (expirationTime issuedAt : time.Time) : jwt.TokenClaims :=
  {| jwt.UserId := uuid.String userId;
     jwt.Subject := subject;
     jwt.Roles := roles;
     jwt.Permissions := permissions;
     jwt.TokenType := tokenType;
     jwt.RegisteredClaims :=
       {| jwtlib.Issuer := "aegis";
          jwtlib.Subject := "";
          jwtlib.Audience := [];
          jwtlib.ExpiresAt := Some (jwtlib.NewNumericDate expirationTime);
          jwtlib.NotBefore := None;
          jwtlib.IssuedAt := Some (jwtlib.NewNumericDate issuedAt);
          jwtlib.ID := "" |} |}.

(** The two tokens of a pair. *)
Definition tokensOf (p : jwt.TokenPair.t) : list jwt.TokenString :=
  [jwt.TokenPair.AccessToken p; jwt.TokenPair.RefreshToken p].

(** [t] is a token that some call of [GenerateTokenPair] returned in a
    process whose signing secret is [secret]. *)
Definition issued (secret : string) (t : jwt.TokenString) : Prop :=
  exists (w w' : World) (userId : uuid.UUID) (subject : string)
         (roles permissions : list string) (p : jwt.TokenPair.t),
    JWT_SECRET w = secret /\
    jwt.GenerateTokenPair userId subject roles permissions w = (inl p, w') /\
    In t (tokensOf p).

(** The bodies of introspect and revoke requests carrying [t]. *)
Definition introspectBody (t : jwt.TokenString) (hint : string)
    : gin.Body auth.IntrospectTokenRequest :=
  gin.Decoded (auth.mkIntrospectTokenRequest t hint).

Definition revokeBody (t : jwt.TokenString) : gin.Body auth.RevokeTokenRequest :=
  gin.Decoded (auth.mkRevokeTokenRequest t).

(** The text of the minimal introspection response. *)
Definition inactiveJSON : string :=
  "{" +:+ String json.quote "active" +:+ String json.quote ":false}".

(** The body of a refresh request carrying [t]. *)
Definition refreshBody (t : jwt.TokenString) : gin.Body user.RefreshTokenRequest :=
  gin.Decoded (user.mkRefreshTokenRequest t).

(** The identity and authorization data a token carries. *)
Definition carries (c : jwt.TokenClaims) (userId subject : string)
    (roles permissions : list string) : Prop :=
  jwt.UserId c = userId /\ jwt.Subject c = subject /\
  jwt.Roles c = roles /\ jwt.Permissions c = permissions.

(** A database for the examples: one user, now a viewer. *)
Definition exampleDatabase : db.Database :=
  {| db.users :=
       [db.mkUserRow "00000000-0000-0000-0000-000000000007" "alice@example.com"
          "hash" "salt" "pepper" 0 "system" 0 "system"];
     db.user_roles := [("00000000-0000-0000-0000-000000000007", "viewer")];
     db.user_permissions :=
       [("00000000-0000-0000-0000-000000000007", "read:self")] |}.

Definition withDatabase (d : db.Database) (w : World) : World :=
  {| clock := clock w; JWT_SECRET := JWT_SECRET w;
     TOKEN_EXPIRATION := TOKEN_EXPIRATION w;
     GlobalBlacklist := GlobalBlacklist w;
     database := d; faults := faults w; queries := queries w |}.

(* ================================================================== *)
(** ** domain/token/global.go and main.go: wiring the blacklist *)
(* ================================================================== *)

Module global.

(** [InitializeBlacklist]. *)
Definition InitializeBlacklist (blacklist : token.MemoryBlacklist) : M unit :=
  fun w => (tt, withBlacklist (Some blacklist) w).

End global.

Module main.

(** The start of [main]: a new blacklist becomes the global one. *)
Definition startup : M unit :=
  global.InitializeBlacklist token.NewMemoryBlacklist.

(** One round of the ticker loop of [main]: a sweep of the blacklist
    (which reads the clock), then its size, which is logged. [main] hands
    one instance to [InitializeBlacklist] and to the loop, so the
    blacklist of the loop is the global one. *)
Definition cleanupJob : M Z :=
  bl <- gets GlobalBlacklist ;;
  match bl with
  | None => ret 0
  | Some blacklist =>
      now <- Now ;;
      let r := token.Cleanup blacklist now in
      _ <- (fun w => (tt, withBlacklist (Some r.1) w)) ;;
      ret (token.Size r.1)
  end.


End main.

(* ================================================================== *)
(** ** domain/user: the role and permission methods of User *)
(* ================================================================== *)

Module userModel.

(** The loop [for _, r := range names { if r == name { return true } }]. *)
Fixpoint contains (names : list string) (name : string) : bool :=
  match names with
  | [] => false
  | r :: rest => if String.eqb r name then true else contains rest name
  end.

(** The loop of the remove methods: at the first index [i] with
    [names[i] == name], the slice [append(names[:i], names[i+1:]...)];
    [None] when the loop ends without a match. *)
Fixpoint removeFirst (names : list string) (name : string)
    : option (list string) :=
  match names with
  | [] => None
  | r :: rest =>
      if String.eqb r name then Some rest
      else match removeFirst rest name with
           | Some rest' => Some (r :: rest')
           | None => None
           end
  end.

(** [u.UpdatedAt = time.Now(); u.UpdatedBy = updatedBy]. *)
Definition touch (u : userService.User) (updatedBy : string)
    : M userService.User :=
  now <- Now ;;
  ret {| userService.Id := userService.Id u;
         userService.Subject := userService.Subject u;
         userService.PasswordHash := userService.PasswordHash u;
         userService.Salt := userService.Salt u;
         userService.Pepper := userService.Pepper u;
         userService.CreatedAt := userService.CreatedAt u;
         userService.CreatedBy := userService.CreatedBy u;
         userService.UpdatedAt := now;
         userService.UpdatedBy := updatedBy;
         userService.Roles := userService.Roles u;
         userService.Permissions := userService.Permissions u |}.

(** [HasRole], [AddRole], [RemoveRole]; the user is the receiver's
    target, returned updated. *)
Definition HasRole (u : userService.User) (role : string) : bool :=
  contains (userService.Roles u) role.

Definition AddRole (u : userService.User) (role updatedBy : string)
    : M userService.User :=
  if contains (userService.Roles u) role then ret u
  else touch (userService.setRoles u (userService.Roles u ++ [role])) updatedBy.

Definition RemoveRole (u : userService.User) (role updatedBy : string)
    : M userService.User :=
  match removeFirst (userService.Roles u) role with
  | Some roles => touch (userService.setRoles u roles) updatedBy
  | None => ret u
  end.

(** [HasPermission], [AddPermission], [RemovePermission]. *)
Definition HasPermission (u : userService.User) (permission : string) : bool :=
  contains (userService.Permissions u) permission.

Definition AddPermission (u : userService.User) (permission updatedBy : string)
    : M userService.User :=
  if contains (userService.Permissions u) permission then ret u
  else touch (userService.setPermissions u
                (userService.Permissions u ++ [permission])) updatedBy.

Definition RemovePermission (u : userService.User)
    (permission updatedBy : string) : M userService.User :=
  match removeFirst (userService.Permissions u) permission with
  | Some permissions => touch (userService.setPermissions u permissions) updatedBy
  | None => ret u
  end.

End userModel.

(** A user for the examples. *)
Definition exampleUser (roles permissions : list string) : userService.User :=
  userService.mkUser 7%N "alice@example.com" "hash" "salt" "pepper"
    0 "system" 0 "system" roles permissions.

(** The number of times [name] occurs in [names]. *)
Definition occurrences (names : list string) (name : string) : nat :=
  length (filter (fun r => r = name) names).

(** [GlobalBlacklist != nil && GlobalBlacklist.IsBlacklisted(jti)], as a
    function of the value of the variable. *)
Definition listed (bl : option token.MemoryBlacklist) (jti : string) : bool :=
  match bl with
  | Some b => token.IsBlacklisted b jti
  | None => false
  end.


(** The response of the revoke endpoint to a first revocation. *)
Definition revokedNow : gin.Outcome auth.RevokeTokenResponse.t :=
  gin.JSON http.StatusOK
    (auth.RevokeTokenResponse.mk true "Token revoked successfully").

(** The fault that the [k]-th next call of [RunQueryWithArgs] meets,
    counted from 0. *)
Definition upcoming (w : World) (k : nat) : db.Fault :=
  nth k (faults w) db.healthy.

(** What a load keeps of the [names] its statement selects, under the
    fault its query meets: nothing when the query fails, else the names
    of the rows on which [Scan] succeeds. *)
Definition kept (f : db.Fault) (names : list string) : list string :=
  match db.answer f names with
  | inr _ => []
  | inl rows => omap id rows
  end.

(** The user row a lookup by id reads from the [rows] its statement
    selects, with the id read: the first row, when the query succeeds,
    [Scan] succeeds on that row and its id column spells a UUID. *)
Definition readable (f : db.Fault) (rows : list db.UserRow)
    : option (db.UserRow * uuid.UUID) :=
  match f, rows with
  | db.ScanFails bad, row :: _ =>
      if bool_decide (0%nat ∈ bad) then None
      else match uuid.Parse (db.id row) with
           | Some id => Some (row, id)
           | None => None
           end
  | _, _ => None
  end.

(** The error string with which the validate endpoint answers each
    refusal of the parser. *)
Definition signal (r : jwtlib.Refusal) : string :=
  match r with
  | jwtlib.SignatureInvalid | jwtlib.SignatureNotBase64 _ => "invalid signature"
  | jwtlib.KeyfuncFails _ => "invalid signing method"
  | jwtlib.AlgUnavailable | jwtlib.AlgUnspecified => "invalid token"
  | jwtlib.InvalidSegments
  | jwtlib.HeaderNotBase64 _ | jwtlib.HeaderNotJSON _
  | jwtlib.ClaimNotBase64 _ | jwtlib.ClaimNotJSON _ => "malformed token"
  end.

(** The refusals as they ordinarily come: the text of a decoder's error
    mentions neither expired nor signature, and the error of the key
    function is the one the key function of [jwt.ValidateToken]
    returns. *)
Definition ordinary (r : jwtlib.Refusal) : bool :=
  match r with
  | jwtlib.HeaderNotBase64 cause | jwtlib.HeaderNotJSON cause
  | jwtlib.ClaimNotBase64 cause | jwtlib.ClaimNotJSON cause =>
      negb (strings.Contains cause "expired") &&
      negb (strings.Contains cause "signature")
  | jwtlib.SignatureNotBase64 cause => negb (strings.Contains cause "expired")
  | jwtlib.KeyfuncFails cause => String.eqb cause "unexpected signing method"
  | _ => true
  end.

(* ================================================================== *)
(** * Properties *)
(* ================================================================== *)

(** ** The blacklist sweep *)

Lemma cleanup_loop now (b0 m : gmap string token.BlacklistEntry) :
  swept now b0 (map_fold (token.cleanupStep now) (b0, 0) m) m.
Proof.
  apply (map_fold_weak_ind (swept now b0)).
  - split; [intros k; by rewrite lookup_empty|].
    by rewrite map_filter_empty, map_size_empty.
  - intros i x m0 [r n] Hi [Hm Hn]. simpl in *.
    unfold token.cleanupStep.
    destruct (time.Before (token.ExpiresAt x) now) eqn:Hx; split; simpl.
    + intros k. destruct (decide (i = k)) as [->|Hne].
      * by rewrite lookup_delete_eq, lookup_insert_eq, Hx.
      * rewrite lookup_delete_ne, lookup_insert_ne by done. apply Hm.
    + rewrite map_filter_insert_True by exact Hx.
      rewrite map_size_insert_None.
      * rewrite Hn. lia.
      * apply map_lookup_filter_None. by left.
    + intros k. destruct (decide (i = k)) as [->|Hne].
      * rewrite lookup_insert_eq, Hx, Hm, Hi. done.
      * rewrite lookup_insert_ne by done. apply Hm.
    + rewrite map_filter_insert_False.
      * rewrite delete_id by done. exact Hn.
      * unfold expired. simpl. by rewrite Hx.
Qed.

(** What survives a sweep: exactly the entries that are not expired. *)
Lemma Cleanup_lookup now (b : token.MemoryBlacklist) (jti : string) :
  token.entries (token.Cleanup b now).1 !! jti =
    match token.entries b !! jti with
    | Some e => if time.Before (token.ExpiresAt e) now then None else Some e
    | None => None
    end.
Proof.
  unfold token.Cleanup. simpl.
  destruct (cleanup_loop now (token.entries b) (token.entries b)) as [H _].
  rewrite H. by destruct (token.entries b !! jti).
Qed.

Lemma Cleanup_count now (b : token.MemoryBlacklist) :
  (token.Cleanup b now).2 =
    Z.of_nat (size (filter (expired now) (token.entries b))).
Proof.
  unfold token.Cleanup. simpl.
  by destruct (cleanup_loop now (token.entries b) (token.entries b)) as [_ H].
Qed.

Lemma Cleanup_entries now (b : token.MemoryBlacklist) :
  token.entries (token.Cleanup b now).1 =
    filter (fun kv => ~ expired now kv) (token.entries b).
Proof.
  apply map_eq. intros k. rewrite Cleanup_lookup.
  destruct (token.entries b !! k) as [e|] eqn:Hk.
  - destruct (time.Before (token.ExpiresAt e) now) eqn:He.
    + symmetry. apply map_lookup_filter_None. right.
      intros x Hx. rewrite Hk in Hx. injection Hx as <-.
      unfold expired. simpl. rewrite He. auto.
    + symmetry. apply map_lookup_filter_Some. split; [done|].
      unfold expired. simpl. by rewrite He.
  - symmetry. apply map_lookup_filter_None. by left.
Qed.

Lemma Cleanup_size now (b : token.MemoryBlacklist) :
  (token.Cleanup b now).2 = token.Size b - token.Size (token.Cleanup b now).1.
Proof.
  rewrite Cleanup_count. unfold token.Size. rewrite Cleanup_entries.
  pose proof (map_filter_union_complement (expired now) (token.entries b)) as Hu.
  pose proof (map_disjoint_filter_complement (expired now) (token.entries b)) as Hd.
  apply map_size_disj_union in Hd. rewrite Hu in Hd. lia.
Qed.

(** C6 (as the code has it). [Cleanup] removes from the blacklist exactly
    the entries whose natural expiry is strictly before the current time:
    an entry survives, unchanged, when its expiry is at or after now (an
    expiry equal to now included), no entry appears, and the value
    returned is the number of entries removed. *)
Theorem Cleanup_removes_strictly_expired :
  forall (b : token.MemoryBlacklist) (now : time.Time) (jti : string),
    token.entries (token.Cleanup b now).1 !! jti =
      match token.entries b !! jti with
      | Some e => if token.ExpiresAt e <? now then None else Some e
      | None => None
      end /\
    (token.Cleanup b now).2 =
      Z.of_nat (size (filter (expired now) (token.entries b))) /\
    (token.Cleanup b now).2 =
      token.Size b - token.Size (token.Cleanup b now).1.
Proof.
  intros b now jti. split; [apply Cleanup_lookup|].
  split; [apply Cleanup_count | apply Cleanup_size].
Qed.

(** C6 fails as stated: an entry whose expiry equals the current time is
    at or before now, yet the sweep keeps it and counts nothing. *)
Lemma Cleanup_keeps_boundary_entry :
  let now : time.Time := 1000 in
  let b := token.Add token.NewMemoryBlacklist "boundary-token" now 0 in
  (token.ExpiresAt <$> token.entries b !! "boundary-token") = Some now /\
  token.IsBlacklisted (token.Cleanup b now).1 "boundary-token" = true /\
  (token.Cleanup b now).2 = 0.
Proof. vm_compute. auto. Qed.

(** ** The scope string *)

Lemma appendRoles_filter (roles scopes : list string) :
  auth.appendRoles scopes roles =
    scopes ++ map (fun role => "role:" +:+ role) (filter (fun s => s <> "") roles).
Proof.
  revert scopes. induction roles as [|role rest IH]; intros scopes; simpl.
  - by rewrite app_nil_r.
  - destruct (String.eqb_spec role "") as [->|Hne]; simpl.
    + rewrite IH. by rewrite filter_cons_False by auto.
    + rewrite IH, filter_cons_True by done. simpl. by rewrite <- app_assoc.
Qed.

Lemma appendPermissions_filter (permissions scopes : list string) :
  auth.appendPermissions scopes permissions =
    scopes ++ filter (fun s => s <> "") permissions.
Proof.
  revert scopes. induction permissions as [|p rest IH]; intros scopes; simpl.
  - by rewrite app_nil_r.
  - destruct (String.eqb_spec p "") as [->|Hne]; simpl.
    + rewrite IH. by rewrite filter_cons_False by auto.
    + rewrite IH, filter_cons_True by done. by rewrite <- app_assoc.
Qed.

Lemma filter_nonempty_id (l : list string) :
  Forall (fun s => s <> "") l -> filter (fun s => s <> "") l = l.
Proof.
  induction 1 as [|s l Hs _ IH]; [done|].
  by rewrite filter_cons_True, IH by done.
Qed.

(** When no role and no permission is the empty string, the code and the
    specification's formula agree. *)
Lemma buildScopeString_nonempty (roles permissions : list string) :
  Forall (fun s => s <> "") roles -> Forall (fun s => s <> "") permissions ->
  auth.buildScopeString roles permissions = scopeAsSpecified roles permissions.
Proof.
  intros Hr Hp. unfold auth.buildScopeString, scopeAsSpecified.
  rewrite appendPermissions_filter, appendRoles_filter. simpl.
  by rewrite !filter_nonempty_id.
Qed.

(** C9 (as the code has it). The scope string is the specification's
    formula applied to the non-empty roles and the non-empty permissions:
    each non-empty role prefixed with role:, then each non-empty permission
    verbatim, joined by single spaces in that order; empty role and
    permission names are skipped. With no roles and no permissions the
    scope is the empty string. *)
Theorem buildScopeString_skips_empty_names :
  forall roles permissions : list string,
    auth.buildScopeString roles permissions =
      scopeAsSpecified (filter (fun s => s <> "") roles)
                       (filter (fun s => s <> "") permissions) /\
    auth.buildScopeString [] [] = "".
Proof.
  intros roles permissions. split; [|reflexivity].
  unfold auth.buildScopeString, scopeAsSpecified.
  by rewrite appendPermissions_filter, appendRoles_filter.
Qed.

(** C9 fails as stated: with an empty role name among the roles, the
    formula of the specification yields a bare role: element that the code
    leaves out. *)
Lemma buildScopeString_drops_empty_role :
  auth.buildScopeString ["admin"; ""] ["read:users"] = "role:admin read:users" /\
  scopeAsSpecified ["admin"; ""] ["read:users"] = "role:admin role: read:users" /\
  auth.buildScopeString ["admin"; ""] ["read:users"]
    <> scopeAsSpecified ["admin"; ""] ["read:users"].
Proof. vm_compute. repeat split; congruence. Qed.

(** ** Running the monad *)

Lemma withClock_id (w : World) : withClock (clock w) w = w.
Proof. by destruct w. Qed.

Ltac run :=
  unfold bind, ret, gets, Now, liftClock, RunQueryWithArgs; simpl.

Arguments jwt.ValidateToken : simpl never.
Arguments jwt.ValidateRefreshToken : simpl never.
Arguments jwt.GenerateTokenPair : simpl never.
Arguments jwt.generateTokenWithType : simpl never.
Arguments userService.GetUserById : simpl never.

(** [jwt.ValidateToken], case by case. It changes nothing but the
    clock. *)
Lemma ValidateToken_unparsable (w : World) raw err :
  jwt.ValidateToken (jwtlib.Unparsable raw err) w = (inr err, w).
Proof. unfold jwt.ValidateToken. run. by rewrite withClock_id. Qed.

Lemma ValidateToken_wrong_method (w : World) m key c :
  jwtlib.isHMAC m = false ->
  jwt.ValidateToken (jwtlib.Compact m key c) w =
    (inr (jwtlib.ErrTokenUnverifiable
            "error while executing keyfunc: unexpected signing method"), w).
Proof.
  intros Hm. unfold jwt.ValidateToken, jwt.keyFunc. run.
  rewrite Hm. simpl. by rewrite withClock_id.
Qed.

Lemma ValidateToken_wrong_key (w : World) m key c :
  jwtlib.isHMAC m = true -> key <> JWT_SECRET w ->
  jwt.ValidateToken (jwtlib.Compact m key c) w =
    (inr jwtlib.ErrTokenSignatureInvalid, w).
Proof.
  intros Hm Hk. unfold jwt.ValidateToken, jwt.keyFunc. run.
  rewrite Hm. simpl.
  destruct (String.eqb_spec key (JWT_SECRET w)) as [?|_]; [done|].
  simpl. by rewrite withClock_id.
Qed.

Lemma ValidateToken_signed (w : World) m c :
  jwtlib.isHMAC m = true ->
  jwt.ValidateToken (jwtlib.Compact m (JWT_SECRET w) c) w =
    let r := time.tick (clock w) in
    (match jwtlib.Validate r.1 c with
     | [] => inl c
     | reasons => inr (jwtlib.ErrTokenInvalidClaims reasons)
     end, withClock r.2 w).
Proof.
  intros Hm. unfold jwt.ValidateToken, jwt.keyFunc. run.
  rewrite Hm. simpl. rewrite String.eqb_refl. simpl.
  destruct (time.tick (clock w)) as [now clk]. simpl.
  by destruct (jwtlib.Validate now c).
Qed.

Lemma ValidateToken_frame (w w' : World) t r :
  jwt.ValidateToken t w = (r, w') -> exists clk, w' = withClock clk w.
Proof.
  destruct t as [raw detail|m key c].
  - rewrite ValidateToken_unparsable. intros [= _ <-].
    exists (clock w). by rewrite withClock_id.
  - destruct (jwtlib.isHMAC m) eqn:Hm.
    + destruct (String.eqb_spec key (JWT_SECRET w)) as [->|Hk].
      * rewrite ValidateToken_signed by done. simpl. intros [= _ <-]. eauto.
      * rewrite ValidateToken_wrong_key by done. intros [= _ <-].
        exists (clock w). by rewrite withClock_id.
    + rewrite ValidateToken_wrong_method by done. intros [= _ <-].
      exists (clock w). by rewrite withClock_id.
Qed.

(** A token that [jwt.ValidateToken] accepts is a compact token of an
    HMAC method signed with the secret. *)
Lemma ValidateToken_accepts (w w' : World) t c :
  jwt.ValidateToken t w = (inl c, w') ->
  exists m, jwtlib.isHMAC m = true /\ t = jwtlib.Compact m (JWT_SECRET w) c /\
            jwtlib.Validate (time.tick (clock w)).1 c = [] /\
            w' = withClock (time.tick (clock w)).2 w.
Proof.
  destruct t as [raw detail|m key c'].
  - by rewrite ValidateToken_unparsable.
  - destruct (jwtlib.isHMAC m) eqn:Hm.
    + destruct (String.eqb_spec key (JWT_SECRET w)) as [->|Hk].
      * rewrite ValidateToken_signed by done. simpl.
        destruct (jwtlib.Validate _ c') eqn:Hv; [|done].
        intros [= <- <-]. eauto.
      * by rewrite ValidateToken_wrong_key.
    + by rewrite ValidateToken_wrong_method.
Qed.

(** ** The handlers, once the body is bound and the token decoded *)

Lemma withClock_GlobalBlacklist clk w :
  GlobalBlacklist (withClock clk w) = GlobalBlacklist w.
Proof. reflexivity. Qed.

(** The response of the validate endpoint to an accepted token. *)
Lemma bound_nonempty (t : jwt.TokenString) :
  jwtlib.isEmpty t = false -> auth.missingToken t = None.
Proof. unfold auth.missingToken. by intros ->. Qed.

Lemma accepted_nonempty (w w' : World) t c :
  jwt.ValidateToken t w = (inl c, w') -> jwtlib.isEmpty t = false.
Proof. intros (m & _ & -> & _)%ValidateToken_accepts. reflexivity. Qed.

Lemma validate_on_error (w w' : World) t err :
  jwtlib.isEmpty t = false ->
  jwt.ValidateToken t w = (inr err, w') ->
  auth.ValidateToken (validateBody t) w =
    (rejected (auth.determineValidationError (jwtlib.Error err)), w').
Proof.
  intros Ht Hv. unfold auth.ValidateToken, validateBody, gin.ShouldBindJSON.
  simpl. rewrite bound_nonempty by done. unfold bind. simpl. by rewrite Hv.
Qed.

Lemma validate_on_claims (w w' : World) t c :
  jwt.ValidateToken t w = (inl c, w') ->
  auth.ValidateToken (validateBody t) w =
    (if match GlobalBlacklist w with
        | Some b => token.IsBlacklisted b (jwt.ID c)
        | None => false
        end
     then rejected "token revoked"
     else match jwt.ExpiresAt c with
          | None => gin.Panic
          | Some expiresAt =>
              gin.JSON http.StatusOK
                {| auth.ValidateTokenResponse.Valid := true;
                   auth.ValidateTokenResponse.User :=
                     Some {| auth.ID := jwt.UserId c;
                             auth.Subject := jwt.Subject c;
                             auth.Roles := jwt.Roles c;
                             auth.Permissions := jwt.Permissions c |};
                   auth.ValidateTokenResponse.ExpiresAt := Some expiresAt;
                   auth.ValidateTokenResponse.Error := "" |}
          end, w').
Proof.
  intros Hv. pose proof (accepted_nonempty _ _ _ _ Hv) as Ht.
  destruct (ValidateToken_frame _ _ _ _ Hv) as [clk ->].
  unfold auth.ValidateToken, validateBody, gin.ShouldBindJSON.
  simpl. rewrite bound_nonempty by done. unfold bind. simpl. rewrite Hv.
  unfold auth.revoked, bind, gets, ret. simpl.
  destruct (GlobalBlacklist w) as [b|]; simpl.
  - destruct (token.IsBlacklisted b (jwt.ID c)); [done|].
    by destruct (jwt.ExpiresAt c).
  - by destruct (jwt.ExpiresAt c).
Qed.

(** ** The error strings of the validate endpoint *)

(** [determineValidationError] on the message of each refusal. *)
Lemma signal_of_refusal (r : jwtlib.Refusal) :
  ordinary r = true ->
  auth.determineValidationError (jwtlib.Error (jwtlib.refusalError r)) = signal r.
Proof.
  destruct r as [|cause|cause|cause|cause| | |cause|cause|]; simpl ordinary;
    intros H; try reflexivity.
  1-4: apply andb_true_iff in H as [He Hs];
       apply negb_true_iff in He; apply negb_true_iff in Hs;
       unfold auth.determineValidationError, jwtlib.Error, jwtlib.refusalError,
         signal;
       cbv [String.append strings.Contains strings.HasPrefix Ascii.eqb Bool.eqb]
         in *;
       rewrite He, Hs; reflexivity.
  - apply negb_true_iff in H.
    unfold auth.determineValidationError, jwtlib.Error, jwtlib.refusalError,
      signal.
    cbv [String.append strings.Contains strings.HasPrefix Ascii.eqb Bool.eqb]
      in *.
    rewrite H. reflexivity.
  - apply String.eqb_eq in H as ->. reflexivity.
Qed.

(** C4 (as the code has it). A non-empty token that [jwt.ValidateToken]
    refuses for a cryptographic reason is answered 200 with valid=false
    and an error string that depends on the check that failed:
    [invalid signature] when the signature does not verify, and also when
    the signature segment is not base64; [invalid signing method] when
    the key function refuses the method; [invalid token] when the header
    names no registered method, or no method; [malformed token] when the
    text has not three segments or its header or claims do not decode
    (for the decoding failures, as long as the text of the decoder's own
    error mentions neither expired nor signature). Every compact token of
    a method outside the HMAC family is refused by the key function, so
    it is answered [invalid signing method]; a compact token of an HMAC
    method that is refused for another reason than its claims is refused
    for its signature, and answered [invalid signature]. The four
    strings are different: the answer tells these reasons apart. *)
Theorem validate_names_the_failed_check :
  forall (w : World),
    (forall (w' : World) (t : jwt.TokenString) (r : jwtlib.Refusal),
       jwtlib.isEmpty t = false ->
       ordinary r = true ->
       jwt.ValidateToken t w = (inr (jwtlib.refusalError r), w') ->
       auth.ValidateToken (validateBody t) w = (rejected (signal r), w')) /\
    (forall m key c, jwtlib.isHMAC m = false ->
       jwt.ValidateToken (jwtlib.Compact m key c) w =
         (inr (jwtlib.refusalError
                 (jwtlib.KeyfuncFails "unexpected signing method")), w) /\
       auth.ValidateToken (validateBody (jwtlib.Compact m key c)) w =
         (rejected "invalid signing method", w)) /\
    (forall m key c err w', jwtlib.isHMAC m = true ->
       jwt.ValidateToken (jwtlib.Compact m key c) w = (inr err, w') ->
       (forall reasons, err <> jwtlib.ErrTokenInvalidClaims reasons) ->
       err = jwtlib.refusalError jwtlib.SignatureInvalid /\
       auth.ValidateToken (validateBody (jwtlib.Compact m key c)) w =
         (rejected "invalid signature", w')) /\
    (forall cause1 cause2,
       let signature := signal jwtlib.SignatureInvalid in
       let method := signal (jwtlib.KeyfuncFails cause1) in
       let unknown := signal jwtlib.AlgUnavailable in
       let malformed := signal (jwtlib.HeaderNotJSON cause2) in
       signature <> method /\ signature <> unknown /\ signature <> malformed /\
       method <> unknown /\ method <> malformed /\ unknown <> malformed).
Proof.
  intros w. split; [|split; [|split]].
  - intros w' t r Ht Hr Hv.
    rewrite (validate_on_error w w' t _ Ht Hv). by rewrite signal_of_refusal.
  - intros m key c Hm.
    pose proof (ValidateToken_wrong_method w m key c Hm) as Hv.
    split; [exact Hv|].
    by rewrite (validate_on_error w w (jwtlib.Compact m key c) _ eq_refl Hv).
  - intros m key c err w' Hm Hv Hclaims.
    assert (err = jwtlib.ErrTokenSignatureInvalid) as ->.
    { destruct (String.eqb_spec key (JWT_SECRET w)) as [->|Hk].
      - rewrite ValidateToken_signed in Hv by done. simpl in Hv.
        destruct (jwtlib.Validate _ c) as [|reason reasons]; [done|].
        injection Hv as <- _. by destruct (Hclaims (reason :: reasons)).
      - rewrite ValidateToken_wrong_key in Hv by done. by injection Hv as <- _. }
    split; [reflexivity|].
    by rewrite (validate_on_error w w' (jwtlib.Compact m key c) _ eq_refl Hv).
  - intros cause1 cause2. simpl. repeat split; discriminate.
Qed.

Lemma validate_names_the_failed_check_witness :
  let w := exampleWorld 0 [] None in
  let c := jwt.mkTokenClaims "" "mallory" [] [] "access"
             (jwtlib.mkRegisteredClaims "aegis" "" [] None None None "") in
  (auth.ValidateToken (validateBody (jwtlib.Compact jwtlib.HS256 "forged" c)) w).1
    = rejected "invalid signature" /\
  (auth.ValidateToken
     (validateBody
        (jwtlib.Unparsable "e30.e30.!"
           (jwtlib.refusalError
              (jwtlib.SignatureNotBase64 "illegal base64 data at input byte 0"))))
     w).1
    = rejected "invalid signature" /\
  (auth.ValidateToken (validateBody (jwtlib.Compact jwtlib.NoneMethod "" c)) w).1
    = rejected "invalid signing method" /\
  (auth.ValidateToken
     (validateBody
        (jwtlib.Unparsable "eyJhbGciOiJYIn0.e30.c2ln"
           (jwtlib.refusalError jwtlib.AlgUnavailable))) w).1
    = rejected "invalid token" /\
  (auth.ValidateToken
     (validateBody (notThreeSegments "not-a-jwt")) w).1
    = rejected "malformed token".
Proof.
  intros w c.
  destruct (validate_names_the_failed_check w) as (Hclass & Hmeth & _ & _).
  split; [|split; [|split; [|split]]].
  - rewrite (Hclass w _ jwtlib.SignatureInvalid); reflexivity.
  - rewrite (Hclass w _ (jwtlib.SignatureNotBase64
                           "illegal base64 data at input byte 0")); reflexivity.
  - destruct (Hmeth jwtlib.NoneMethod "" c eq_refl) as [_ ->]. reflexivity.
  - rewrite (Hclass w _ jwtlib.AlgUnavailable); reflexivity.
  - rewrite (Hclass w _ jwtlib.InvalidSegments); reflexivity.
Defined.

(** Why the decoder's text matters: claims whose exp member is the JSON
    string expired do not decode, the error of encoding/json quotes the
    member, and the endpoint reports the malformed token as expired. *)
Example undecodable_claims_reported_as_expired :
  let q := String json.quote "" in
  let bq := String json.backslash q in
  let cause :=
    "could not parse NumericDate: json: invalid number literal, "
    +:+ "trying to unmarshal " +:+ q +:+ bq +:+ "expired" +:+ bq +:+ q
    +:+ " into Number" in
  ordinary (jwtlib.ClaimNotJSON cause) = false /\
  (auth.ValidateToken
     (validateBody
        (jwtlib.Unparsable "e30.eyJleHAiOiJleHBpcmVkIn0.c2ln"
           (jwtlib.refusalError (jwtlib.ClaimNotJSON cause))))
     (exampleWorld 0 [] None)).1
    = rejected "token expired".
Proof. vm_compute. split; reflexivity. Qed.

(** C4 fails as stated: three inputs rejected for three cryptographic
    reasons (text that is no token, a forged signature, a wrong signing
    method) receive three different error strings. *)
Lemma validate_distinguishes_cryptographic_failures :
  let w := exampleWorld 0 [] None in
  let c := jwt.mkTokenClaims "" "mallory" [] [] "access"
             (jwtlib.mkRegisteredClaims "aegis" "" [] None None None "") in
  let malformed :=
    auth.ValidateToken
      (validateBody (notThreeSegments "not-a-jwt")) w in
  let forged :=
    auth.ValidateToken (validateBody (jwtlib.Compact jwtlib.HS256 "forged" c)) w in
  let wrongAlg :=
    auth.ValidateToken (validateBody (jwtlib.Compact jwtlib.NoneMethod "" c)) w in
  malformed.1 = rejected "malformed token" /\
  forged.1 = rejected "invalid signature" /\
  wrongAlg.1 = rejected "invalid signing method" /\
  malformed.1 <> forged.1 /\ forged.1 <> wrongAlg.1 /\ malformed.1 <> wrongAlg.1.
Proof. vm_compute. repeat split; congruence. Qed.

(** ** The clock *)

Lemma tick_current (c : time.Clock) :
  time.current (time.tick c).2 = (time.tick c).1.
Proof. unfold time.tick. by destruct (time.delays c). Qed.

Lemma tick_le (c : time.Clock) : time.current c <= (time.tick c).1.
Proof. unfold time.tick. destruct (time.delays c); simpl; lia. Qed.

Lemma reading_mono (n : nat) (c : time.Clock) :
  (reading n c).1 <= (reading (S n) c).1.
Proof.
  revert c. induction n as [|n IH]; intros c.
  - simpl. rewrite <- tick_current. apply tick_le.
  - change (reading (S (S n)) c) with (reading (S n) (time.tick c).2).
    change (reading (S n) c) with (reading n (time.tick c).2). apply IH.
Qed.

Lemma wrap64_id (z : Z) :
  time.MinInt64 <= z <= time.MaxInt64 -> time.wrap64 z = z.
Proof.
  unfold time.MinInt64, time.MaxInt64, time.wrap64. intros H.
  change (2 ^ 63) with 9223372036854775808.
  change (2 ^ 64) with 18446744073709551616.
  rewrite Z.mod_small; lia.
Qed.

(** ** Issuing tokens *)

Lemma generateTokenWithType_run (w : World) userId subject roles permissions
    tokenType expiration :
  jwt.generateTokenWithType userId subject roles permissions tokenType
      expiration w =
    (inl {| jwt.TokenOutput.Token :=
              jwtlib.Compact jwtlib.HS256 (JWT_SECRET w)
                (issuedClaims userId subject roles permissions tokenType
                   (time.Add (reading 0 (clock w)).1 expiration)
                   (reading 1 (clock w)).1);
            jwt.TokenOutput.ExpiresAt :=
              time.Add (reading 0 (clock w)).1 expiration |},
     withClock (reading 1 (clock w)).2 w).
Proof.
  unfold jwt.generateTokenWithType. run.
  destruct (time.tick (clock w)) as [t1 c1]. simpl.
  by destruct (time.tick c1) as [t2 c2].
Qed.

Lemma GenerateTokenPair_run (w : World) userId subject roles permissions :
  jwt.GenerateTokenPair userId subject roles permissions w =
    let exp := TOKEN_EXPIRATION w in
    let long := time.dadd exp jwt.REFRESH_TOKEN_EXTRA_TIME in
    let now k := (reading k (clock w)).1 in
    (inl {| jwt.TokenPair.AccessToken :=
              jwtlib.Compact jwtlib.HS256 (JWT_SECRET w)
                (issuedClaims userId subject roles permissions "access"
                   (time.Add (now 2%nat) exp) (now 3%nat));
            jwt.TokenPair.RefreshToken :=
              jwtlib.Compact jwtlib.HS256 (JWT_SECRET w)
                (issuedClaims userId subject roles permissions "refresh"
                   (time.Add (now 4%nat) long) (now 5%nat));
            jwt.TokenPair.ExpiresAt := time.Add (now 0%nat) exp;
            jwt.TokenPair.RefreshExpiresAt := time.Add (now 1%nat) long |},
     withClock (reading 5 (clock w)).2 w).
Proof.
  unfold jwt.GenerateTokenPair. run.
  destruct (time.tick (clock w)) as [t1 c1] eqn:E1. simpl.
  destruct (time.tick c1) as [t2 c2] eqn:E2. simpl.
  rewrite !generateTokenWithType_run. simpl. reflexivity.
Qed.

(** The lifetime configuration, on the values the tests of jwt.go use. *)
Example getTokenExpiration_values :
  jwt.getTokenExpiration "" = 1440 * time.Minute /\
  jwt.getTokenExpiration "60" = 60 * time.Minute /\
  jwt.getTokenExpiration "invalid" = 1440 * time.Minute /\
  jwt.getTokenExpiration "-10" = 1440 * time.Minute /\
  jwt.getTokenExpiration "0" = 1440 * time.Minute.
Proof. vm_compute. auto. Qed.

(** C1 (what the code does). [GenerateTokenPair] always succeeds, and both
    tokens it returns are signed HS256 tokens whose JTI (the registered
    claim ID) is the empty string: the claims literal of
    [generateTokenWithType] never sets it. The access and the refresh token
    of one call therefore carry the same JTI, as do the tokens of any two
    calls. *)
Theorem GenerateTokenPair_leaves_JTI_empty :
  forall (w : World) (userId : uuid.UUID) (subject : string)
         (roles permissions : list string),
  exists (p : jwt.TokenPair.t) (ca cr : jwt.TokenClaims) (w' : World),
    jwt.GenerateTokenPair userId subject roles permissions w = (inl p, w') /\
    jwt.TokenPair.AccessToken p = jwtlib.Compact jwtlib.HS256 (JWT_SECRET w) ca /\
    jwt.TokenPair.RefreshToken p = jwtlib.Compact jwtlib.HS256 (JWT_SECRET w) cr /\
    jwt.TokenType ca = "access" /\ jwt.TokenType cr = "refresh" /\
    jwt.ID ca = "" /\ jwt.ID cr = "" /\ jwt.ID ca = jwt.ID cr.
Proof.
  intros w userId subject roles permissions.
  rewrite GenerateTokenPair_run. simpl.
  eexists _, _, _, _. split; [reflexivity|]. simpl. repeat split; reflexivity.
Qed.

(** C5 (as the code has it). [GenerateTokenPair] reads the clock once for
    the access expiry and once more for the refresh expiry. When the
    lifetime plus the grace interval fits an int64, the refresh expiry is
    strictly later than the access expiry, and the difference is the grace
    interval (1 minute) plus the time elapsed between the two readings: at
    least the grace interval, and exactly it only when both readings show
    the same instant. *)
Theorem refresh_expiry_gap :
  forall (w : World) (userId : uuid.UUID) (subject : string)
         (roles permissions : list string),
    time.MinInt64 <= TOKEN_EXPIRATION w + jwt.REFRESH_TOKEN_EXTRA_TIME
      <= time.MaxInt64 ->
    exists (p : jwt.TokenPair.t) (w' : World),
      jwt.GenerateTokenPair userId subject roles permissions w = (inl p, w') /\
      let elapsed := (reading 1 (clock w)).1 - (reading 0 (clock w)).1 in
      0 <= elapsed /\
      time.Sub (jwt.TokenPair.RefreshExpiresAt p) (jwt.TokenPair.ExpiresAt p)
        = jwt.REFRESH_TOKEN_EXTRA_TIME + elapsed /\
      jwt.REFRESH_TOKEN_EXTRA_TIME = 60000000000 /\
      time.After (jwt.TokenPair.RefreshExpiresAt p) (jwt.TokenPair.ExpiresAt p)
        = true.
Proof.
  intros w userId subject roles permissions Hfit.
  rewrite GenerateTokenPair_run. simpl. eexists _, _. split; [reflexivity|].
  simpl. pose proof (reading_mono 0 (clock w)) as Hmono. simpl in Hmono.
  unfold time.dadd. rewrite wrap64_id by exact Hfit.
  unfold time.Sub, time.Add, time.After.
  assert (jwt.REFRESH_TOKEN_EXTRA_TIME = 60000000000) as HX by reflexivity.
  repeat split; lia.
Qed.

Lemma refresh_expiry_gap_witness :
  exists (p : jwt.TokenPair.t) (w' : World),
    jwt.GenerateTokenPair 7%N "test@example.com" ["admin"] ["read"]
      (exampleWorld 0 [0%N; 1%N] None) = (inl p, w') /\
    time.Sub (jwt.TokenPair.RefreshExpiresAt p) (jwt.TokenPair.ExpiresAt p)
      = jwt.REFRESH_TOKEN_EXTRA_TIME + 1.
Proof.
  destruct (refresh_expiry_gap (exampleWorld 0 [0%N; 1%N] None) 7%N
              "test@example.com" ["admin"] ["read"])
    as (p & w' & Hrun & _ & Hgap & _).
  - vm_compute. split; discriminate.
  - exists p, w'. split; [exact Hrun | exact Hgap].
Defined.

(** C5 fails as stated: when one nanosecond passes between the two clock
    readings of [GenerateTokenPair], the two expiries are one minute and
    one nanosecond apart, not one minute. *)
Lemma refresh_expiry_gap_not_exact :
  let w := exampleWorld 0 [0%N; 1%N] None in
  match (jwt.GenerateTokenPair 7%N "test@example.com" ["admin"] ["read"] w).1 with
  | inl p =>
      time.Sub (jwt.TokenPair.RefreshExpiresAt p) (jwt.TokenPair.ExpiresAt p)
        = 60000000001 /\
      time.Sub (jwt.TokenPair.RefreshExpiresAt p) (jwt.TokenPair.ExpiresAt p)
        <> jwt.REFRESH_TOKEN_EXTRA_TIME
  | inr _ => False
  end.
Proof. vm_compute. split; [reflexivity | discriminate]. Qed.

(** ** The introspect and revoke handlers, once the token is decoded *)

Lemma introspect_on_error (w w' : World) t hint err :
  jwtlib.isEmpty t = false ->
  jwt.ValidateToken t w = (inr err, w') ->
  auth.IntrospectToken (introspectBody t hint) w =
    (gin.JSON http.StatusOK auth.IntrospectTokenResponse.inactive, w').
Proof.
  intros Ht Hv. unfold auth.IntrospectToken, introspectBody, gin.ShouldBindJSON.
  simpl. rewrite bound_nonempty by done. unfold bind. simpl. by rewrite Hv.
Qed.

Lemma introspect_on_claims (w w' : World) t hint c :
  jwt.ValidateToken t w = (inl c, w') ->
  auth.IntrospectToken (introspectBody t hint) w =
    (if match GlobalBlacklist w with
        | Some b => token.IsBlacklisted b (jwt.ID c)
        | None => false
        end
     then gin.JSON http.StatusOK auth.IntrospectTokenResponse.inactive
     else match jwt.ExpiresAt c, jwt.IssuedAt c with
          | Some exp, Some iat =>
              gin.JSON http.StatusOK
                {| auth.IntrospectTokenResponse.Active := true;
                   auth.IntrospectTokenResponse.Scope :=
                     auth.buildScopeString (jwt.Roles c) (jwt.Permissions c);
                   auth.IntrospectTokenResponse.ClientId := "aegis-default-client";
                   auth.IntrospectTokenResponse.Username := jwt.Subject c;
                   auth.IntrospectTokenResponse.TokenType := "Bearer";
                   auth.IntrospectTokenResponse.Exp := time.Unix exp;
                   auth.IntrospectTokenResponse.Iat := time.Unix iat;
                   auth.IntrospectTokenResponse.Sub := jwt.UserId c;
                   auth.IntrospectTokenResponse.Iss := jwt.Issuer c;
                   auth.IntrospectTokenResponse.Roles := jwt.Roles c;
                   auth.IntrospectTokenResponse.Permissions := jwt.Permissions c |}
          | _, _ => gin.Panic
          end, w').
Proof.
  intros Hv. pose proof (accepted_nonempty _ _ _ _ Hv) as Ht.
  destruct (ValidateToken_frame _ _ _ _ Hv) as [clk ->].
  unfold auth.IntrospectToken, introspectBody, gin.ShouldBindJSON.
  simpl. rewrite bound_nonempty by done. unfold bind. simpl. rewrite Hv.
  unfold auth.revoked, bind, gets, ret. simpl.
  destruct (GlobalBlacklist w) as [b|]; simpl.
  - destruct (token.IsBlacklisted b (jwt.ID c)); [done|].
    by destruct (jwt.ExpiresAt c), (jwt.IssuedAt c).
  - by destruct (jwt.ExpiresAt c), (jwt.IssuedAt c).
Qed.

Lemma revoke_without_blacklist (w : World) t :
  jwtlib.isEmpty t = false -> GlobalBlacklist w = None ->
  auth.RevokeToken (revokeBody t) w =
    (gin.JSON_H http.StatusInternalServerError
       "Token revocation system unavailable", w).
Proof.
  intros Ht Hnil. unfold auth.RevokeToken, revokeBody, gin.ShouldBindJSON.
  simpl. rewrite bound_nonempty by done. unfold bind, gets. by rewrite Hnil.
Qed.

Lemma revoke_on_error (w w' : World) b t err :
  jwtlib.isEmpty t = false -> GlobalBlacklist w = Some b ->
  jwt.ValidateToken t w = (inr err, w') ->
  auth.RevokeToken (revokeBody t) w =
    (gin.JSON_H http.StatusBadRequest "Invalid token", w').
Proof.
  intros Ht Hb Hv. unfold auth.RevokeToken, revokeBody, gin.ShouldBindJSON.
  simpl. rewrite bound_nonempty by done. unfold bind, gets. rewrite Hb.
  simpl. by rewrite Hv.
Qed.

Lemma revoke_on_claims (w w' : World) b t c :
  GlobalBlacklist w = Some b ->
  jwt.ValidateToken t w = (inl c, w') ->
  auth.RevokeToken (revokeBody t) w =
    if token.IsBlacklisted b (jwt.ID c) then
      (gin.JSON http.StatusOK
         {| auth.RevokeTokenResponse.Success := true;
            auth.RevokeTokenResponse.Message := "Token already revoked" |}, w')
    else
      match jwt.ExpiresAt c with
      | None => (gin.Panic, w')
      | Some exp =>
          let r := time.tick (clock w') in
          (gin.JSON http.StatusOK
             {| auth.RevokeTokenResponse.Success := true;
                auth.RevokeTokenResponse.Message := "Token revoked successfully" |},
           withBlacklist
             (Some (token.Add b (jwt.ID c) (time.FromUnix (time.Unix exp)) r.1))
             (withClock r.2 w'))
      end.
Proof.
  intros Hb Hv. pose proof (accepted_nonempty _ _ _ _ Hv) as Ht.
  unfold auth.RevokeToken, revokeBody, gin.ShouldBindJSON.
  simpl. rewrite bound_nonempty by done. unfold bind, gets. rewrite Hb.
  simpl. rewrite Hv.
  destruct (token.IsBlacklisted b (jwt.ID c)); [done|].
  destruct (jwt.ExpiresAt c) as [exp|]; [|done].
  unfold auth.GlobalBlacklist_Add, bind, Now, ret.
  by destruct (time.tick (clock w')) as [now clk].
Qed.

(** ** Status codes of the validate endpoint *)

Lemma determineValidationError_nonempty (errMsg : string) :
  auth.determineValidationError errMsg <> "".
Proof.
  unfold auth.determineValidationError.
  repeat match goal with |- context [if ?b then _ else _] => destruct b end;
    discriminate.
Qed.

(** C7 (as the code has it). A request whose body fails binding (text that
    is not JSON, or a missing or empty token) is answered 400. Every
    request whose body binds to a non-empty token is answered 200 with the
    decision in the body, valid=false coming with a non-empty error string
    and no user, valid=true with no error string; the only other outcome
    is the nil dereference on an accepted token that carries no exp
    claim. *)
Theorem validate_answers_200_once_bound :
  forall (w : World),
    (forall err,
       (auth.ValidateToken (gin.Undecodable err) w).1
         = gin.JSON_H http.StatusBadRequest err) /\
    (forall t, jwtlib.isEmpty t = true ->
       gin.status (auth.ValidateToken (validateBody t) w).1
         = http.StatusBadRequest) /\
    (forall t, jwtlib.isEmpty t = false ->
       (exists resp,
          (auth.ValidateToken (validateBody t) w).1 = gin.JSON http.StatusOK resp /\
          (auth.ValidateTokenResponse.Valid resp = false ->
             auth.ValidateTokenResponse.Error resp <> "" /\
             auth.ValidateTokenResponse.User resp = None) /\
          (auth.ValidateTokenResponse.Valid resp = true ->
             auth.ValidateTokenResponse.Error resp = "")) \/
       ((auth.ValidateToken (validateBody t) w).1 = gin.Panic /\
        exists c w', jwt.ValidateToken t w = (inl c, w') /\
                     jwt.ExpiresAt c = None)).
Proof.
  intros w. split; [reflexivity|]. split.
  - intros t Ht. unfold auth.ValidateToken, validateBody, gin.ShouldBindJSON,
      auth.missingToken. simpl. by rewrite Ht.
  - intros t Ht. destruct (jwt.ValidateToken t w) as [[c|err] w'] eqn:Hv.
    + rewrite (validate_on_claims _ _ _ _ Hv). unfold fst.
      destruct (match GlobalBlacklist w with Some _ => _ | None => _ end).
      * left. eexists. split; [reflexivity|]. simpl. split; [split|]; done.
      * destruct (jwt.ExpiresAt c) as [exp|] eqn:He.
        -- left. eexists. split; [reflexivity|]. simpl. split; done.
        -- right. split; [done|]. eauto.
    + rewrite (validate_on_error _ _ _ _ Ht Hv). unfold fst.
      left. eexists. split; [reflexivity|]. simpl. split; [|done].
      intros _. split; [apply determineValidationError_nonempty | done].
Qed.

Lemma validate_answers_200_once_bound_witness :
  let w := exampleWorld 0 [] None in
  gin.status
    (auth.ValidateToken (validateBody (notThreeSegments "")) w).1 = 400 /\
  gin.status
    (auth.ValidateToken
       (validateBody (notThreeSegments "this.is.not.a.valid.jwt.token")) w).1
    = 200.
Proof.
  intros w.
  destruct (validate_answers_200_once_bound w) as (_ & Hempty & Hbound).
  split; [apply Hempty; reflexivity|].
  destruct (Hbound (notThreeSegments "this.is.not.a.valid.jwt.token"))
    as [(resp & -> & _)|[Hpanic _]]; [reflexivity | reflexivity |].
  vm_compute in Hpanic. discriminate Hpanic.
Defined.

(** C7 fails as stated: a request with an empty token, and one whose body
    is not JSON, are answered 400 with an error body, not 200. *)
Lemma validate_rejects_empty_token_with_400 :
  let w := exampleWorld 0 [] None in
  (auth.ValidateToken (validateBody (notThreeSegments "")) w).1 =
    gin.JSON_H 400
      "Key: 'ValidateTokenRequest.Token' Error:Field validation for 'Token' failed on the 'required' tag" /\
  (auth.ValidateToken
     (gin.Undecodable "invalid character 'h' in literal true (expecting 'r')") w).1
    = gin.JSON_H 400 "invalid character 'h' in literal true (expecting 'r')" /\
  gin.status (auth.ValidateToken (validateBody (notThreeSegments "")) w).1
    <> http.StatusOK.
Proof. vm_compute. repeat split; congruence. Qed.

(** ** The minimal introspection response *)

Lemma inactive_Marshal :
  auth.IntrospectTokenResponse.Marshal auth.IntrospectTokenResponse.inactive
    = [("active", json.Bool false)] /\
  json.render
    (auth.IntrospectTokenResponse.Marshal auth.IntrospectTokenResponse.inactive)
    = inactiveJSON.
Proof. split; reflexivity. Qed.

(** C8. When introspection finds the token inactive, because
    [jwt.ValidateToken] rejects it (malformed, bad signature, wrong
    method, expired) or because its JTI is on the blacklist, the response
    is 200 and its JSON object has the single member active, with value
    false: the text written is exactly the object with that one member. *)
Theorem introspect_inactive_is_minimal :
  forall (w : World) (t : jwt.TokenString) (hint : string),
    jwtlib.isEmpty t = false ->
    ((exists err w', jwt.ValidateToken t w = (inr err, w')) \/
     (exists c w' b, jwt.ValidateToken t w = (inl c, w') /\
                     GlobalBlacklist w = Some b /\
                     token.IsBlacklisted b (jwt.ID c) = true)) ->
    exists r,
      (auth.IntrospectToken (introspectBody t hint) w).1 = gin.JSON http.StatusOK r /\
      auth.IntrospectTokenResponse.Active r = false /\
      auth.IntrospectTokenResponse.Marshal r = [("active", json.Bool false)] /\
      json.render (auth.IntrospectTokenResponse.Marshal r) = inactiveJSON.
Proof.
  intros w t hint Ht [(err & w' & Hv)|(c & w' & b & Hv & Hb & Hrev)];
    exists auth.IntrospectTokenResponse.inactive.
  - rewrite (introspect_on_error _ _ _ hint _ Ht Hv).
    repeat split; reflexivity.
  - rewrite (introspect_on_claims _ _ _ hint _ Hv), Hb, Hrev.
    repeat split; reflexivity.
Qed.

Lemma introspect_inactive_is_minimal_witness :
  exists r,
    (auth.IntrospectToken
       (introspectBody (jwtlib.Unparsable "garbage.token.value"
                          (jwtlib.ErrTokenMalformed "could not JSON decode header")) "")
       (exampleWorld 0 [] (Some token.NewMemoryBlacklist))).1
      = gin.JSON http.StatusOK r /\
    auth.IntrospectTokenResponse.Marshal r = [("active", json.Bool false)].
Proof.
  destruct (introspect_inactive_is_minimal
              (exampleWorld 0 [] (Some token.NewMemoryBlacklist))
              (jwtlib.Unparsable "garbage.token.value"
                 (jwtlib.ErrTokenMalformed "could not JSON decode header")) "")
    as (r & Hr & _ & Hm & _).
  - reflexivity.
  - left. eexists _, _. vm_compute. reflexivity.
  - exists r. split; [exact Hr | exact Hm].
Defined.

(** ** An uninitialized blacklist *)

(** C10. With the global blacklist nil, the validate and the introspect
    endpoint make no revocation check: a token that [jwt.ValidateToken]
    accepts (and that carries the exp and iat claims, as every token of
    this service does) is reported valid by the one and active by the
    other, whatever its JTI. The revoke endpoint, for any request carrying
    a token, answers 500 with the error body [Token revocation system
    unavailable] and changes nothing. *)
Theorem nil_blacklist_skips_revocation :
  forall (w : World),
    GlobalBlacklist w = None ->
    (forall t c w' exp iat hint,
       jwt.ValidateToken t w = (inl c, w') ->
       jwt.ExpiresAt c = Some exp -> jwt.IssuedAt c = Some iat ->
       exists rv ri,
         (auth.ValidateToken (validateBody t) w).1 = gin.JSON http.StatusOK rv /\
         auth.ValidateTokenResponse.Valid rv = true /\
         auth.ValidateTokenResponse.Error rv = "" /\
         (auth.IntrospectToken (introspectBody t hint) w).1
           = gin.JSON http.StatusOK ri /\
         auth.IntrospectTokenResponse.Active ri = true) /\
    (forall t, jwtlib.isEmpty t = false ->
       auth.RevokeToken (revokeBody t) w =
         (gin.JSON_H http.StatusInternalServerError
            "Token revocation system unavailable", w)).
Proof.
  intros w Hnil. split.
  - intros t c w' exp iat hint Hv Hexp Hiat.
    rewrite (validate_on_claims _ _ _ _ Hv).
    rewrite (introspect_on_claims _ _ _ hint _ Hv).
    rewrite Hnil, Hexp, Hiat. simpl.
    eexists _, _. repeat split; reflexivity.
  - intros t Ht. by apply revoke_without_blacklist.
Qed.

Lemma nil_blacklist_skips_revocation_witness :
  let w := exampleWorld 1000 [] None in
  let t : jwt.TokenString :=
    jwtlib.Compact jwtlib.HS256 "test-secret"
      (issuedClaims 7%N "test@example.com" ["admin"] ["read:users"] "access"
         (time.Add 0 (TOKEN_EXPIRATION w)) 0) in
  (exists rv ri,
     (auth.ValidateToken (validateBody t) w).1 = gin.JSON http.StatusOK rv /\
     auth.ValidateTokenResponse.Valid rv = true /\
     auth.ValidateTokenResponse.Error rv = "" /\
     (auth.IntrospectToken (introspectBody t "access_token") w).1
       = gin.JSON http.StatusOK ri /\
     auth.IntrospectTokenResponse.Active ri = true) /\
  gin.status (auth.RevokeToken (revokeBody t) w).1 = 500.
Proof.
  intros w t.
  destruct (nil_blacklist_skips_revocation w) as [Hcheck Hrevoke];
    [reflexivity|].
  split.
  - eapply Hcheck; vm_compute; reflexivity.
  - rewrite Hrevoke; reflexivity.
Defined.

(** ** One empty JTI for every token *)

Lemma issued_shape (secret : string) (t : jwt.TokenString) :
  issued secret t ->
  exists c exp,
    t = jwtlib.Compact jwtlib.HS256 secret c /\
    jwt.ID c = "" /\
    jwtlib.ExpiresAt (jwt.RegisteredClaims c) = Some exp /\
    jwtlib.NotBefore (jwt.RegisteredClaims c) = None /\
    jwt.IssuedAt c <> None.
Proof.
  intros (w & w' & userId & subject & roles & permissions & p & <- & Hrun & Hin).
  rewrite GenerateTokenPair_run in Hrun. simpl in Hrun.
  injection Hrun as <- _. simpl in Hin.
  destruct Hin as [<-|[<-|[]]]; eexists _, _; repeat split; done.
Qed.

(** An issued token, presented in a process with the same secret, is
    accepted until its expiry and rejected as expired from then on. *)
Lemma issued_validate (w : World) (t : jwt.TokenString) :
  issued (JWT_SECRET w) t ->
  exists c exp,
    t = jwtlib.Compact jwtlib.HS256 (JWT_SECRET w) c /\
    jwt.ID c = "" /\ jwt.ExpiresAt c = Some exp /\ jwt.IssuedAt c <> None /\
    jwt.ValidateToken t w =
      (if time.Before (time.tick (clock w)).1 exp then inl c
       else inr (jwtlib.ErrTokenInvalidClaims ["token is expired"]),
       withClock (time.tick (clock w)).2 w).
Proof.
  intros (c & exp & -> & Hid & Hexp & Hnbf & Hiat)%issued_shape.
  exists c, exp. repeat split; try done.
  rewrite ValidateToken_signed by done. simpl.
  unfold jwtlib.Validate. simpl. rewrite Hexp, Hnbf.
  by destruct (time.Before _ exp).
Qed.

(** A revocation that answers 200 leaves the JTI of its token on the
    blacklist. *)
Lemma revoke_ok_blacklists (w w1 : World) t resp :
  jwtlib.isEmpty t = false ->
  auth.RevokeToken (revokeBody t) w = (gin.JSON http.StatusOK resp, w1) ->
  exists c w' b1,
    jwt.ValidateToken t w = (inl c, w') /\
    GlobalBlacklist w1 = Some b1 /\ token.IsBlacklisted b1 (jwt.ID c) = true.
Proof.
  intros Ht Hr. destruct (GlobalBlacklist w) as [b|] eqn:Hb.
  - destruct (jwt.ValidateToken t w) as [[c|err] w'] eqn:Hv.
    + rewrite (revoke_on_claims _ _ _ _ _ Hb Hv) in Hr.
      destruct (ValidateToken_frame _ _ _ _ Hv) as [clk ->].
      destruct (token.IsBlacklisted b (jwt.ID c)) eqn:Hbl.
      * injection Hr as _ <-. exists c, (withClock clk w), b.
        split; [done|]. split; [exact Hb | done].
      * destruct (jwt.ExpiresAt c) as [exp|]; [|done].
        simpl in Hr. injection Hr as _ <-.
        eexists c, _, _. split; [done|]. split; [reflexivity|].
        unfold token.IsBlacklisted, token.Add. simpl.
        by rewrite lookup_insert_eq.
    + by rewrite (revoke_on_error _ _ _ _ _ Ht Hb Hv) in Hr.
  - by rewrite revoke_without_blacklist in Hr.
Qed.

(** C2 (as the code has it). Let one call of the revoke endpoint succeed
    on a token of [GenerateTokenPair]. From then on, while the blacklist
    keeps its content, every token of [GenerateTokenPair] (issued before
    or after, for any user) carries the same empty JTI and is reported as
    follows: the introspect endpoint answers active=false, and the
    validate endpoint answers valid=false, with error [token revoked] as
    long as the token has not expired and with error [token expired] once
    it has. *)
Theorem revoking_one_token_revokes_all :
  forall (w w1 w2 : World) (t t' : jwt.TokenString)
         (resp : auth.RevokeTokenResponse.t) (hint : string),
    issued (JWT_SECRET w) t ->
    issued (JWT_SECRET w) t' ->
    auth.RevokeToken (revokeBody t) w = (gin.JSON http.StatusOK resp, w1) ->
    JWT_SECRET w2 = JWT_SECRET w ->
    GlobalBlacklist w2 = GlobalBlacklist w1 ->
    exists c' exp',
      t' = jwtlib.Compact jwtlib.HS256 (JWT_SECRET w) c' /\
      jwt.ID c' = "" /\ jwt.ExpiresAt c' = Some exp' /\
      (auth.IntrospectToken (introspectBody t' hint) w2).1
        = gin.JSON http.StatusOK auth.IntrospectTokenResponse.inactive /\
      (auth.ValidateToken (validateBody t') w2).1
        = rejected (if time.Before (time.tick (clock w2)).1 exp'
                    then "token revoked" else "token expired").
Proof.
  intros w w1 w2 t t' resp hint Ht Ht' Hrev Hsecret Hbl.
  destruct (issued_validate w t Ht) as (c & exp & Heq & Hid & _ & _ & Hv).
  destruct (revoke_ok_blacklists w w1 t resp) as (c0 & w0 & b1 & Hv0 & Hb1 & Hin);
    [by rewrite Heq | done |].
  rewrite Hv in Hv0. destruct (time.Before _ exp); [|done].
  injection Hv0 as <- _. rewrite Hid in Hin. clear Hv.
  rewrite <- Hsecret in Ht'.
  destruct (issued_validate w2 t' Ht') as (c' & exp' & Heq' & Hid' & Hexp' & _ & Hv').
  assert (jwtlib.isEmpty t' = false) as Hne by (by rewrite Heq').
  exists c', exp'. rewrite <- Hsecret. repeat split; try done.
  - destruct (time.Before _ exp').
    + rewrite (introspect_on_claims _ _ _ hint _ Hv'), Hbl, Hb1, Hid', Hin.
      reflexivity.
    + by rewrite (introspect_on_error _ _ _ hint _ Hne Hv').
  - destruct (time.Before _ exp').
    + by rewrite (validate_on_claims _ _ _ _ Hv'), Hbl, Hb1, Hid', Hin.
    + by rewrite (validate_on_error _ _ _ _ Hne Hv').
Qed.

Lemma revoking_one_token_revokes_all_witness :
  let w := exampleWorld 0 [] (Some token.NewMemoryBlacklist) in
  let t : jwt.TokenString :=
    jwtlib.Compact jwtlib.HS256 "test-secret"
      (issuedClaims 1%N "user1@example.com" ["admin"] ["read:users"] "access"
         (time.Add 0 (TOKEN_EXPIRATION w)) 0) in
  let t' : jwt.TokenString :=
    jwtlib.Compact jwtlib.HS256 "test-secret"
      (issuedClaims 2%N "user2@example.com" ["user"] ["read:self"] "refresh"
         (time.Add 0 (time.dadd (TOKEN_EXPIRATION w) jwt.REFRESH_TOKEN_EXTRA_TIME))
         0) in
  let w1 := (auth.RevokeToken (revokeBody t) w).2 in
  (auth.IntrospectToken (introspectBody t' "") w1).1
    = gin.JSON http.StatusOK auth.IntrospectTokenResponse.inactive.
Proof.
  intros w t t' w1.
  destruct (revoking_one_token_revokes_all w w1 w1 t t'
              (auth.RevokeTokenResponse.mk true "Token revoked successfully") "")
    as (_ & _ & _ & _ & _ & Hi & _).
  - exists w, (jwt.GenerateTokenPair 1%N "user1@example.com" ["admin"]
                 ["read:users"] w).2,
      1%N, "user1@example.com", ["admin"], ["read:users"].
    eexists. split; [reflexivity|]. split; [vm_compute; reflexivity|].
    left. reflexivity.
  - exists w, (jwt.GenerateTokenPair 2%N "user2@example.com" ["user"]
                 ["read:self"] w).2,
      2%N, "user2@example.com", ["user"], ["read:self"].
    eexists. split; [reflexivity|]. split; [vm_compute; reflexivity|].
    right. left. reflexivity.
  - vm_compute. reflexivity.
  - reflexivity.
  - reflexivity.
  - exact Hi.
Defined.

(** C2 fails as stated for a token that has already expired: the validate
    endpoint reports it with error [token expired], not [token revoked].
    Here a pair is issued, two days pass, a second pair is issued and its
    access token revoked; the first access token is then validated. *)
Lemma expired_token_is_not_reported_revoked :
  let w0 := exampleWorld 0 [0; 0; 0; 0; 0; 0; 172800000000000]%N
              (Some token.NewMemoryBlacklist) in
  match jwt.GenerateTokenPair 1%N "user1@example.com" ["admin"] ["read:users"] w0
  with
  | (inl old, w1) =>
      match jwt.GenerateTokenPair 2%N "user2@example.com" ["user"] ["read:self"] w1
      with
      | (inl new, w2) =>
          let revoked :=
            auth.RevokeToken (revokeBody (jwt.TokenPair.AccessToken new)) w2 in
          let validated :=
            auth.ValidateToken (validateBody (jwt.TokenPair.AccessToken old))
              revoked.2 in
          revoked.1 =
            gin.JSON http.StatusOK
              (auth.RevokeTokenResponse.mk true "Token revoked successfully") /\
          validated.1 = rejected "token expired" /\
          validated.1 <> rejected "token revoked"
      | _ => False
      end
  | _ => False
  end.
Proof. vm_compute. repeat split; congruence. Qed.

(** ** Refreshing a pair *)

Lemma ValidateRefreshToken_accepts (w w' : World) t c :
  jwt.ValidateRefreshToken t w = (inl c, w') ->
  jwt.ValidateToken t w = (inl c, w') /\ jwt.TokenType c = "refresh" /\
  jwtlib.isEmpty t = false /\ exists clk, w' = withClock clk w.
Proof.
  unfold jwt.ValidateRefreshToken, bind, ret.
  destruct (jwt.ValidateToken t w) as [[c0|err] w0] eqn:Hv; [|done].
  destruct (String.eqb_spec (jwt.TokenType c0) "refresh") as [Hty|_]; [|done].
  simpl. intros [= <- <-]. repeat split; try done.
  - by eapply accepted_nonempty.
  - by eapply ValidateToken_frame.
Qed.

(** The faults met by successive queries. *)
Lemma hd_upcoming (w : World) : hd db.healthy (faults w) = upcoming w 0.
Proof. unfold upcoming. by destruct (faults w). Qed.

Lemma upcoming_next (q : db.Query) (w : World) (k : nat) :
  upcoming (withQuery q (withFaults (tl (faults w)) w)) k = upcoming w (S k).
Proof.
  unfold upcoming. simpl. destruct (faults w); [by destruct k | done].
Qed.

Lemma existsb_elem (i : nat) (bad : list nat) :
  existsb (Nat.eqb i) bad = bool_decide (i ∈ bad).
Proof.
  induction bad as [|j bad IH]; simpl; [done|].
  destruct (Nat.eqb_spec i j) as [->|Hne]; simpl.
  - symmetry. apply bool_decide_eq_true. apply list_elem_of_here.
  - rewrite IH. apply bool_decide_ext. rewrite elem_of_cons.
    split; [by right | by intros [?|?]].
Qed.

(** The loop of the loaders appends the names that scan, in order. *)
Lemma scanNames_omap (rows : db.Rows string) (names : list string) :
  userService.scanNames rows names = names ++ omap id rows.
Proof.
  revert names. induction rows as [|[name|] rows IH]; intros names; simpl.
  - by rewrite app_nil_r.
  - rewrite IH. by rewrite <- app_assoc.
  - apply IH.
Qed.

Lemma deliver_healthy {A} (i : nat) (rows : list A) :
  db.deliver [] i rows = map Some rows.
Proof. revert i. induction rows as [|r rows IH]; intros i; simpl; by rewrite ?IH. Qed.

(** With no fault, a load keeps every name. *)
Lemma kept_healthy (names : list string) : kept db.healthy names = names.
Proof.
  unfold kept, db.healthy, db.answer. rewrite deliver_healthy.
  induction names as [|n names IH]; [done|]. cbn. f_equal. exact IH.
Qed.

Lemma LoadUserPermissions_run (user : userService.User) (w : World) :
  userService.LoadUserPermissions user w =
    (match db.answer (upcoming w 0)
             (db.selectNames (db.user_permissions (database w))
                (uuid.String (userService.Id user))) with
     | inr _ => user
     | inl rows => userService.setPermissions user (omap id rows)
     end,
     withQuery (db.SELECT_USER_PERMISSIONS (uuid.String (userService.Id user)))
       (withFaults (tl (faults w)) w)).
Proof.
  unfold userService.LoadUserPermissions, bind, RunQueryWithArgs, ret.
  rewrite hd_upcoming. destruct (db.answer _ _) as [rows|err]; [|done].
  by rewrite scanNames_omap.
Qed.

Lemma LoadUserRoles_run (user : userService.User) (w : World) :
  userService.LoadUserRoles user w =
    (match db.answer (upcoming w 0)
             (db.selectNames (db.user_roles (database w))
                (uuid.String (userService.Id user))) with
     | inr _ => user
     | inl rows => userService.setRoles user (omap id rows)
     end,
     withQuery (db.SELECT_USER_ROLES (uuid.String (userService.Id user)))
       (withFaults (tl (faults w)) w)).
Proof.
  unfold userService.LoadUserRoles, bind, RunQueryWithArgs, ret.
  rewrite hd_upcoming. destruct (db.answer _ _) as [rows|err]; [|done].
  by rewrite scanNames_omap.
Qed.

(** [GetUserById] when the user row is read: the user is built from the
    row, then the permissions and the roles are loaded, each under the
    fault its own query meets. *)
Lemma GetUserById_found (w : World) userId row id :
  readable (upcoming w 0) (db.selectUserById (database w) (uuid.String userId))
    = Some (row, id) ->
  exists u w',
    userService.GetUserById userId w = (Some u, w') /\
    userService.Id u = id /\
    userService.Subject u = db.subject row /\
    userService.Roles u =
      kept (upcoming w 2)
        (db.selectNames (db.user_roles (database w)) (uuid.String id)) /\
    userService.Permissions u =
      kept (upcoming w 1)
        (db.selectNames (db.user_permissions (database w)) (uuid.String id)) /\
    queries w' = queries w ++
      [db.SELECT_USER_BY_ID (uuid.String userId);
       db.SELECT_USER_PERMISSIONS (uuid.String id);
       db.SELECT_USER_ROLES (uuid.String id)] /\
    clock w' = clock w /\ JWT_SECRET w' = JWT_SECRET w /\
    TOKEN_EXPIRATION w' = TOKEN_EXPIRATION w.
Proof.
  unfold readable. intros H.
  destruct (upcoming w 0) as [err|err|bad] eqn:Hf; [done | done |].
  destruct (db.selectUserById _ _) as [|row0 rest] eqn:Hrow; [discriminate H|].
  destruct (bool_decide (0%nat ∈ bad)) eqn:Hbad; [discriminate H|].
  destruct (uuid.Parse (db.id row0)) as [id0|] eqn:Hid; [|discriminate H].
  injection H as -> ->.
  unfold userService.GetUserById, bind at 1. unfold RunQueryWithArgs at 1.
  rewrite hd_upcoming, Hf, Hrow. cbn [db.answer db.deliver].
  rewrite existsb_elem, Hbad, Hid.
  unfold bind. rewrite LoadUserPermissions_run.
  rewrite LoadUserRoles_run. unfold ret.
  rewrite !upcoming_next. cbn [withQuery withFaults database].
  eexists _, _. split; [reflexivity|].
  unfold kept.
  destruct (db.answer (upcoming w 1) _) as [perms|e1];
    destruct (db.answer (upcoming w 2) _) as [roles|e2]; simpl;
    repeat split; try reflexivity; by rewrite <- !app_assoc.
Qed.

(** [GetUserById] when the user row is not read: one query, and nil. *)
Lemma GetUserById_unknown (w : World) userId :
  readable (upcoming w 0) (db.selectUserById (database w) (uuid.String userId))
    = None ->
  userService.GetUserById userId w =
    (None, withQuery (db.SELECT_USER_BY_ID (uuid.String userId))
             (withFaults (tl (faults w)) w)).
Proof.
  unfold readable. intros H.
  unfold userService.GetUserById, bind at 1. unfold RunQueryWithArgs at 1.
  rewrite hd_upcoming.
  destruct (upcoming w 0) as [err|err|bad] eqn:Hf; try reflexivity.
  destruct (db.selectUserById _ _) as [|row0 rest] eqn:Hrow; [reflexivity|].
  cbn [db.answer db.deliver]. rewrite existsb_elem.
  destruct (bool_decide (0%nat ∈ bad)) eqn:Hbad; [reflexivity|].
  by destruct (uuid.Parse (db.id row0)).
Qed.

Lemma map_id_eq {A} (l : list A) : map (fun x => x) l = l.
Proof. induction l as [|x l IH]; simpl; congruence. Qed.

(** C3 (as the code has it). For a refresh token that
    [ValidateRefreshToken] accepts, the refresh endpoint takes the user id
    from the claims and nothing else. If the id is no UUID the answer is
    401 with [invalid token] and no query. Otherwise the endpoint looks
    the user up in the store. When the user row is read (the query
    succeeds, selects a row, the first row scans and its id is a UUID),
    two more queries load the permissions and the roles, and the answer
    is 200 with a new pair whose two tokens carry the id and the subject
    of that row and the roles and permissions the two loads keep: all
    those the store holds when the load meets no fault. The roles and
    permissions embedded in the presented token play no part. When the
    user row is not read (the query fails, no row has that id, the row
    does not scan or its id is no UUID) the answer is 401 with [user not
    found] after that one query; no token is generated, so the clock is
    not read again. *)
Theorem refresh_reissues_from_the_user_store :
  forall (w w1 : World) (t : jwt.TokenString) (c : jwt.TokenClaims),
    jwt.ValidateRefreshToken t w = (inl c, w1) ->
    match uuid.Parse (jwt.UserId c) with
    | None =>
        user.refreshToken (refreshBody t) w
          = (gin.JSON_H http.StatusUnauthorized "invalid token", w1)
    | Some userId =>
        match readable (upcoming w 0)
                (db.selectUserById (database w) (uuid.String userId)) with
        | Some (row, id) =>
            let roles :=
              kept (upcoming w 2)
                (db.selectNames (db.user_roles (database w)) (uuid.String id)) in
            let permissions :=
              kept (upcoming w 1)
                (db.selectNames (db.user_permissions (database w))
                   (uuid.String id)) in
            exists resp w' ca cr,
              user.refreshToken (refreshBody t) w
                = (gin.JSON http.StatusOK resp, w') /\
              user.LoginResponse.AccessToken resp
                = jwtlib.Compact jwtlib.HS256 (JWT_SECRET w) ca /\
              user.LoginResponse.RefreshToken resp
                = jwtlib.Compact jwtlib.HS256 (JWT_SECRET w) cr /\
              jwt.TokenType ca = "access" /\ jwt.TokenType cr = "refresh" /\
              carries ca (uuid.String id) (db.subject row) roles permissions /\
              carries cr (uuid.String id) (db.subject row) roles permissions /\
              (upcoming w 2 = db.healthy ->
               roles =
                 db.selectNames (db.user_roles (database w)) (uuid.String id)) /\
              (upcoming w 1 = db.healthy ->
               permissions =
                 db.selectNames (db.user_permissions (database w))
                   (uuid.String id)) /\
              queries w' = queries w ++
                [db.SELECT_USER_BY_ID (uuid.String userId);
                 db.SELECT_USER_PERMISSIONS (uuid.String id);
                 db.SELECT_USER_ROLES (uuid.String id)]
        | None =>
            exists w',
              user.refreshToken (refreshBody t) w
                = (gin.JSON_H http.StatusUnauthorized "user not found", w') /\
              queries w' =
                queries w ++ [db.SELECT_USER_BY_ID (uuid.String userId)] /\
              clock w' = clock w1
        end
    end.
Proof.
  intros w w1 t c Hv.
  destruct (ValidateRefreshToken_accepts _ _ _ _ Hv) as (_ & _ & Ht & clk & ->).
  destruct (uuid.Parse (jwt.UserId c)) as [userId|] eqn:Huid.
  2: { unfold user.refreshToken, refreshBody, gin.ShouldBindJSON,
         user.missingRefreshToken. simpl. rewrite Ht. unfold bind. simpl.
       by rewrite Hv, Huid. }
  destruct (readable _ _) as [[row id]|] eqn:Hread.
  - destruct (GetUserById_found (withClock clk w) userId row id Hread)
      as (u & w2 & Hget & HId & HSub & HRoles & HPerms & Hq & Hclk & Hsec & Hexp).
    unfold user.refreshToken, refreshBody, gin.ShouldBindJSON,
      user.missingRefreshToken. simpl. rewrite Ht. unfold bind. simpl.
    rewrite Hv, Huid, Hget, GenerateTokenPair_run. simpl. unfold ret.
    rewrite !map_id_eq, Hsec, HId, HSub, HRoles, HPerms.
    eexists _, _, _, _. split; [reflexivity|]. simpl.
    change (upcoming (withClock clk w)) with (upcoming w).
    repeat split; try reflexivity.
    + intros ->. apply kept_healthy.
    + intros ->. apply kept_healthy.
    + exact Hq.
  - pose proof (GetUserById_unknown (withClock clk w) userId Hread) as Hget.
    unfold user.refreshToken, refreshBody, gin.ShouldBindJSON,
      user.missingRefreshToken. simpl. rewrite Ht. unfold bind. simpl.
    rewrite Hv, Huid, Hget. unfold ret.
    eexists. split; [reflexivity|]. split; reflexivity.
Qed.

Lemma refresh_reissues_from_the_user_store_witness :
  let w := withDatabase exampleDatabase (exampleWorld 0 [] None) in
  let t : jwt.TokenString :=
    jwtlib.Compact jwtlib.HS256 "test-secret"
      (issuedClaims 7%N "alice@example.com" ["admin"] ["write:users"] "refresh"
         (time.Add 0 (time.dadd (TOKEN_EXPIRATION w) jwt.REFRESH_TOKEN_EXTRA_TIME))
         0) in
  (exists resp w' ca,
     user.refreshToken (refreshBody t) w = (gin.JSON http.StatusOK resp, w') /\
     user.LoginResponse.AccessToken resp
       = jwtlib.Compact jwtlib.HS256 "test-secret" ca /\
     jwt.Roles ca = ["viewer"] /\ jwt.Permissions ca = ["read:self"]) /\
  (exists w',
     user.refreshToken (refreshBody t)
       (withFaults [db.QueryFails "database is locked"] w)
       = (gin.JSON_H http.StatusUnauthorized "user not found", w')).
Proof.
  intros w t.
  set (c := issuedClaims 7%N "alice@example.com" ["admin"] ["write:users"]
              "refresh"
              (time.Add 0 (time.dadd (TOKEN_EXPIRATION w)
                             jwt.REFRESH_TOKEN_EXTRA_TIME)) 0).
  assert (uuid.Parse (jwt.UserId c) = Some 7%N) as Huid
    by (vm_compute; reflexivity).
  split.
  - assert (jwt.ValidateRefreshToken t w
            = (inl c, (jwt.ValidateRefreshToken t w).2)) as Hv
      by (vm_compute; reflexivity).
    pose proof (refresh_reissues_from_the_user_store w _ t c Hv) as H.
    assert (readable (upcoming w 0)
              (db.selectUserById (database w) (uuid.String 7%N)) =
            Some (db.mkUserRow "00000000-0000-0000-0000-000000000007"
                    "alice@example.com" "hash" "salt" "pepper" 0 "system" 0
                    "system", 7%N)) as Hread by (vm_compute; reflexivity).
    rewrite Huid, Hread in H.
    destruct H as (resp & w' & ca & cr & Hrun & Ha & _ & _ & _ & Hca & _ & Hr & Hp & _).
    exists resp, w', ca. destruct Hca as (_ & _ & Hroles & Hperms).
    split; [exact Hrun|]. split; [exact Ha|].
    split.
    + rewrite Hroles. rewrite Hr by reflexivity. vm_compute. reflexivity.
    + rewrite Hperms. rewrite Hp by reflexivity. vm_compute. reflexivity.
  - set (wf := withFaults [db.QueryFails "database is locked"] w).
    assert (jwt.ValidateRefreshToken t wf
            = (inl c, (jwt.ValidateRefreshToken t wf).2)) as Hv
      by (vm_compute; reflexivity).
    pose proof (refresh_reissues_from_the_user_store wf _ t c Hv) as H.
    assert (readable (upcoming wf 0)
              (db.selectUserById (database wf) (uuid.String 7%N)) = None)
      as Hread by (vm_compute; reflexivity).
    rewrite Huid, Hread in H.
    destruct H as (w' & Hrun & _).
    exists w'. exact Hrun.
Defined.

(** C3 fails as stated: alice's refresh token was issued while she was an
    admin; the store now lists her as a viewer. The refresh endpoint sends
    three queries to the store, and the new access token carries the roles
    and permissions of the store, not those of the presented token. *)
Lemma refresh_reads_the_user_store :
  let w := withDatabase exampleDatabase (exampleWorld 0 [] None) in
  let presented :=
    issuedClaims 7%N "alice@example.com" ["admin"] ["write:users"] "refresh"
      (time.Add 0 (time.dadd (TOKEN_EXPIRATION w) jwt.REFRESH_TOKEN_EXTRA_TIME))
      0 in
  match user.refreshToken
          (refreshBody (jwtlib.Compact jwtlib.HS256 "test-secret" presented)) w
  with
  | (gin.JSON 200 resp, w') =>
      match user.LoginResponse.AccessToken resp with
      | jwtlib.Compact _ _ ca =>
          jwt.Roles ca = ["viewer"] /\ jwt.Roles ca <> jwt.Roles presented /\
          jwt.Permissions ca = ["read:self"] /\
          jwt.Permissions ca <> jwt.Permissions presented /\
          queries w' =
            [db.SELECT_USER_BY_ID "00000000-0000-0000-0000-000000000007";
             db.SELECT_USER_PERMISSIONS "00000000-0000-0000-0000-000000000007";
             db.SELECT_USER_ROLES "00000000-0000-0000-0000-000000000007"]
      | _ => False
      end
  | _ => False
  end.
Proof. vm_compute. repeat split; congruence. Qed.

(** When the user of the presented token is no longer in the store, no
    pair is issued at all. *)
Lemma refresh_unknown_user :
  let w := exampleWorld 0 [] None in
  let presented :=
    issuedClaims 7%N "alice@example.com" ["admin"] ["write:users"] "refresh"
      (time.Add 0 (time.dadd (TOKEN_EXPIRATION w) jwt.REFRESH_TOKEN_EXTRA_TIME))
      0 in
  (user.refreshToken
     (refreshBody (jwtlib.Compact jwtlib.HS256 "test-secret" presented)) w).1
    = gin.JSON_H http.StatusUnauthorized "user not found".
Proof. vm_compute. reflexivity. Qed.

(** A store that fails in part: the user row is read, the query for the
    permissions fails and the second role row does not scan. The pair is
    issued all the same, without permissions and without that role. *)
Example refresh_with_a_failing_store :
  let d := {| db.users := db.users exampleDatabase;
              db.user_roles :=
                [("00000000-0000-0000-0000-000000000007", "auditor");
                 ("00000000-0000-0000-0000-000000000007", "viewer")];
              db.user_permissions := db.user_permissions exampleDatabase |} in
  let w := withFaults [db.healthy; db.QueryFails "database is locked";
                       db.ScanFails [1%nat]]
             (withDatabase d (exampleWorld 0 [] None)) in
  let presented :=
    issuedClaims 7%N "alice@example.com" ["admin"] ["write:users"] "refresh"
      (time.Add 0 (time.dadd (TOKEN_EXPIRATION w) jwt.REFRESH_TOKEN_EXTRA_TIME))
      0 in
  match (user.refreshToken
           (refreshBody (jwtlib.Compact jwtlib.HS256 "test-secret" presented))
           w).1 with
  | gin.JSON 200 resp =>
      match user.LoginResponse.AccessToken resp with
      | jwtlib.Compact _ _ ca =>
          jwt.Roles ca = ["auditor"] /\ jwt.Permissions ca = []
      | _ => False
      end
  | _ => False
  end.
Proof. vm_compute. split; reflexivity. Qed.

(** ** The scenarios of the test suites, replayed *)

(** TestRevokeToken_MultipleRevocations of package auth: three pairs are
    issued for three users and the three access tokens revoked in turn.
    The test expects three blacklist entries; the first revocation
    blacklists the one JTI all three tokens share, the other two are
    answered [Token already revoked], and one entry is stored. *)
Example three_revocations_one_entry :
  let w0 := exampleWorld 0 [] (Some token.NewMemoryBlacklist) in
  match jwt.GenerateTokenPair 1%N "user1@example.com" ["admin"] ["read:users"] w0
  with
  | (inl token1, w1) =>
  match jwt.GenerateTokenPair 2%N "user2@example.com" ["user"] ["read:self"] w1
  with
  | (inl token2, w2) =>
  match jwt.GenerateTokenPair 3%N "user3@example.com" ["user"] ["read:self"] w2
  with
  | (inl token3, w3) =>
      let r1 := auth.RevokeToken (revokeBody (jwt.TokenPair.AccessToken token1)) w3 in
      let r2 := auth.RevokeToken (revokeBody (jwt.TokenPair.AccessToken token2)) r1.2 in
      let r3 := auth.RevokeToken (revokeBody (jwt.TokenPair.AccessToken token3)) r2.2 in
      r1.1 = gin.JSON 200 (auth.RevokeTokenResponse.mk true "Token revoked successfully") /\
      r2.1 = gin.JSON 200 (auth.RevokeTokenResponse.mk true "Token already revoked") /\
      r3.1 = gin.JSON 200 (auth.RevokeTokenResponse.mk true "Token already revoked") /\
      token.Size <$> GlobalBlacklist r3.2 = Some 1
  | _ => False end
  | _ => False end
  | _ => False end.
Proof. vm_compute. repeat split; reflexivity. Qed.

(** The sweep of memory_test.go: expiries two hours and one hour before
    now and one, two and three hours after it; two entries go, three
    stay. *)
Example Cleanup_five_entries :
  let t : time.Time := 10 * time.Hour in
  let b0 := token.NewMemoryBlacklist in
  let b1 := token.Add b0 "token-expired-1" (t - 2 * time.Hour) 0 in
  let b2 := token.Add b1 "token-expired-2" (t - 1 * time.Hour) 0 in
  let b3 := token.Add b2 "token-valid-1" (t + 1 * time.Hour) 0 in
  let b4 := token.Add b3 "token-valid-2" (t + 2 * time.Hour) 0 in
  let b5 := token.Add b4 "token-valid-3" (t + 3 * time.Hour) 0 in
  (token.Cleanup b5 t).2 = 2 /\ token.Size (token.Cleanup b5 t).1 = 3 /\
  token.IsBlacklisted (token.Cleanup b5 t).1 "token-expired-1" = false /\
  token.IsBlacklisted (token.Cleanup b5 t).1 "token-valid-1" = true.
Proof. vm_compute. repeat split; reflexivity. Qed.

(** The table of TestBuildScopeString. *)
Example buildScopeString_table :
  auth.buildScopeString ["admin"; "user"] ["read:users"; "write:users"]
    = "role:admin role:user read:users write:users" /\
  auth.buildScopeString ["admin"] [] = "role:admin" /\
  auth.buildScopeString [] ["read:users"] = "read:users" /\
  auth.buildScopeString [] [] = "".
Proof. repeat split; reflexivity. Qed.

(** The spellings [uuid.Parse] accepts, and the one [String] writes. *)
Example uuid_spellings :
  uuid.String 7%N = "00000000-0000-0000-0000-000000000007" /\
  uuid.Parse "00000000-0000-0000-0000-000000000007" = Some 7%N /\
  uuid.Parse "URN:UUID:00000000-0000-0000-0000-00000000000A" = Some 10%N /\
  uuid.Parse "{00000000-0000-0000-0000-0000000000ff}" = Some 255%N /\
  uuid.Parse "00000000000000000000000000000010" = Some 16%N /\
  uuid.Parse "not-a-uuid" = None.
Proof. vm_compute. repeat split; reflexivity. Qed.

(** The string encoder on the bytes it treats specially: backspace, a
    byte that is no UTF-8 encoding, U+2028, a two-byte character (copied),
    and the characters escaped for HTML. *)
Example json_literal_escapes :
  let byte (n : N) := String (ascii_of_N n) "" in
  json.literal
    (byte 8%N +:+ "a" +:+ byte 255%N +:+ byte 226%N +:+ byte 128%N +:+ byte 168%N
     +:+ byte 195%N +:+ byte 169%N +:+ "<b>" +:+ byte 226%N +:+ byte 128%N)
  = String json.quote "" +:+ String json.backslash "ba"
    +:+ String json.backslash "ufffd" +:+ String json.backslash "u2028"
    +:+ byte 195%N +:+ byte 169%N
    +:+ String json.backslash "u003cb" +:+ String json.backslash "u003e"
    +:+ String json.backslash "ufffd" +:+ String json.backslash "ufffd"
    +:+ String json.quote "".
Proof. vm_compute. reflexivity. Qed.

(** X26. A lifetime of up to 153722866 minutes (292 years) multiplies
    without overflow and leaves room for the grace interval: for such a
    configured value [getTokenExpiration] is that many minutes. *)
Lemma getTokenExpiration_fits (expStr : string) (minutes : Z) :
  strconv.Atoi expStr = Some minutes -> 0 < minutes <= 153722866 ->
  jwt.getTokenExpiration expStr = minutes * time.Minute /\
  time.MinInt64 <= jwt.getTokenExpiration expStr + jwt.REFRESH_TOKEN_EXTRA_TIME
    <= time.MaxInt64.
Proof.
  intros Hatoi Hm. unfold jwt.getTokenExpiration.
  destruct (String.eqb_spec expStr "") as [->|_]; [discriminate Hatoi|].
  simpl. rewrite Hatoi.
  destruct (Z.ltb_spec 0 minutes) as [_|?]; [|lia].
  unfold time.dmul. change time.Minute with 60000000000.
  change jwt.REFRESH_TOKEN_EXTRA_TIME with 60000000000.
  rewrite wrap64_id; unfold time.MinInt64, time.MaxInt64; lia.
Qed.

(* ================================================================== *)
(** * Further properties of the code *)
(* ================================================================== *)

(** ** The blacklist as a store *)

Lemma blacklist_eq (b1 b2 : token.MemoryBlacklist) :
  token.entries b1 = token.entries b2 -> b1 = b2.
Proof. destruct b1, b2. simpl. by intros ->. Qed.

(** X1. [Add] is an upsert: afterwards the JTI is blacklisted with the
    expiry and revocation instant just given, every other JTI is
    blacklisted exactly when it was before, and the size grows by one
    only when the JTI was not yet there. *)
Theorem Add_is_an_upsert :
  forall (b : token.MemoryBlacklist) (jti k : string)
         (expiresAt now : time.Time),
    token.IsBlacklisted (token.Add b jti expiresAt now) k =
      (if decide (jti = k) then true else token.IsBlacklisted b k) /\
    token.entries (token.Add b jti expiresAt now) !! jti =
      Some (token.mkBlacklistEntry jti expiresAt now) /\
    token.Size (token.Add b jti expiresAt now) =
      (if token.IsBlacklisted b jti then token.Size b else token.Size b + 1).
Proof.
  intros b jti k expiresAt now. unfold token.IsBlacklisted, token.Add, token.Size.
  simpl. split; [|split].
  - destruct (decide (jti = k)) as [->|Hne].
    + by rewrite lookup_insert_eq.
    + by rewrite lookup_insert_ne.
  - by rewrite lookup_insert_eq.
  - destruct (token.entries b !! jti) eqn:Hj.
    + by rewrite map_size_insert_Some.
    + rewrite map_size_insert_None by done. lia.
Qed.

(** X2. Two sweeps in a row amount to one sweep at the later of the two
    instants: the same entries survive, and the two counts add up to the
    count of the single sweep. In particular a second sweep at the same or
    an earlier instant removes nothing. *)
Theorem Cleanup_twice :
  forall (b : token.MemoryBlacklist) (now1 now2 : time.Time),
    (token.Cleanup (token.Cleanup b now1).1 now2).1 =
      (token.Cleanup b (Z.max now1 now2)).1 /\
    (token.Cleanup b now1).2 + (token.Cleanup (token.Cleanup b now1).1 now2).2 =
      (token.Cleanup b (Z.max now1 now2)).2.
Proof.
  intros b now1 now2.
  assert ((token.Cleanup (token.Cleanup b now1).1 now2).1 =
          (token.Cleanup b (Z.max now1 now2)).1) as Heq.
  { apply blacklist_eq, map_eq. intros k. rewrite !Cleanup_lookup.
    destruct (token.entries b !! k) as [e|]; [|done].
    unfold time.Before.
    destruct (Z.ltb_spec (token.ExpiresAt e) now1),
             (Z.ltb_spec (token.ExpiresAt e) (Z.max now1 now2)); try lia; try done.
    destruct (Z.ltb_spec (token.ExpiresAt e) now2); [done | lia].
    destruct (Z.ltb_spec (token.ExpiresAt e) now2); [lia | done]. }
  split; [exact Heq|]. rewrite !Cleanup_size, Heq. lia.
Qed.

(** X3. A sweep keeps a revocation whose expiry has not passed: adding an
    entry with expiry at or after [now] and then sweeping at [now] gives
    the blacklist that sweeping first and adding afterwards gives. *)
Theorem Cleanup_keeps_fresh_revocation :
  forall (b : token.MemoryBlacklist) (jti : string)
         (expiresAt revokedAt now : time.Time),
    now <= expiresAt ->
    (token.Cleanup (token.Add b jti expiresAt revokedAt) now).1 =
      token.Add (token.Cleanup b now).1 jti expiresAt revokedAt.
Proof.
  intros b jti expiresAt revokedAt now Hle.
  apply blacklist_eq, map_eq. intros k. rewrite Cleanup_lookup.
  unfold token.Add. cbn [token.entries].
  destruct (decide (jti = k)) as [->|Hne].
  - rewrite !lookup_insert_eq. cbn [token.ExpiresAt]. unfold time.Before.
    by destruct (Z.ltb_spec expiresAt now); [lia|].
  - rewrite !lookup_insert_ne by done. by rewrite Cleanup_lookup.
Qed.

Lemma Cleanup_keeps_fresh_revocation_witness :
  token.IsBlacklisted
    (token.Cleanup (token.Add token.NewMemoryBlacklist "jti-1" 2000 1000) 2000).1
    "jti-1" = true.
Proof.
  rewrite (Cleanup_keeps_fresh_revocation token.NewMemoryBlacklist "jti-1"
             2000 1000 2000); [reflexivity | lia].
Defined.

(** ** Roles and permissions of a user *)

Lemma contains_elem (names : list string) (name : string) :
  userModel.contains names name = true <-> name ∈ names.
Proof.
  induction names as [|r rest IH]; simpl.
  - split; [discriminate | by intros ?%elem_of_nil].
  - rewrite elem_of_cons. destruct (String.eqb_spec r name) as [->|Hne].
    + split; auto.
    + rewrite IH. split; [auto | intros [?|?]; congruence].
Qed.

Lemma contains_app (l k : list string) (name : string) :
  userModel.contains (l ++ k) name =
    userModel.contains l name || userModel.contains k name.
Proof.
  induction l as [|r rest IH]; simpl; [done|].
  by destruct (String.eqb r name).
Qed.

Lemma occurrences_cons (r : string) (rest : list string) (k : string) :
  occurrences (r :: rest) k =
    ((if decide (r = k) then 1 else 0) + occurrences rest k)%nat.
Proof.
  unfold occurrences. destruct (decide (r = k)) as [->|Hne].
  - by rewrite filter_cons_True.
  - by rewrite filter_cons_False.
Qed.

Lemma occurrences_absent (names : list string) (name : string) :
  userModel.contains names name = false -> occurrences names name = 0%nat.
Proof.
  induction names as [|r rest IH]; simpl; [done|].
  destruct (String.eqb_spec r name) as [->|Hne]; [done|].
  intros H. rewrite occurrences_cons, IH by done. by destruct (decide (r = name)).
Qed.

Lemma occurrences_NoDup (names : list string) (name : string) :
  NoDup names -> (occurrences names name <= 1)%nat.
Proof.
  induction 1 as [|r rest Hnotin _ IH]; [unfold occurrences; simpl; lia|].
  rewrite occurrences_cons. destruct (decide (r = name)) as [->|_]; [|lia].
  rewrite occurrences_absent; [lia|].
  destruct (userModel.contains rest name) eqn:Hc; [|done].
  by apply contains_elem in Hc.
Qed.

Lemma occurrences_present (names : list string) (name : string) :
  occurrences names name = 0%nat -> userModel.contains names name = false.
Proof.
  induction names as [|r rest IH]; simpl; [done|].
  rewrite occurrences_cons. destruct (String.eqb_spec r name) as [->|Hne].
  - destruct (decide (name = name)); [lia | done].
  - destruct (decide (r = name)); [done|]. simpl. apply IH.
Qed.

Lemma removeFirst_None (names : list string) (name : string) :
  userModel.contains names name = false -> userModel.removeFirst names name = None.
Proof.
  induction names as [|r rest IH]; simpl; [done|].
  destruct (String.eqb r name); [done|]. intros H. by rewrite IH.
Qed.

Lemma removeFirst_Some (names : list string) (name : string) :
  userModel.contains names name = true ->
  exists l, userModel.removeFirst names name = Some l /\
    forall k, occurrences names k =
                ((if decide (name = k) then 1 else 0) + occurrences l k)%nat.
Proof.
  induction names as [|r rest IH]; simpl; [done|].
  destruct (String.eqb_spec r name) as [->|Hne].
  - intros _. exists rest. split; [done|]. intros k. apply occurrences_cons.
  - intros (l & -> & Hl)%IH. exists (r :: l). split; [done|].
    intros k. rewrite !occurrences_cons, Hl. lia.
Qed.

(** X4. [AddRole] adds a role once. Afterwards the user has the role and
    has every other role exactly when it had it before. When the user had
    the role already, nothing changes: the user keeps its audit fields and
    the clock is not read. Otherwise the role goes to the end of the list
    and the audit fields take the current time and the updater. A list of
    roles without duplicates stays so, and the permissions are never
    touched. *)
Theorem AddRole_adds_once :
  forall (u : userService.User) (role updatedBy : string) (w : World),
    let r := userModel.AddRole u role updatedBy w in
    userModel.HasRole r.1 role = true /\
    (forall other, other <> role ->
       userModel.HasRole r.1 other = userModel.HasRole u other) /\
    (userModel.HasRole u role = true -> r = (u, w)) /\
    (userModel.HasRole u role = false ->
       userService.Roles r.1 = userService.Roles u ++ [role] /\
       userService.UpdatedAt r.1 = (time.tick (clock w)).1 /\
       userService.UpdatedBy r.1 = updatedBy) /\
    (NoDup (userService.Roles u) -> NoDup (userService.Roles r.1)) /\
    userService.Permissions r.1 = userService.Permissions u.
Proof.
  intros u role updatedBy w. unfold userModel.AddRole, userModel.HasRole.
  destruct (userModel.contains (userService.Roles u) role) eqn:Hc; simpl.
  - repeat split; try done.
  - unfold userModel.touch. run.
    destruct (time.tick (clock w)) as [now clk]. simpl.
    rewrite !contains_app. simpl. rewrite String.eqb_refl, orb_true_r.
    repeat split; try done.
    + intros other Hne. rewrite contains_app. simpl.
      destruct (String.eqb_spec role other); [congruence|]. by rewrite orb_false_r.
    + intros Hnd. apply NoDup_app. split; [done|]. split; [|apply NoDup_singleton].
      intros x Hx ->%list_elem_of_singleton.
      apply contains_elem in Hx. congruence.
Qed.

Lemma AddRole_adds_once_witness :
  let u := exampleUser ["viewer"] ["read:self"] in
  let w := exampleWorld 1000 [] None in
  userService.Roles (userModel.AddRole u "admin" "system" w).1
    = ["viewer"; "admin"] /\
  userModel.AddRole u "viewer" "system" w = (u, w).
Proof.
  intros u w.
  destruct (AddRole_adds_once u "admin" "system" w) as (_ & _ & _ & Hnew & _).
  destruct (AddRole_adds_once u "viewer" "system" w) as (_ & _ & Hold & _).
  split; [apply Hnew; reflexivity | apply Hold; reflexivity].
Defined.

(** The slice the remove loops build: the names before the first match,
    then the names after it. *)
Lemma removeFirst_split (names : list string) (name : string) :
  userModel.contains names name = true ->
  exists before after,
    names = before ++ name :: after /\ (name ∉ before) /\
    userModel.removeFirst names name = Some (before ++ after).
Proof.
  induction names as [|r rest IH]; simpl; [done|].
  destruct (String.eqb_spec r name) as [->|Hne].
  - intros _. exists [], rest. repeat split; [apply not_elem_of_nil].
  - intros (before & after & -> & Hnotin & ->)%IH.
    exists (r :: before), after. repeat split.
    apply not_elem_of_cons. split; [congruence | done].
Qed.

(** X5. [RemoveRole] removes the first occurrence of the role and nothing
    else. When the user has the role, the list of roles splits into the
    roles before its first occurrence, the role, and the roles after; what
    is left is the roles before followed by the roles after, in their
    order, and the audit fields take the current time and the updater.
    When the user does not have the role, nothing changes and the clock
    is not read. So the role occurs once less (or still not at all) and
    every other role as often as before; on a list without duplicates the
    user no longer has the role afterwards, with duplicates it still
    does. The permissions are never touched. *)
Theorem RemoveRole_removes_first_occurrence :
  forall (u : userService.User) (role updatedBy : string) (w : World),
    let r := userModel.RemoveRole u role updatedBy w in
    (userModel.HasRole u role = true ->
       exists before after,
         userService.Roles u = before ++ role :: after /\ (role ∉ before) /\
         userService.Roles r.1 = before ++ after /\
         userService.UpdatedAt r.1 = (time.tick (clock w)).1 /\
         userService.UpdatedBy r.1 = updatedBy) /\
    (userModel.HasRole u role = false -> r = (u, w)) /\
    occurrences (userService.Roles r.1) role =
      Nat.pred (occurrences (userService.Roles u) role) /\
    (forall other, other <> role ->
       occurrences (userService.Roles r.1) other =
         occurrences (userService.Roles u) other) /\
    (NoDup (userService.Roles u) -> userModel.HasRole r.1 role = false) /\
    ((2 <= occurrences (userService.Roles u) role)%nat ->
       userModel.HasRole r.1 role = true) /\
    userService.Permissions r.1 = userService.Permissions u.
Proof.
  intros u role updatedBy w. unfold userModel.RemoveRole, userModel.HasRole.
  destruct (userModel.contains (userService.Roles u) role) eqn:Hc.
  - destruct (removeFirst_Some _ _ Hc) as (l & Hrm & Hl).
    destruct (removeFirst_split _ _ Hc) as (before & after & Heq & Hnotin & Hrm').
    rewrite Hrm. rewrite Hrm in Hrm'. injection Hrm' as ->.
    unfold userModel.touch. run.
    destruct (time.tick (clock w)) as [now clk]. simpl.
    pose proof (Hl role) as Hrole. destruct (decide (role = role)); [|done].
    split; [intros _; by exists before, after|].
    repeat split; try done.
    + rewrite Hrole. simpl. lia.
    + intros other Hne. rewrite (Hl other).
      by destruct (decide (role = other)); [congruence|].
    + intros Hnd. apply occurrences_present.
      pose proof (occurrences_NoDup _ role Hnd). lia.
    + intros Htwo.
      destruct (userModel.contains (before ++ after) role) eqn:Hl'; [done|].
      apply occurrences_absent in Hl'. lia.
  - rewrite removeFirst_None by done. simpl.
    rewrite (occurrences_absent _ _ Hc). repeat split; try done.
    intros Htwo. lia.
Qed.

Lemma RemoveRole_removes_first_occurrence_witness :
  let w := exampleWorld 1000 [] None in
  userModel.HasRole
    (userModel.RemoveRole (exampleUser ["admin"; "viewer"] []) "admin" "system" w).1
    "admin" = false /\
  userModel.HasRole
    (userModel.RemoveRole (exampleUser ["admin"; "viewer"; "admin"] [])
       "admin" "system" w).1
    "admin" = true /\
  exists before after,
    ["viewer"; "admin"; "auditor"; "admin"] = before ++ "admin" :: after /\
    userService.Roles
      (userModel.RemoveRole
         (exampleUser ["viewer"; "admin"; "auditor"; "admin"] [])
         "admin" "system" w).1 = before ++ after.
Proof.
  intros w.
  destruct (RemoveRole_removes_first_occurrence
              (exampleUser ["admin"; "viewer"] []) "admin" "system" w)
    as (_ & _ & _ & _ & Hone & _).
  destruct (RemoveRole_removes_first_occurrence
              (exampleUser ["admin"; "viewer"; "admin"] []) "admin" "system" w)
    as (_ & _ & _ & _ & _ & Htwo & _).
  destruct (RemoveRole_removes_first_occurrence
              (exampleUser ["viewer"; "admin"; "auditor"; "admin"] [])
              "admin" "system" w)
    as (Hsplit & _).
  split; [|split].
  - apply Hone. apply (bool_decide_unpack _). vm_compute. exact I.
  - apply Htwo. vm_compute. lia.
  - destruct (Hsplit eq_refl) as (before & after & Heq & _ & Hroles & _).
    exists before, after. split; [exact Heq | exact Hroles].
Defined.

(** The role is taken from its first position, not its last. *)
Example RemoveRole_keeps_later_occurrences :
  userService.Roles
    (userModel.RemoveRole
       (exampleUser ["viewer"; "admin"; "auditor"; "admin"] [])
       "admin" "system" (exampleWorld 1000 [] None)).1
    = ["viewer"; "auditor"; "admin"].
Proof. reflexivity. Qed.

(** X6. Adding a role the user does not have and removing it again gives
    back the list of roles the user started with, whatever happened to the
    clock in between. *)
Theorem AddRole_RemoveRole_round_trip :
  forall (u : userService.User) (role by1 by2 : string) (w w' : World),
    userModel.HasRole u role = false ->
    userService.Roles
      (userModel.RemoveRole (userModel.AddRole u role by1 w).1 role by2 w').1
      = userService.Roles u.
Proof.
  intros u role by1 by2 w w' Hc. unfold userModel.HasRole in Hc.
  unfold userModel.AddRole. rewrite Hc. unfold userModel.touch. run.
  destruct (time.tick (clock w)) as [now clk]. simpl.
  unfold userModel.RemoveRole. simpl.
  assert (forall l, userModel.contains l role = false ->
            userModel.removeFirst (l ++ [role]) role = Some l) as Hrm.
  { induction l as [|r rest IH]; simpl.
    - by rewrite String.eqb_refl.
    - destruct (String.eqb r role); [done|]. intros H. by rewrite IH. }
  rewrite Hrm by done. unfold userModel.touch. run.
  by destruct (time.tick (clock w')).
Qed.

Lemma AddRole_RemoveRole_round_trip_witness :
  let u := exampleUser ["viewer"; "auditor"] [] in
  let w := exampleWorld 1000 [5%N] None in
  userService.Roles
    (userModel.RemoveRole (userModel.AddRole u "admin" "root" w).1
       "admin" "root" w).1
    = ["viewer"; "auditor"].
Proof.
  intros u w.
  apply (AddRole_RemoveRole_round_trip u "admin" "root" "root" w w).
  reflexivity.
Defined.

(** X7. The permission methods behave as the role methods do.
    [AddPermission] leaves the user with the permission: unchanged, clock
    included, when it had it already, and with the permission appended
    to the list otherwise. [RemovePermission] takes the first occurrence
    away and keeps every other permission in place: the list splits into
    the permissions before that occurrence, the permission, and those
    after, and what is left is the former followed by the latter; without
    the permission, user and clock are unchanged. So on a list without
    duplicates the permission is gone. Neither method touches the
    roles. *)
Theorem permission_methods :
  forall (u : userService.User) (permission updatedBy : string) (w : World),
    let a := userModel.AddPermission u permission updatedBy w in
    let r := userModel.RemovePermission u permission updatedBy w in
    userModel.HasPermission a.1 permission = true /\
    userService.Roles a.1 = userService.Roles u /\
    userService.Roles r.1 = userService.Roles u /\
    (userModel.HasPermission u permission = true ->
       a = (u, w) /\
       exists before after,
         userService.Permissions u = before ++ permission :: after /\
         (permission ∉ before) /\
         userService.Permissions r.1 = before ++ after /\
         userService.UpdatedAt r.1 = (time.tick (clock w)).1 /\
         userService.UpdatedBy r.1 = updatedBy) /\
    (userModel.HasPermission u permission = false ->
       r = (u, w) /\
       userService.Permissions a.1 = userService.Permissions u ++ [permission] /\
       userService.UpdatedAt a.1 = (time.tick (clock w)).1 /\
       userService.UpdatedBy a.1 = updatedBy) /\
    occurrences (userService.Permissions r.1) permission =
      Nat.pred (occurrences (userService.Permissions u) permission) /\
    (forall other, other <> permission ->
       occurrences (userService.Permissions r.1) other =
         occurrences (userService.Permissions u) other) /\
    (NoDup (userService.Permissions u) ->
       userModel.HasPermission r.1 permission = false).
Proof.
  intros u permission updatedBy w.
  unfold userModel.AddPermission, userModel.RemovePermission,
    userModel.HasPermission.
  destruct (userModel.contains (userService.Permissions u) permission) eqn:Hc.
  - destruct (removeFirst_Some _ _ Hc) as (l & Hrm & Hl).
    destruct (removeFirst_split _ _ Hc) as (before & after & Heq & Hnotin & Hrm').
    rewrite Hrm. rewrite Hrm in Hrm'. injection Hrm' as ->.
    unfold userModel.touch. run.
    destruct (time.tick (clock w)) as [now clk]. simpl.
    pose proof (Hl permission) as Hp.
    destruct (decide (permission = permission)); [|done].
    split; [done|]. split; [done|]. split; [done|].
    split; [intros _; split; [done | by exists before, after]|].
    split; [done|]. split; [rewrite Hp; simpl; lia|].
    split.
    + intros other Hne. rewrite (Hl other).
      by destruct (decide (permission = other)); [congruence|].
    + intros Hnd. apply occurrences_present.
      pose proof (occurrences_NoDup _ permission Hnd). lia.
  - rewrite removeFirst_None by done. unfold userModel.touch. run.
    destruct (time.tick (clock w)) as [now clk]. simpl.
    rewrite contains_app. simpl. rewrite String.eqb_refl, orb_true_r.
    rewrite (occurrences_absent _ _ Hc). repeat split; try done.
Qed.

Lemma permission_methods_witness :
  let u := exampleUser [] ["read:self"; "write:self"; "read:self"] in
  let w := exampleWorld 1000 [] None in
  userModel.AddPermission u "read:self" "system" w = (u, w) /\
  (exists before after,
     ["read:self"; "write:self"; "read:self"] = before ++ "read:self" :: after /\
     userService.Permissions
       (userModel.RemovePermission u "read:self" "system" w).1 = before ++ after) /\
  userModel.HasPermission
    (userModel.RemovePermission (exampleUser [] ["read:self"]) "read:self"
       "system" w).1 "read:self" = false.
Proof.
  intros u w.
  destruct (permission_methods u "read:self" "system" w)
    as (_ & _ & _ & Hhas & _).
  destruct (permission_methods (exampleUser [] ["read:self"]) "read:self"
              "system" w)
    as (_ & _ & _ & _ & _ & _ & _ & Hgone).
  destruct (Hhas eq_refl) as (Hsame & before & after & Heq & _ & Hperms & _).
  split; [exact Hsame|]. split.
  - exists before, after. split; [exact Heq | exact Hperms].
  - apply Hgone. apply (bool_decide_unpack _). vm_compute. exact I.
Defined.

(** The other permissions stay, in their order. *)
Example RemovePermission_keeps_the_others :
  userService.Permissions
    (userModel.RemovePermission
       (exampleUser [] ["read:self"; "write:self"; "read:self"])
       "read:self" "system" (exampleWorld 1000 [] None)).1
    = ["write:self"; "read:self"].
Proof. reflexivity. Qed.

(** ** The token codec *)

Lemma reading_0_le_2 (c : time.Clock) : (reading 0 c).1 <= (reading 2 c).1.
Proof.
  pose proof (reading_mono 0 c). pose proof (reading_mono 1 c). lia.
Qed.

Lemma TruncateSecond_bounds (t : time.Time) :
  time.TruncateSecond t mod time.Second = 0 /\
  t - time.Second < time.TruncateSecond t <= t.
Proof.
  unfold time.TruncateSecond. change time.Second with 1000000000.
  pose proof (Z.mod_pos_bound t 1000000000 ltac:(lia)) as Hb.
  split; [|lia].
  rewrite (Z.div_mod t 1000000000) at 1 by lia.
  replace (1000000000 * (t / 1000000000) + t mod 1000000000 - t mod 1000000000)
    with ((t / 1000000000) * 1000000000) by lia.
  apply Z_mod_mult.
Qed.

(** X8. Round trip of issuance and validation: the access token of a pair,
    presented to a process with the same secret before the instant of its
    exp claim, is accepted, and the claims recovered are the user id,
    subject, roles and permissions the pair was issued for, of kind
    access, issued by aegis. *)
Theorem issued_token_round_trip :
  forall (w w2 : World) (userId : uuid.UUID) (subject : string)
         (roles permissions : list string),
    JWT_SECRET w2 = JWT_SECRET w ->
    time.Before (time.tick (clock w2)).1
      (jwtlib.NewNumericDate
         (time.Add (reading 2 (clock w)).1 (TOKEN_EXPIRATION w))) = true ->
    exists p w' c w2',
      jwt.GenerateTokenPair userId subject roles permissions w = (inl p, w') /\
      jwt.ValidateToken (jwt.TokenPair.AccessToken p) w2 = (inl c, w2') /\
      jwt.UserId c = uuid.String userId /\ jwt.Subject c = subject /\
      jwt.Roles c = roles /\ jwt.Permissions c = permissions /\
      jwt.TokenType c = "access" /\ jwt.Issuer c = "aegis".
Proof.
  intros w w2 userId subject roles permissions Hsecret Hbefore.
  rewrite GenerateTokenPair_run. simpl. eexists _, _, _, _.
  split; [reflexivity|]. simpl. rewrite <- Hsecret.
  rewrite ValidateToken_signed by done. simpl.
  unfold jwtlib.Validate. simpl. simpl in Hbefore. rewrite Hbefore. simpl.
  repeat split; reflexivity.
Qed.

Lemma issued_token_round_trip_witness :
  let w := exampleWorld 0 [] None in
  exists p w' c w2',
    jwt.GenerateTokenPair 7%N "test@example.com" ["admin"; "user"]
      ["read"; "write"] w = (inl p, w') /\
    jwt.ValidateToken (jwt.TokenPair.AccessToken p) w = (inl c, w2') /\
    jwt.Roles c = ["admin"; "user"] /\ jwt.Permissions c = ["read"; "write"].
Proof.
  intros w.
  destruct (issued_token_round_trip w w 7%N "test@example.com"
              ["admin"; "user"] ["read"; "write"])
    as (p & w' & c & w2' & Hp & Hv & _ & _ & Hr & Hperm & _);
    [reflexivity | vm_compute; reflexivity |].
  exists p, w', c, w2'. repeat split; assumption.
Defined.

(** X9. The two kinds of token are kept apart. The access token of a pair
    is never accepted by [ValidateRefreshToken]: wherever [ValidateToken]
    accepts it, [ValidateRefreshToken] fails with [token is not a refresh
    token]. The refresh token of the pair is accepted by
    [ValidateRefreshToken] wherever [ValidateToken] accepts it. *)
Theorem access_and_refresh_are_kept_apart :
  forall (w : World) (userId : uuid.UUID) (subject : string)
         (roles permissions : list string),
    exists p w',
      jwt.GenerateTokenPair userId subject roles permissions w = (inl p, w') /\
      (forall w2 c w2',
         jwt.ValidateRefreshToken (jwt.TokenPair.AccessToken p) w2 <> (inl c, w2')) /\
      (forall w2 c w2',
         jwt.ValidateToken (jwt.TokenPair.AccessToken p) w2 = (inl c, w2') ->
         jwt.ValidateRefreshToken (jwt.TokenPair.AccessToken p) w2 =
           (inr (jwtlib.errorString "token is not a refresh token"), w2')) /\
      (forall w2 c w2',
         jwt.ValidateToken (jwt.TokenPair.RefreshToken p) w2 = (inl c, w2') ->
         jwt.ValidateRefreshToken (jwt.TokenPair.RefreshToken p) w2 = (inl c, w2') /\
         jwt.TokenType c = "refresh").
Proof.
  intros w userId subject roles permissions.
  rewrite GenerateTokenPair_run. simpl. eexists _, _. split; [reflexivity|].
  simpl. split; [|split].
  - intros w2 c w2' (Hv & Hty & _)%ValidateRefreshToken_accepts.
    apply ValidateToken_accepts in Hv as (m & _ & [= _ _ <-] & _).
    discriminate Hty.
  - intros w2 c w2' Hv. unfold jwt.ValidateRefreshToken, bind. rewrite Hv.
    apply ValidateToken_accepts in Hv as (m & _ & [= _ _ <-] & _). reflexivity.
  - intros w2 c w2' Hv. unfold jwt.ValidateRefreshToken, bind. rewrite Hv.
    apply ValidateToken_accepts in Hv as (m & _ & [= _ _ <-] & _).
    split; reflexivity.
Qed.

Lemma access_and_refresh_are_kept_apart_witness :
  let w := exampleWorld 0 [] None in
  match (jwt.GenerateTokenPair 7%N "test@example.com" [] [] w).1 with
  | inl p =>
      (jwt.ValidateRefreshToken (jwt.TokenPair.AccessToken p) w).1 =
        inr (jwtlib.errorString "token is not a refresh token")
  | inr _ => False
  end.
Proof.
  intros w.
  destruct (access_and_refresh_are_kept_apart w 7%N "test@example.com" [] [])
    as (p & w' & Hp & _ & Hacc & _).
  rewrite Hp. simpl.
  assert (p = (match (jwt.GenerateTokenPair 7%N "test@example.com" [] [] w).1 with
               | inl q => q | inr _ => p end)) as Hq by (by rewrite Hp).
  vm_compute in Hq. subst p.
  erewrite Hacc; [reflexivity | vm_compute; reflexivity].
Defined.

(** X10. [ValidateToken] accepts only what the service could have signed:
    an accepted token is a compact token of an HMAC method, signed with
    the secret, read before its exp instant (if it has one) and not before
    its nbf instant (if it has one); the claims returned are the claims of
    the token, and nothing but the clock has changed. Tokens of any other
    signing method are refused whatever their key and claims. *)
Theorem ValidateToken_accepts_only_own_tokens :
  forall (w w' : World) (t : jwt.TokenString) (c : jwt.TokenClaims),
    jwt.ValidateToken t w = (inl c, w') ->
    exists m,
      jwtlib.isHMAC m = true /\
      t = jwtlib.Compact m (JWT_SECRET w) c /\
      (forall exp, jwt.ExpiresAt c = Some exp -> (time.tick (clock w)).1 < exp) /\
      (forall nbf, jwtlib.NotBefore (jwt.RegisteredClaims c) = Some nbf ->
         nbf <= (time.tick (clock w)).1) /\
      w' = withClock (time.tick (clock w)).2 w.
Proof.
  intros w w' t c (m & Hm & -> & Hv & ->)%ValidateToken_accepts.
  exists m. repeat split; try done.
  - intros exp Hexp. unfold jwtlib.Validate in Hv. simpl in Hv.
    unfold jwt.ExpiresAt in Hexp. rewrite Hexp in Hv. unfold time.Before in Hv.
    destruct (Z.ltb_spec (time.tick (clock w)).1 exp); [done|].
    by destruct (jwtlib.NotBefore _) as [nbf|]; [destruct (_ <? nbf)|].
  - intros nbf Hnbf. unfold jwtlib.Validate in Hv. simpl in Hv.
    rewrite Hnbf in Hv. unfold time.Before in Hv.
    destruct (Z.ltb_spec (time.tick (clock w)).1 nbf); [|done].
    by destruct (jwtlib.ExpiresAt _) as [exp|]; [destruct (_ <? exp)|].
Qed.

Lemma ValidateToken_accepts_only_own_tokens_witness :
  let w := exampleWorld 0 [] None in
  let c := issuedClaims 7%N "test@example.com" [] [] "access" time.Hour 0 in
  exists m, jwtlib.isHMAC m = true /\
            jwtlib.Compact jwtlib.HS256 "test-secret" c
              = jwtlib.Compact m (JWT_SECRET w) c.
Proof.
  intros w c.
  destruct (ValidateToken_accepts_only_own_tokens w
              (jwt.ValidateToken (jwtlib.Compact jwtlib.HS256 "test-secret" c) w).2
              (jwtlib.Compact jwtlib.HS256 "test-secret" c) c)
    as (m & Hm & Heq & _); [vm_compute; reflexivity|].
  exists m. split; [exact Hm | exact Heq].
Defined.

(** X11. The expiry a pair advertises and the exp claim its access token
    carries come from different readings of the clock. The advertised
    expiry is the first reading plus the lifetime; the claim is the third
    reading plus the lifetime, rounded down to a whole second. So the
    claim is a whole number of seconds, later than the advertised expiry
    minus one second and at most the third reading plus the lifetime; the
    two are the same instant exactly when the advertised expiry is a
    whole second and the third reading comes less than a second after the
    first. The iat claim is a whole second at or before the fourth
    reading. *)
Theorem advertised_expiry_and_exp_claim :
  forall (w : World) (userId : uuid.UUID) (subject : string)
         (roles permissions : list string),
    exists p w' ca exp iat,
      jwt.GenerateTokenPair userId subject roles permissions w = (inl p, w') /\
      jwt.TokenPair.AccessToken p
        = jwtlib.Compact jwtlib.HS256 (JWT_SECRET w) ca /\
      jwt.ExpiresAt ca = Some exp /\ jwt.IssuedAt ca = Some iat /\
      jwt.TokenPair.ExpiresAt p = (reading 0 (clock w)).1 + TOKEN_EXPIRATION w /\
      exp = time.TruncateSecond
              ((reading 2 (clock w)).1 + TOKEN_EXPIRATION w) /\
      exp mod time.Second = 0 /\ iat mod time.Second = 0 /\
      jwt.TokenPair.ExpiresAt p - time.Second < exp /\
      exp <= (reading 2 (clock w)).1 + TOKEN_EXPIRATION w /\
      (exp = jwt.TokenPair.ExpiresAt p <->
       jwt.TokenPair.ExpiresAt p mod time.Second = 0 /\
       (reading 2 (clock w)).1 - (reading 0 (clock w)).1 < time.Second) /\
      iat <= (reading 3 (clock w)).1.
Proof.
  intros w userId subject roles permissions.
  rewrite GenerateTokenPair_run. simpl. eexists _, _, _, _, _.
  split; [reflexivity|]. simpl. split; [reflexivity|].
  split; [reflexivity|]. split; [reflexivity|].
  unfold jwtlib.NewNumericDate, time.Add.
  pose proof (reading_0_le_2 (clock w)) as Hmono. simpl in Hmono.
  destruct (TruncateSecond_bounds
              ((time.tick (time.tick (time.tick (clock w)).2).2).1
               + TOKEN_EXPIRATION w)) as [Hm1 Hb1].
  destruct (TruncateSecond_bounds
              (time.tick (time.tick (time.tick (time.tick (clock w)).2).2).2).1)
    as [Hm2 Hb2].
  split; [reflexivity|]. split; [reflexivity|].
  split; [exact Hm1|]. split; [exact Hm2|].
  split; [lia|]. split; [lia|]. split; [|lia].
  set (a := (time.tick (clock w)).1 + TOKEN_EXPIRATION w) in *.
  set (b := (time.tick (time.tick (time.tick (clock w)).2).2).1
            + TOKEN_EXPIRATION w) in *.
  assert (a <= b) as Hab by (subst a b; lia).
  unfold time.TruncateSecond in *. change time.Second with 1000000000 in *.
  pose proof (Z.mod_pos_bound b 1000000000 ltac:(lia)) as Hbound.
  split.
  - intros Heq. split; [by rewrite <- Heq|]. subst a b. lia.
  - intros [Hwhole Hnear].
    assert (b - a = b mod 1000000000) as Hd; [|lia].
    apply (Z.mod_unique_pos b 1000000000 (a / 1000000000)); [subst a b; lia|].
    pose proof (Z.div_mod a 1000000000 ltac:(lia)). lia.
Qed.

(** On a clock that stands at a whole second the two instants are the
    same. *)
Example exp_claim_equals_advertised_on_a_whole_second :
  match jwt.GenerateTokenPair 7%N "test@example.com" [] []
          (exampleWorld 0 [] None) with
  | (inl p, _) =>
      match jwt.TokenPair.AccessToken p with
      | jwtlib.Compact _ _ ca => jwt.ExpiresAt ca = Some (jwt.TokenPair.ExpiresAt p)
      | _ => False
      end
  | _ => False
  end.
Proof. vm_compute. reflexivity. Qed.

(** With the clock at half a second, the access token is refused as
    expired at an instant the pair still advertises as valid. *)
Example token_expires_before_advertised :
  let w := exampleWorld 500000000 [] None in
  match jwt.GenerateTokenPair 7%N "test@example.com" [] [] w with
  | (inl p, _) =>
      let w2 := exampleWorld (1440 * time.Minute + 200000000) [] None in
      time.Before (time.tick (clock w2)).1 (jwt.TokenPair.ExpiresAt p) = true /\
      (jwt.ValidateToken (jwt.TokenPair.AccessToken p) w2).1 =
        inr (jwtlib.ErrTokenInvalidClaims ["token is expired"])
  | _ => False
  end.
Proof. vm_compute. split; reflexivity. Qed.

(** X12. [getTokenExpiration] falls back to the default of 1440 minutes
    whenever the configured text is not a decimal integer, or is an
    integer that is zero or negative. *)
Theorem getTokenExpiration_falls_back :
  forall (expStr : string),
    (strconv.Atoi expStr = None \/
     exists minutes, strconv.Atoi expStr = Some minutes /\ minutes <= 0) ->
    jwt.getTokenExpiration expStr = 1440 * time.Minute.
Proof.
  intros expStr H. unfold jwt.getTokenExpiration.
  destruct (negb (String.eqb expStr "")); [|reflexivity].
  destruct H as [->|(minutes & -> & Hle)]; [reflexivity|].
  by destruct (Z.ltb_spec 0 minutes); [lia|].
Qed.

Lemma getTokenExpiration_falls_back_witness :
  jwt.getTokenExpiration "12 minutes" = 1440 * time.Minute /\
  jwt.getTokenExpiration "-10" = 1440 * time.Minute.
Proof.
  split; apply getTokenExpiration_falls_back.
  - left. reflexivity.
  - right. exists (-10). split; [reflexivity | lia].
Defined.

Lemma getTokenExpiration_fits_witness :
  jwt.getTokenExpiration "60" = 60 * time.Minute.
Proof.
  apply (getTokenExpiration_fits "60" 60); [reflexivity | lia].
Defined.

(** A lifetime too large for an int64 wraps around: the largest integer
    [Atoi] accepts gives a lifetime of minus one minute. *)
Example getTokenExpiration_overflow :
  jwt.getTokenExpiration "9223372036854775807" = - (1 * time.Minute).
Proof. vm_compute. reflexivity. Qed.

(** ** The handlers and the blacklist variable *)

Lemma ValidateToken_withBlacklist bl (t : jwt.TokenString) (w : World) :
  jwt.ValidateToken t (withBlacklist bl w) =
    ((jwt.ValidateToken t w).1, withBlacklist bl (jwt.ValidateToken t w).2).
Proof.
  unfold jwt.ValidateToken. run.
  destruct (jwtlib.ParseWithClaims (clock w) t (jwt.keyFunc (JWT_SECRET w)))
    as [[tok|err] clk]; simpl; [|done].
  by destruct (jwtlib.Valid tok).
Qed.

Lemma validate_outcome (w : World) (req : auth.ValidateTokenRequest) :
  (auth.ValidateToken (gin.Decoded req) w).1 =
    if jwtlib.isEmpty (auth.Token req) then
      (auth.ValidateToken (gin.Decoded req) w).1
    else
      match (jwt.ValidateToken (auth.Token req) w).1 with
      | inr err => rejected (auth.determineValidationError (jwtlib.Error err))
      | inl c =>
          if listed (GlobalBlacklist w) (jwt.ID c) then rejected "token revoked"
          else match jwt.ExpiresAt c with
               | None => gin.Panic
               | Some expiresAt =>
                   gin.JSON http.StatusOK
                     {| auth.ValidateTokenResponse.Valid := true;
                        auth.ValidateTokenResponse.User :=
                          Some {| auth.ID := jwt.UserId c;
                                  auth.Subject := jwt.Subject c;
                                  auth.Roles := jwt.Roles c;
                                  auth.Permissions := jwt.Permissions c |};
                        auth.ValidateTokenResponse.ExpiresAt := Some expiresAt;
                        auth.ValidateTokenResponse.Error := "" |}
               end
      end.
Proof.
  destruct req as [t]. simpl. destruct (jwtlib.isEmpty t) eqn:Ht; [done|].
  change (gin.Decoded {| auth.Token := t |}) with (validateBody t).
  destruct (jwt.ValidateToken t w) as [[c|err] w'] eqn:Hv.
  - by rewrite (validate_on_claims _ _ _ _ Hv).
  - by rewrite (validate_on_error _ _ _ _ Ht Hv).
Qed.

Lemma introspect_outcome (w : World) (t : jwt.TokenString) (hint : string) :
  jwtlib.isEmpty t = false ->
  (auth.IntrospectToken (introspectBody t hint) w).1 =
    match (jwt.ValidateToken t w).1 with
    | inr err => gin.JSON http.StatusOK auth.IntrospectTokenResponse.inactive
    | inl c =>
        if listed (GlobalBlacklist w) (jwt.ID c)
        then gin.JSON http.StatusOK auth.IntrospectTokenResponse.inactive
        else match jwt.ExpiresAt c, jwt.IssuedAt c with
             | Some exp, Some iat =>
                 gin.JSON http.StatusOK
                   {| auth.IntrospectTokenResponse.Active := true;
                      auth.IntrospectTokenResponse.Scope :=
                        auth.buildScopeString (jwt.Roles c) (jwt.Permissions c);
                      auth.IntrospectTokenResponse.ClientId := "aegis-default-client";
                      auth.IntrospectTokenResponse.Username := jwt.Subject c;
                      auth.IntrospectTokenResponse.TokenType := "Bearer";
                      auth.IntrospectTokenResponse.Exp := time.Unix exp;
                      auth.IntrospectTokenResponse.Iat := time.Unix iat;
                      auth.IntrospectTokenResponse.Sub := jwt.UserId c;
                      auth.IntrospectTokenResponse.Iss := jwt.Issuer c;
                      auth.IntrospectTokenResponse.Roles := jwt.Roles c;
                      auth.IntrospectTokenResponse.Permissions := jwt.Permissions c |}
             | _, _ => gin.Panic
             end
    end.
Proof.
  intros Ht. destruct (jwt.ValidateToken t w) as [[c|err] w'] eqn:Hv.
  - by rewrite (introspect_on_claims _ _ _ hint _ Hv).
  - by rewrite (introspect_on_error _ _ _ hint _ Ht Hv).
Qed.

(** X13. The validate and the introspect endpoint depend on the blacklist
    variable only through the question whether the JTI is listed: two
    values of the variable that list the same JTIs give the same
    responses. A blacklist fresh from [main]'s start-up lists nothing and
    so answers as a nil blacklist does. *)
Theorem validation_depends_on_listing_only :
  forall (w : World) (bl1 bl2 : option token.MemoryBlacklist),
    (forall jti, listed bl1 jti = listed bl2 jti) ->
    (forall body,
       (auth.ValidateToken body (withBlacklist bl1 w)).1 =
       (auth.ValidateToken body (withBlacklist bl2 w)).1) /\
    (forall t hint, jwtlib.isEmpty t = false ->
       (auth.IntrospectToken (introspectBody t hint) (withBlacklist bl1 w)).1 =
       (auth.IntrospectToken (introspectBody t hint) (withBlacklist bl2 w)).1).
Proof.
  intros w bl1 bl2 Hsame. split.
  - intros [err|req]; [reflexivity|].
    rewrite (validate_outcome (withBlacklist bl1 w)),
            (validate_outcome (withBlacklist bl2 w)).
    destruct (jwtlib.isEmpty (auth.Token req)) eqn:Ht.
    + unfold auth.ValidateToken, gin.ShouldBindJSON, auth.missingToken.
      by rewrite Ht.
    + rewrite !ValidateToken_withBlacklist. simpl.
      destruct (jwt.ValidateToken (auth.Token req) w).1 as [c|err]; [|done].
      by rewrite Hsame.
  - intros t hint Ht. rewrite !introspect_outcome by done.
    rewrite !ValidateToken_withBlacklist. simpl.
    destruct (jwt.ValidateToken t w).1 as [c|err]; [|done].
    by rewrite Hsame.
Qed.

Lemma validation_depends_on_listing_only_witness :
  let body :=
    validateBody
      (jwtlib.Compact jwtlib.HS256 "test-secret"
         (issuedClaims 7%N "test@example.com" [] [] "access" time.Hour 0)) in
  (auth.ValidateToken body (main.startup (exampleWorld 0 [] None)).2).1 =
  (auth.ValidateToken body (exampleWorld 0 [] None)).1.
Proof.
  intros body.
  destruct (validation_depends_on_listing_only (exampleWorld 0 [] None)
              (Some token.NewMemoryBlacklist) None) as [Hv _].
  - intros jti. reflexivity.
  - apply Hv.
Defined.

(** X14. Introspection and validation apply the same check. Whenever the
    introspect endpoint reports a token active, the validate endpoint
    reports it valid, with the same subject, user id, roles and
    permissions; whenever the validate endpoint reports a token invalid,
    the introspect endpoint reports it inactive. *)
Theorem introspect_agrees_with_validate :
  forall (w : World) (t : jwt.TokenString) (hint : string),
    jwtlib.isEmpty t = false ->
    (forall code ri,
       (auth.IntrospectToken (introspectBody t hint) w).1 = gin.JSON code ri ->
       auth.IntrospectTokenResponse.Active ri = true ->
       exists rv u,
         (auth.ValidateToken (validateBody t) w).1 = gin.JSON http.StatusOK rv /\
         auth.ValidateTokenResponse.Valid rv = true /\
         auth.ValidateTokenResponse.User rv = Some u /\
         auth.Subject u = auth.IntrospectTokenResponse.Username ri /\
         auth.ID u = auth.IntrospectTokenResponse.Sub ri /\
         auth.Roles u = auth.IntrospectTokenResponse.Roles ri /\
         auth.Permissions u = auth.IntrospectTokenResponse.Permissions ri) /\
    (forall code rv,
       (auth.ValidateToken (validateBody t) w).1 = gin.JSON code rv ->
       auth.ValidateTokenResponse.Valid rv = false ->
       (auth.IntrospectToken (introspectBody t hint) w).1 =
         gin.JSON http.StatusOK auth.IntrospectTokenResponse.inactive).
Proof.
  intros w t hint Ht. rewrite introspect_outcome by done.
  unfold validateBody. rewrite validate_outcome. simpl. rewrite Ht.
  destruct (jwt.ValidateToken t w).1 as [c|err].
  - destruct (listed (GlobalBlacklist w) (jwt.ID c)).
    + split; [intros code ri [= _ <-]; discriminate | done].
    + destruct (jwt.ExpiresAt c) as [exp|], (jwt.IssuedAt c) as [iat|];
        (split; [|intros code rv [= _ <-]; discriminate || done]);
        try done.
      intros code ri [= _ <-] _. eexists _, _. repeat split; reflexivity.
  - split; [intros code ri [= _ <-]; discriminate | done].
Qed.

Lemma introspect_agrees_with_validate_witness :
  let w := exampleWorld 0 [] None in
  (auth.IntrospectToken (introspectBody (notThreeSegments "a.b") "") w).1 =
    gin.JSON http.StatusOK auth.IntrospectTokenResponse.inactive.
Proof.
  intros w.
  destruct (introspect_agrees_with_validate w (notThreeSegments "a.b") "")
    as [_ Hinv]; [reflexivity|].
  eapply Hinv; vm_compute; reflexivity.
Defined.

(** X15. The validate and the introspect endpoint only read: whatever the
    request, they leave the blacklist variable, the database, the log of
    queries and the signing configuration as they were, and the clock
    never goes back. *)
Theorem validate_and_introspect_only_read :
  forall (w : World) (bodyV : gin.Body auth.ValidateTokenRequest)
         (bodyI : gin.Body auth.IntrospectTokenRequest),
    let wv := (auth.ValidateToken bodyV w).2 in
    let wi := (auth.IntrospectToken bodyI w).2 in
    (GlobalBlacklist wv = GlobalBlacklist w /\ database wv = database w /\
     queries wv = queries w /\ JWT_SECRET wv = JWT_SECRET w /\
     time.current (clock w) <= time.current (clock wv)) /\
    (GlobalBlacklist wi = GlobalBlacklist w /\ database wi = database w /\
     queries wi = queries w /\ JWT_SECRET wi = JWT_SECRET w /\
     time.current (clock w) <= time.current (clock wi)).
Proof.
  intros w bodyV bodyI.
  assert (forall t r w', jwt.ValidateToken t w = (r, w') ->
            GlobalBlacklist w' = GlobalBlacklist w /\ database w' = database w /\
            queries w' = queries w /\ JWT_SECRET w' = JWT_SECRET w /\
            time.current (clock w) <= time.current (clock w')) as Hframe.
  { intros t r w' Hv. destruct r as [c|err].
    - apply ValidateToken_accepts in Hv as (m & _ & _ & _ & ->). simpl.
      rewrite tick_current. repeat split; try done. apply tick_le.
    - destruct t as [raw e|m key c].
      + rewrite ValidateToken_unparsable in Hv. injection Hv as _ <-.
        repeat split; try done; lia.
      + destruct (jwtlib.isHMAC m) eqn:Hm.
        * destruct (String.eqb_spec key (JWT_SECRET w)) as [->|Hk].
          -- rewrite ValidateToken_signed in Hv by done. injection Hv as _ <-.
             simpl. rewrite tick_current. repeat split; try done. apply tick_le.
          -- rewrite ValidateToken_wrong_key in Hv by done. injection Hv as _ <-.
             repeat split; try done; lia.
        * rewrite ValidateToken_wrong_method in Hv by done. injection Hv as _ <-.
          repeat split; try done; lia. }
  split.
  - destruct bodyV as [err|[t]]; simpl; [repeat split; try done; lia|].
    destruct (jwtlib.isEmpty t) eqn:Ht.
    + unfold auth.ValidateToken, gin.ShouldBindJSON, auth.missingToken.
      simpl. rewrite Ht. simpl. repeat split; try done; lia.
    + change (gin.Decoded {| auth.Token := t |}) with (validateBody t).
      destruct (jwt.ValidateToken t w) as [[c|err] w'] eqn:Hv.
      * rewrite (validate_on_claims _ _ _ _ Hv). by eapply Hframe.
      * rewrite (validate_on_error _ _ _ _ Ht Hv). by eapply Hframe.
  - destruct bodyI as [err|[t hint]]; simpl; [repeat split; try done; lia|].
    destruct (jwtlib.isEmpty t) eqn:Ht.
    + unfold auth.IntrospectToken, gin.ShouldBindJSON, auth.missingToken.
      simpl. rewrite Ht. simpl. repeat split; try done; lia.
    + change (gin.Decoded _) with (introspectBody t hint).
      destruct (jwt.ValidateToken t w) as [[c|err] w'] eqn:Hv.
      * rewrite (introspect_on_claims _ _ _ hint _ Hv). by eapply Hframe.
      * rewrite (introspect_on_error _ _ _ hint _ Ht Hv). by eapply Hframe.
Qed.

(** ** Revocation *)

Lemma FromUnix_Unix (t : time.Time) :
  t mod time.Second = 0 -> time.FromUnix (time.Unix t) = t.
Proof.
  unfold time.FromUnix, time.Unix. change time.Second with 1000000000.
  intros H. pose proof (Z.div_mod t 1000000000 ltac:(lia)). lia.
Qed.

Lemma issued_exp_whole (secret : string) (t : jwt.TokenString) :
  issued secret t ->
  exists c exp,
    t = jwtlib.Compact jwtlib.HS256 secret c /\ jwt.ID c = "" /\
    jwt.ExpiresAt c = Some exp /\ exp mod time.Second = 0.
Proof.
  intros (w & w' & userId & subject & roles & permissions & p & <- & Hrun & Hin).
  rewrite GenerateTokenPair_run in Hrun. simpl in Hrun.
  injection Hrun as <- _. simpl in Hin.
  destruct Hin as [<-|[<-|[]]]; eexists _, _;
    (split; [reflexivity|]); (split; [reflexivity|]);
    (split; [reflexivity|]); apply TruncateSecond_bounds.
Qed.

(** A first revocation, forwards: what the handler does with an accepted
    token whose JTI is not yet listed. *)
Lemma revoke_fresh (w w0 : World) (b : token.MemoryBlacklist)
    (t : jwt.TokenString) (c : jwt.TokenClaims) (exp : time.Time) :
  GlobalBlacklist w = Some b ->
  token.IsBlacklisted b (jwt.ID c) = false ->
  jwt.ValidateToken t w = (inl c, w0) ->
  jwt.ExpiresAt c = Some exp ->
  auth.RevokeToken (revokeBody t) w =
    (revokedNow,
     withBlacklist
       (Some (token.Add b (jwt.ID c) (time.FromUnix (time.Unix exp))
                (reading 1 (clock w)).1))
       (withClock (reading 1 (clock w)).2 w)).
Proof.
  intros Hb Hnot Hv Hexp. rewrite (revoke_on_claims _ _ _ _ _ Hb Hv), Hnot, Hexp.
  apply ValidateToken_accepts in Hv as (m & _ & _ & _ & ->). reflexivity.
Qed.

(** X16. Revocation is idempotent. Once the revoke endpoint has answered
    200 for a token, a further revocation of the same token, for as long
    as the token is still accepted and the blacklist holds what it held,
    is answered 200 with [Token already revoked] and leaves the blacklist
    as it is. *)
Theorem revoke_is_idempotent :
  forall (w w1 w2 w2' : World) (t : jwt.TokenString)
         (resp : auth.RevokeTokenResponse.t) (c : jwt.TokenClaims),
    auth.RevokeToken (revokeBody t) w = (gin.JSON http.StatusOK resp, w1) ->
    GlobalBlacklist w2 = GlobalBlacklist w1 ->
    jwt.ValidateToken t w2 = (inl c, w2') ->
    auth.RevokeToken (revokeBody t) w2 =
      (gin.JSON http.StatusOK
         (auth.RevokeTokenResponse.mk true "Token already revoked"), w2') /\
    GlobalBlacklist w2' = GlobalBlacklist w1.
Proof.
  intros w w1 w2 w2' t resp c Hrev Hbl Hv.
  pose proof (accepted_nonempty _ _ _ _ Hv) as Ht.
  destruct (revoke_ok_blacklists _ _ _ _ Ht Hrev)
    as (c0 & w0 & b1 & Hv0 & Hb1 & Hin).
  assert (c0 = c) as ->.
  { apply ValidateToken_accepts in Hv0 as (m0 & _ & -> & _).
    by apply ValidateToken_accepts in Hv as (m & _ & [= _ _ ->] & _). }
  rewrite Hb1 in Hbl. rewrite (revoke_on_claims _ _ _ _ _ Hbl Hv), Hin.
  split; [reflexivity|].
  destruct (ValidateToken_frame _ _ _ _ Hv) as [clk ->]. simpl. congruence.
Qed.

Lemma revoke_is_idempotent_witness :
  let w := exampleWorld 0 [] (Some token.NewMemoryBlacklist) in
  let t : jwt.TokenString :=
    jwtlib.Compact jwtlib.HS256 "test-secret"
      (issuedClaims 1%N "user1@example.com" ["admin"] ["read:users"] "access"
         (time.Add 0 (TOKEN_EXPIRATION w)) 0) in
  let w1 := (auth.RevokeToken (revokeBody t) w).2 in
  (auth.RevokeToken (revokeBody t) w1).1 =
    gin.JSON http.StatusOK
      (auth.RevokeTokenResponse.mk true "Token already revoked").
Proof.
  intros w t w1.
  destruct (revoke_is_idempotent w w1 w1 (jwt.ValidateToken t w1).2 t
              (auth.RevokeTokenResponse.mk true "Token revoked successfully")
              (issuedClaims 1%N "user1@example.com" ["admin"] ["read:users"]
                 "access" (time.Add 0 (TOKEN_EXPIRATION w)) 0))
    as [Hagain _].
  - vm_compute. reflexivity.
  - reflexivity.
  - vm_compute. reflexivity.
  - rewrite Hagain. reflexivity.
Defined.

(** X17. The revoke endpoint stores nothing for a token it cannot
    validate. With the blacklist initialized, every non-empty token that
    [jwt.ValidateToken] rejects (malformed, forged, wrong method, expired)
    is answered 400 with the one body [Invalid token], whatever the
    reason, and the blacklist is unchanged. *)
Theorem revoke_rejects_invalid_tokens :
  forall (w w' : World) (b : token.MemoryBlacklist) (t : jwt.TokenString)
         (err : jwtlib.error),
    jwtlib.isEmpty t = false ->
    GlobalBlacklist w = Some b ->
    jwt.ValidateToken t w = (inr err, w') ->
    auth.RevokeToken (revokeBody t) w =
      (gin.JSON_H http.StatusBadRequest "Invalid token", w') /\
    GlobalBlacklist w' = Some b.
Proof.
  intros w w' b t err Ht Hb Hv.
  rewrite (revoke_on_error _ _ _ _ _ Ht Hb Hv). split; [reflexivity|].
  destruct (ValidateToken_frame _ _ _ _ Hv) as [clk ->]. exact Hb.
Qed.

Lemma revoke_rejects_invalid_tokens_witness :
  let w := exampleWorld (2 * 1440 * time.Minute) []
             (Some token.NewMemoryBlacklist) in
  let t : jwt.TokenString :=
    jwtlib.Compact jwtlib.HS256 "test-secret"
      (issuedClaims 1%N "user1@example.com" [] [] "access"
         (1440 * time.Minute) 0) in
  (auth.RevokeToken (revokeBody t) w).1
    = gin.JSON_H http.StatusBadRequest "Invalid token".
Proof.
  intros w t.
  destruct (revoke_rejects_invalid_tokens w (jwt.ValidateToken t w).2
              token.NewMemoryBlacklist t
              (jwtlib.ErrTokenInvalidClaims ["token is expired"]))
    as [Hr _]; [reflexivity | reflexivity | vm_compute; reflexivity |].
  rewrite Hr. reflexivity.
Defined.

(** X18. A first revocation records the token's own expiry. When a token of
    [GenerateTokenPair] is accepted and its JTI is not yet listed, the
    revoke endpoint answers 200 with [Token revoked successfully] and
    stores one entry under the JTI: its expiry is the instant of the
    token's exp claim, its revocation time the clock reading taken by
    [Add]; the blacklist grows by one and no other entry changes. *)
Theorem revoke_records_natural_expiry :
  forall (w w0 : World) (b : token.MemoryBlacklist) (t : jwt.TokenString)
         (c : jwt.TokenClaims),
    issued (JWT_SECRET w) t ->
    GlobalBlacklist w = Some b ->
    token.IsBlacklisted b "" = false ->
    jwt.ValidateToken t w = (inl c, w0) ->
    exists exp b1,
      jwt.ExpiresAt c = Some exp /\
      (auth.RevokeToken (revokeBody t) w).1 = revokedNow /\
      GlobalBlacklist (auth.RevokeToken (revokeBody t) w).2 = Some b1 /\
      token.entries b1 !! jwt.ID c =
        Some (token.mkBlacklistEntry (jwt.ID c) exp (reading 1 (clock w)).1) /\
      token.Size b1 = token.Size b + 1 /\
      (forall k, k <> jwt.ID c -> token.entries b1 !! k = token.entries b !! k).
Proof.
  intros w w0 b t c Hissued Hb Hnot Hv.
  destruct (issued_exp_whole _ _ Hissued) as (c' & exp & -> & Hid & Hexp & Hwhole).
  assert (c' = c) as ->
    by (by apply ValidateToken_accepts in Hv as (m & _ & [= _ ->] & _)).
  rewrite <- Hid in Hnot.
  rewrite (revoke_fresh _ _ _ _ _ _ Hb Hnot Hv Hexp), (FromUnix_Unix _ Hwhole).
  eexists exp, _. split; [done|]. split; [reflexivity|]. split; [reflexivity|].
  unfold token.Add, token.Size. cbn [token.entries].
  unfold token.IsBlacklisted in Hnot.
  destruct (token.entries b !! jwt.ID c) eqn:Hlook; [done|].
  split; [by rewrite lookup_insert_eq|].
  split; [rewrite map_size_insert_None by done; lia|].
  intros k Hk. by rewrite lookup_insert_ne.
Qed.

Lemma revoke_records_natural_expiry_witness :
  let w := exampleWorld 0 [] (Some token.NewMemoryBlacklist) in
  let t : jwt.TokenString :=
    jwtlib.Compact jwtlib.HS256 "test-secret"
      (issuedClaims 1%N "user1@example.com" ["admin"] ["read:users"] "access"
         (time.Add 0 (TOKEN_EXPIRATION w)) 0) in
  (auth.RevokeToken (revokeBody t) w).1 = revokedNow.
Proof.
  intros w t.
  destruct (revoke_records_natural_expiry w (jwt.ValidateToken t w).2
              token.NewMemoryBlacklist t
              (issuedClaims 1%N "user1@example.com" ["admin"] ["read:users"]
                 "access" (time.Add 0 (TOKEN_EXPIRATION w)) 0))
    as (exp & b1 & _ & Hr & _).
  - exists w, (jwt.GenerateTokenPair 1%N "user1@example.com" ["admin"]
                 ["read:users"] w).2,
      1%N, "user1@example.com", ["admin"], ["read:users"].
    eexists. split; [reflexivity|]. split; [vm_compute; reflexivity|].
    left. reflexivity.
  - reflexivity.
  - reflexivity.
  - vm_compute. reflexivity.
  - exact Hr.
Defined.

(** ** The cleanup job *)









(** The job at work: a token is revoked, 25 hours pass, the first round
    removes the entry of the expired token and logs size 0; the token is
    then reported expired. *)
Example cleanup_job_removes_expired_revocation :
  let w := exampleWorld 0 [0; 0; 90000000000000]%N
             (Some token.NewMemoryBlacklist) in
  let t : jwt.TokenString :=
    jwtlib.Compact jwtlib.HS256 "test-secret"
      (issuedClaims 1%N "user1@example.com" ["admin"] ["read:users"] "access"
         (time.Add 0 (TOKEN_EXPIRATION w)) 0) in
  let w1 := (auth.RevokeToken (revokeBody t) w).2 in
  token.Size <$> GlobalBlacklist w1 = Some 1 /\
  (main.cleanupJob w1).1 = 0 /\
  (auth.ValidateToken (validateBody t) (main.cleanupJob w1).2).1
    = rejected "token expired".
Proof. vm_compute. repeat split; reflexivity. Qed.

(** ** More on refreshing *)

Lemma ValidateRefreshToken_withBlacklist bl (t : jwt.TokenString) (w : World) :
  jwt.ValidateRefreshToken t (withBlacklist bl w) =
    ((jwt.ValidateRefreshToken t w).1,
     withBlacklist bl (jwt.ValidateRefreshToken t w).2).
Proof.
  unfold jwt.ValidateRefreshToken, bind. rewrite ValidateToken_withBlacklist.
  destruct (jwt.ValidateToken t w) as [[c|err] w']; simpl; [|done].
  by destruct (String.eqb (jwt.TokenType c) "refresh").
Qed.

Lemma GetUserById_withBlacklist bl (userId : uuid.UUID) (w : World) :
  userService.GetUserById userId (withBlacklist bl w) =
    ((userService.GetUserById userId w).1,
     withBlacklist bl (userService.GetUserById userId w).2).
Proof.
  unfold userService.GetUserById, bind, RunQueryWithArgs.
  cbn [withBlacklist faults database].
  destruct (db.answer _ _) as [[|[row|] rest]|err]; try reflexivity.
  destruct (uuid.Parse (db.id row)) as [id|]; [|reflexivity].
  rewrite !LoadUserPermissions_run. rewrite !LoadUserRoles_run. reflexivity.
Qed.

(** X20. The refresh endpoint never consults the blacklist: its response
    is the same whatever the blacklist variable holds, so a refresh token
    that has been revoked still buys a new pair. *)
Theorem refresh_ignores_the_blacklist :
  forall (w : World) (bl : option token.MemoryBlacklist)
         (body : gin.Body user.RefreshTokenRequest),
    (user.refreshToken body (withBlacklist bl w)).1 = (user.refreshToken body w).1.
Proof.
  intros w bl body. unfold user.refreshToken.
  destruct (gin.ShouldBindJSON _ _ body) as [req|err]; [|done].
  unfold bind. rewrite ValidateRefreshToken_withBlacklist.
  destruct (jwt.ValidateRefreshToken (user.RefreshToken req) w) as [[c|err] w1];
    simpl; [|done].
  destruct (uuid.Parse (jwt.UserId c)) as [userId|]; [|done].
  rewrite GetUserById_withBlacklist.
  destruct (userService.GetUserById userId w1) as [[u|] w2]; simpl; [|done].
  by rewrite !GenerateTokenPair_run.
Qed.

(** A revoked refresh token at the refresh endpoint: the validate endpoint
    reports it revoked, the refresh endpoint answers 200. *)
Example revoked_refresh_token_still_refreshes :
  let w := withDatabase exampleDatabase
             (exampleWorld 0 [] (Some token.NewMemoryBlacklist)) in
  let t : jwt.TokenString :=
    jwtlib.Compact jwtlib.HS256 "test-secret"
      (issuedClaims 7%N "alice@example.com" ["viewer"] ["read:self"] "refresh"
         (time.Add 0 (time.dadd (TOKEN_EXPIRATION w) jwt.REFRESH_TOKEN_EXTRA_TIME))
         0) in
  let w1 := (auth.RevokeToken (revokeBody t) w).2 in
  (auth.ValidateToken (validateBody t) w1).1 = rejected "token revoked" /\
  gin.status (user.refreshToken (refreshBody t) w1).1 = http.StatusOK.
Proof. vm_compute. split; reflexivity. Qed.

(** X21. The refresh endpoint issues a pair only for a known user and
    never fails internally. A 200 answer means that the body carried a
    token which [ValidateRefreshToken] accepted, of kind refresh, whose
    user id parses and selects at least one row of the users table; and
    no request is answered 500, since signing with the HMAC secret cannot
    fail. *)
Theorem refresh_issues_only_for_known_users :
  forall (w : World) (body : gin.Body user.RefreshTokenRequest),
    gin.status (user.refreshToken body w).1 <> http.StatusInternalServerError /\
    (forall resp w',
       user.refreshToken body w = (gin.JSON http.StatusOK resp, w') ->
       exists t c w1 userId row rest,
         body = refreshBody t /\
         jwt.ValidateRefreshToken t w = (inl c, w1) /\
         jwt.TokenType c = "refresh" /\
         uuid.Parse (jwt.UserId c) = Some userId /\
         db.selectUserById (database w) (uuid.String userId) = row :: rest).
Proof.
  intros w body. unfold user.refreshToken.
  destruct body as [err|[t]]; simpl; [split; [done | by intros ? ? [=]]|].
  unfold user.missingRefreshToken. simpl.
  destruct (jwtlib.isEmpty t); simpl; [split; [done | by intros ? ? [=]]|].
  unfold bind.
  destruct (jwt.ValidateRefreshToken t w) as [[c|err] w1] eqn:Hv; simpl;
    [|split; [done | by intros ? ? [=]]].
  destruct (uuid.Parse (jwt.UserId c)) as [userId|] eqn:Hid; simpl;
    [|split; [done | by intros ? ? [=]]].
  destruct (userService.GetUserById userId w1) as [[u|] w2] eqn:Hget; simpl;
    [|split; [done | by intros ? ? [=]]].
  rewrite GenerateTokenPair_run. simpl. split; [done|].
  intros resp w' _.
  destruct (ValidateRefreshToken_accepts _ _ _ _ Hv) as (_ & Hty & _ & clk & ->).
  exists t, c, (withClock clk w), userId.
  destruct (db.selectUserById (database w) (uuid.String userId))
    as [|row rest] eqn:Hrow.
  - rewrite GetUserById_unknown in Hget; [discriminate Hget|].
    cbn [database withClock]. rewrite Hrow. unfold readable.
    by destruct (upcoming _ 0).
  - exists row, rest. repeat split; done.
Qed.

Lemma refresh_issues_only_for_known_users_witness :
  let w := withDatabase exampleDatabase (exampleWorld 0 [] None) in
  let t : jwt.TokenString :=
    jwtlib.Compact jwtlib.HS256 "test-secret"
      (issuedClaims 7%N "alice@example.com" ["admin"] ["write:users"] "refresh"
         (time.Add 0 (time.dadd (TOKEN_EXPIRATION w) jwt.REFRESH_TOKEN_EXTRA_TIME))
         0) in
  exists c userId row rest,
    jwt.TokenType c = "refresh" /\
    uuid.Parse (jwt.UserId c) = Some userId /\
    db.selectUserById (database w) (uuid.String userId) = row :: rest.
Proof.
  intros w t.
  destruct (refresh_issues_only_for_known_users w (refreshBody t)) as [_ Hok].
  destruct (user.refreshToken (refreshBody t) w) as [o w'] eqn:Hrun.
  assert (exists resp, o = gin.JSON http.StatusOK resp) as [resp ->].
  { assert (o = (user.refreshToken (refreshBody t) w).1) as -> by (by rewrite Hrun).
    vm_compute. eexists. reflexivity. }
  destruct (Hok resp w' eq_refl)
    as (t' & c & w1 & userId & row & rest & _ & _ & Hty & Hid & Hrow).
  exists c, userId, row, rest. repeat split; assumption.
Defined.

(** X22. Introspection of a fresh token. The access token of a pair,
    introspected before the instant of its exp claim in a process with the
    same secret where the empty JTI is not listed, is reported active with
    the subject as username, the user id as sub, issuer aegis, token type
    Bearer, client aegis-default-client, the roles and permissions the
    pair was issued for, the scope built from them, and exp as the number
    of seconds of the exp claim. *)
Theorem introspect_reports_issued_token :
  forall (w w2 : World) (userId : uuid.UUID) (subject hint : string)
         (roles permissions : list string),
    JWT_SECRET w2 = JWT_SECRET w ->
    listed (GlobalBlacklist w2) "" = false ->
    time.Before (time.tick (clock w2)).1
      (jwtlib.NewNumericDate
         (time.Add (reading 2 (clock w)).1 (TOKEN_EXPIRATION w))) = true ->
    exists p w' ri,
      jwt.GenerateTokenPair userId subject roles permissions w = (inl p, w') /\
      (auth.IntrospectToken
         (introspectBody (jwt.TokenPair.AccessToken p) hint) w2).1
        = gin.JSON http.StatusOK ri /\
      auth.IntrospectTokenResponse.Active ri = true /\
      auth.IntrospectTokenResponse.Username ri = subject /\
      auth.IntrospectTokenResponse.Sub ri = uuid.String userId /\
      auth.IntrospectTokenResponse.Iss ri = "aegis" /\
      auth.IntrospectTokenResponse.TokenType ri = "Bearer" /\
      auth.IntrospectTokenResponse.ClientId ri = "aegis-default-client" /\
      auth.IntrospectTokenResponse.Roles ri = roles /\
      auth.IntrospectTokenResponse.Permissions ri = permissions /\
      auth.IntrospectTokenResponse.Scope ri
        = auth.buildScopeString roles permissions /\
      auth.IntrospectTokenResponse.Exp ri * time.Second =
        jwtlib.NewNumericDate
          (time.Add (reading 2 (clock w)).1 (TOKEN_EXPIRATION w)).
Proof.
  intros w w2 userId subject hint roles permissions Hsecret Hlisted Hbefore.
  rewrite GenerateTokenPair_run. simpl. eexists _, _, _.
  split; [reflexivity|]. simpl. rewrite <- Hsecret.
  rewrite introspect_outcome by done.
  rewrite ValidateToken_signed by done. simpl.
  unfold jwtlib.Validate. simpl. simpl in Hbefore. rewrite Hbefore. simpl.
  change (jwt.ID _) with "". rewrite Hlisted.
  split; [reflexivity|]. simpl. repeat split; try reflexivity.
  apply (FromUnix_Unix (jwtlib.NewNumericDate _)).
  apply TruncateSecond_bounds.
Qed.

Lemma introspect_reports_issued_token_witness :
  let w := exampleWorld 0 [] None in
  exists p w' ri,
    jwt.GenerateTokenPair 7%N "test@example.com" ["admin"] ["read:users"] w
      = (inl p, w') /\
    (auth.IntrospectToken
       (introspectBody (jwt.TokenPair.AccessToken p) "access_token") w).1
      = gin.JSON http.StatusOK ri /\
    auth.IntrospectTokenResponse.Scope ri = "role:admin read:users".
Proof.
  intros w.
  destruct (introspect_reports_issued_token w w 7%N "test@example.com"
              "access_token" ["admin"] ["read:users"])
    as (p & w' & ri & Hp & Hi & _ & _ & _ & _ & _ & _ & _ & _ & Hscope & _);
    [reflexivity | reflexivity | vm_compute; reflexivity |].
  exists p, w', ri. split; [exact Hp|]. split; [exact Hi|].
  rewrite Hscope. reflexivity.
Defined.

(** ** Loading a user by id *)

Lemma xvalues_app (s1 s2 : string) (acc : N) :
  uuid.xvalues acc (s1 +:+ s2) =
    match uuid.xvalues acc s1 with
    | Some a => uuid.xvalues a s2
    | None => None
    end.
Proof.
  revert acc. induction s1 as [|a r IH]; intros acc; simpl; [done|].
  destruct (uuid.xvalue a); [apply IH | done].
Qed.

Lemma xvalue_xdigit (n : N) : (n < 16)%N -> uuid.xvalue (uuid.xdigit n) = Some n.
Proof.
  intros H. destruct n as [|p]; [reflexivity|].
  do 4 (destruct p as [p|p|]; try reflexivity; try lia).
Qed.

Lemma xvalues_hex (k : nat) (u acc : N) :
  uuid.xvalues acc (uuid.hex k u) =
    Some (acc * 16 ^ N.of_nat k + u mod 16 ^ N.of_nat k)%N.
Proof.
  revert u acc. induction k as [|k IH]; intros u acc.
  - simpl. rewrite N.mod_1_r. f_equal. lia.
  - cbn [uuid.hex]. rewrite xvalues_app, IH. simpl.
    rewrite xvalue_xdigit by (apply N.mod_lt; lia). f_equal.
    rewrite Nat2N.inj_succ, N.pow_succ_r', (N.Div0.mod_mul_r u 16). lia.
Qed.

Lemma length_append (s1 s2 : string) :
  String.length (s1 +:+ s2) = (String.length s1 + String.length s2)%nat.
Proof. induction s1 as [|a r IH]; simpl; [done | by rewrite IH]. Qed.

Lemma length_hex (k : nat) (u : N) : String.length (uuid.hex k u) = k.
Proof.
  revert u. induction k as [|k IH]; intros u; [done|].
  cbn [uuid.hex]. rewrite length_append, IH. simpl. lia.
Qed.

(** What [String] writes, [Parse] reads back. *)
Lemma Parse_String (u : uuid.UUID) :
  (u < 2 ^ 128)%N -> uuid.Parse (uuid.String u) = Some u.
Proof.
  intros Hu. unfold uuid.String.
  pose proof (xvalues_hex 32 u 0) as Hx. pose proof (length_hex 32 u) as Hl.
  change (16 ^ N.of_nat 32)%N with (2 ^ 128)%N in Hx.
  rewrite N.mod_small in Hx by exact Hu. simpl (0 * _ + _)%N in Hx.
  generalize dependent (uuid.hex 32 u). intros h Hx Hl.
  do 32 (destruct h as [|? h]; [discriminate Hl|]).
  destruct h; [|discriminate Hl]. exact Hx.
Qed.

Lemma selectUserById_id (d : db.Database) (arg : string)
    (row : db.UserRow) (rest : list db.UserRow) :
  db.selectUserById d arg = row :: rest -> db.id row = arg.
Proof.
  intros H. assert (row ∈ db.selectUserById d arg) as Hin
    by (rewrite H; apply list_elem_of_here).
  unfold db.selectUserById in Hin. by apply list_elem_of_filter in Hin as [? _].
Qed.

Lemma readable_Some (f : db.Fault) (rows : list db.UserRow)
    (row : db.UserRow) (id : uuid.UUID) :
  readable f rows = Some (row, id) <->
  exists bad rest,
    f = db.ScanFails bad /\ (0%nat ∉ bad) /\ rows = row :: rest /\
    uuid.Parse (db.id row) = Some id.
Proof.
  unfold readable. split.
  - destruct f as [err|err|bad]; [done | done |].
    destruct rows as [|row0 rest]; [done|].
    destruct (bool_decide (0%nat ∈ bad)) eqn:Hbad; [done|].
    destruct (uuid.Parse (db.id row0)) as [id0|] eqn:Hid; [|done].
    intros [= <- <-]. exists bad, rest. repeat split; try done.
    by apply bool_decide_eq_false in Hbad.
  - intros (bad & rest & -> & Hbad & -> & Hid).
    by rewrite (bool_decide_eq_false_2 _ Hbad), Hid.
Qed.

Lemma readable_None (f : db.Fault) (rows : list db.UserRow) :
  readable f rows = None ->
  (exists err, f = db.OpenFails err \/ f = db.QueryFails err) \/
  rows = [] \/
  (exists bad, f = db.ScanFails bad /\ 0%nat ∈ bad) \/
  (exists row rest, rows = row :: rest /\ uuid.Parse (db.id row) = None).
Proof.
  unfold readable. destruct f as [err|err|bad]; [left; eauto | left; eauto |].
  destruct rows as [|row0 rest]; [right; by left|].
  destruct (bool_decide (0%nat ∈ bad)) eqn:Hbad.
  - intros _. right. right. left. exists bad.
    by apply bool_decide_eq_true in Hbad.
  - destruct (uuid.Parse (db.id row0)) eqn:Hid; [done|].
    intros _. right. right. right. eauto.
Qed.

(** X23. [GetUserById] returns the user that was asked for, or nothing,
    for a 128-bit id. A nil result comes after one query and means that
    the query failed (the connection or the statement), that no row of
    the users table has that id, or that [Scan] failed on the first row;
    with a query that meets no fault it means that no row has that id.
    Any other result took three queries and is a user with exactly that
    id and the subject of the first such row, read by a query that
    succeeded; its roles and permissions are those which the two loads
    keep of the names recorded for that id: all of them when the load
    meets no fault, none when its query fails. *)
Theorem GetUserById_returns_the_requested_user :
  forall (w : World) (userId : uuid.UUID),
    (userId < 2 ^ 128)%N ->
    let rows := db.selectUserById (database w) (uuid.String userId) in
    let roles :=
      db.selectNames (db.user_roles (database w)) (uuid.String userId) in
    let permissions :=
      db.selectNames (db.user_permissions (database w)) (uuid.String userId) in
    match userService.GetUserById userId w with
    | (None, w') =>
        ((exists err, upcoming w 0 = db.OpenFails err \/
                      upcoming w 0 = db.QueryFails err) \/
         rows = [] \/
         (exists bad, upcoming w 0 = db.ScanFails bad /\ 0%nat ∈ bad)) /\
        (upcoming w 0 = db.healthy -> rows = []) /\
        queries w' = queries w ++ [db.SELECT_USER_BY_ID (uuid.String userId)]
    | (Some u, w') =>
        userService.Id u = userId /\
        (exists row rest bad,
           rows = row :: rest /\
           upcoming w 0 = db.ScanFails bad /\ (0%nat ∉ bad) /\
           userService.Subject u = db.subject row) /\
        userService.Roles u = kept (upcoming w 2) roles /\
        userService.Permissions u = kept (upcoming w 1) permissions /\
        (upcoming w 2 = db.healthy -> userService.Roles u = roles) /\
        (upcoming w 1 = db.healthy -> userService.Permissions u = permissions) /\
        (forall err, upcoming w 2 = db.QueryFails err -> userService.Roles u = []) /\
        (forall err, upcoming w 1 = db.QueryFails err ->
           userService.Permissions u = []) /\
        queries w' = queries w ++
          [db.SELECT_USER_BY_ID (uuid.String userId);
           db.SELECT_USER_PERMISSIONS (uuid.String userId);
           db.SELECT_USER_ROLES (uuid.String userId)]
    end.
Proof.
  intros w userId Hu rows roles permissions. subst rows roles permissions.
  pose proof (Parse_String userId Hu) as Hparse.
  destruct (readable (upcoming w 0)
              (db.selectUserById (database w) (uuid.String userId)))
    as [[row id]|] eqn:Hread.
  - destruct (GetUserById_found w userId row id Hread)
      as (u & w' & -> & HId & HSub & HRoles & HPerms & Hq & _).
    apply readable_Some in Hread as (bad & rest & Hf & Hbad & Hrow & Hid).
    pose proof (selectUserById_id _ _ _ _ Hrow) as Hrowid.
    rewrite Hrowid, Hparse in Hid. injection Hid as <-.
    rewrite HRoles, HPerms.
    split; [exact HId|]. split; [by exists row, rest, bad|].
    split; [reflexivity|]. split; [reflexivity|].
    split; [intros ->; apply kept_healthy|].
    split; [intros ->; apply kept_healthy|].
    split; [by intros err ->|]. split; [by intros err ->|]. exact Hq.
  - rewrite (GetUserById_unknown w userId Hread).
    apply readable_None in Hread as [Herr|[Hrow|[Hbad|(row & rest & Hrow & Hid)]]].
    + split; [by left|]. split; [|reflexivity].
      intros Hh. destruct Herr as [err [He|He]]; rewrite He in Hh; discriminate Hh.
    + split; [right; by left|]. split; [done | reflexivity].
    + split; [right; by right|]. split; [|reflexivity].
      intros Hh. destruct Hbad as (bad & Hf & Hin). rewrite Hf in Hh.
      injection Hh as ->. by apply elem_of_nil in Hin.
    + pose proof (selectUserById_id _ _ _ _ Hrow) as Hrowid.
      rewrite Hrowid, Hparse in Hid. discriminate Hid.
Qed.

Lemma GetUserById_returns_the_requested_user_witness :
  let w := withDatabase exampleDatabase (exampleWorld 0 [] None) in
  (userService.Id <$> (userService.GetUserById 7%N w).1) = Some 7%N /\
  (userService.GetUserById 8%N w).1 = None /\
  (userService.GetUserById 7%N (withFaults [db.ScanFails [0%nat]] w)).1 = None.
Proof.
  intros w.
  pose proof (GetUserById_returns_the_requested_user w 7%N eq_refl) as H7.
  split; [|split].
  - destruct (userService.GetUserById 7%N w) as [[u|] w'] eqn:Hrun.
    + destruct H7 as [HId _]. simpl. rewrite HId. reflexivity.
    + assert (None = (userService.GetUserById 7%N w).1) as Hnone
        by (by rewrite Hrun).
      vm_compute in Hnone. discriminate Hnone.
  - destruct (userService.GetUserById 8%N w) as [[u|] w'] eqn:Hrun; [|reflexivity].
    assert (Some u = (userService.GetUserById 8%N w).1) as Hsome
      by (by rewrite Hrun).
    vm_compute in Hsome. discriminate Hsome.
  - destruct (userService.GetUserById 7%N (withFaults [db.ScanFails [0%nat]] w))
      as [[u|] w'] eqn:Hrun; [|reflexivity].
    assert (Some u =
            (userService.GetUserById 7%N
               (withFaults [db.ScanFails [0%nat]] w)).1) as Hsome
      by (by rewrite Hrun).
    vm_compute in Hsome. discriminate Hsome.
Defined.

(** ** Issuing, then refreshing *)

Lemma access_and_refresh_kinds_aux (w : World) userId subject roles permissions
    (w2 : World) :
  exists p w' err w2',
    jwt.GenerateTokenPair userId subject roles permissions w = (inl p, w') /\
    jwt.ValidateRefreshToken (jwt.TokenPair.AccessToken p) w2 = (inr err, w2') /\
    queries w2' = queries w2 /\ GlobalBlacklist w2' = GlobalBlacklist w2.
Proof.
  rewrite GenerateTokenPair_run. simpl.
  set (t := jwtlib.Compact jwtlib.HS256 (JWT_SECRET w) _).
  destruct (jwt.ValidateRefreshToken t w2) as [[c|err] w2'] eqn:Hv.
  - apply ValidateRefreshToken_accepts in Hv as (Hv & Hty & _).
    apply ValidateToken_accepts in Hv as (m & _ & [= _ _ <-] & _).
    discriminate Hty.
  - eexists _, _, err, w2'. split; [reflexivity|]. split; [exact Hv|].
    unfold jwt.ValidateRefreshToken, bind in Hv.
    destruct (jwt.ValidateToken t w2) as [[c|e] w3] eqn:Hv3.
    + destruct (ValidateToken_frame _ _ _ _ Hv3) as [clk ->].
      destruct (negb _); injection Hv as _ <-; done.
    + destruct (ValidateToken_frame _ _ _ _ Hv3) as [clk ->].
      injection Hv as _ <-. done.
Qed.

(** X24. The refresh endpoint refuses access tokens. The access token of
    any pair, presented as a refresh token in any state of the process, is
    answered 401 with [invalid refresh token]; no query is sent to the
    database and nothing but the clock changes. *)
Theorem refresh_rejects_access_tokens :
  forall (w w2 : World) (userId : uuid.UUID) (subject : string)
         (roles permissions : list string),
    exists p w' w2',
      jwt.GenerateTokenPair userId subject roles permissions w = (inl p, w') /\
      user.refreshToken (refreshBody (jwt.TokenPair.AccessToken p)) w2 =
        (gin.JSON_H http.StatusUnauthorized "invalid refresh token", w2') /\
      queries w2' = queries w2 /\ GlobalBlacklist w2' = GlobalBlacklist w2.
Proof.
  intros w w2 userId subject roles permissions.
  destruct (access_and_refresh_kinds_aux w userId subject roles permissions w2)
    as (p & w' & err & w2' & Hp & Hv & Hq & Hb).
  exists p, w', w2'. split; [exact Hp|].
  unfold user.refreshToken, refreshBody, gin.ShouldBindJSON,
    user.missingRefreshToken. simpl.
  rewrite GenerateTokenPair_run in Hp. injection Hp as <- _. simpl.
  unfold bind. simpl in Hv. rewrite Hv. done.
Qed.

Lemma refreshToken_run (w w1 w2 : World) (t : jwt.TokenString)
    (c : jwt.TokenClaims) (userId : uuid.UUID) (u : userService.User) :
  jwt.ValidateRefreshToken t w = (inl c, w1) ->
  uuid.Parse (jwt.UserId c) = Some userId ->
  userService.GetUserById userId w1 = (Some u, w2) ->
  user.refreshToken (refreshBody t) w =
    let r := jwt.GenerateTokenPair (userService.Id u) (userService.Subject u)
               (userService.Roles u) (userService.Permissions u) w2 in
    (match r.1 with
     | inl tokenPair =>
         gin.JSON http.StatusOK
           {| user.LoginResponse.User := user.toUserResponse u;
              user.LoginResponse.AccessToken := jwt.TokenPair.AccessToken tokenPair;
              user.LoginResponse.RefreshToken := jwt.TokenPair.RefreshToken tokenPair;
              user.LoginResponse.ExpiresAt := jwt.TokenPair.ExpiresAt tokenPair;
              user.LoginResponse.RefreshExpiresAt :=
                jwt.TokenPair.RefreshExpiresAt tokenPair |}
     | inr _ =>
         gin.JSON_H http.StatusInternalServerError "failed to generate tokens"
     end, r.2).
Proof.
  intros Hv Hid Hget.
  destruct (ValidateRefreshToken_accepts _ _ _ _ Hv) as (_ & _ & Ht & _).
  unfold user.refreshToken, refreshBody, gin.ShouldBindJSON,
    user.missingRefreshToken. simpl. rewrite Ht. unfold bind. simpl.
  rewrite Hv, Hid, Hget, !map_id_eq.
  by destruct (jwt.GenerateTokenPair _ _ _ _ w2) as [[p|e] w3].
Qed.

(** X25. Issuing and refreshing compose. The refresh token of a pair
    issued for a 128-bit user id, presented before the instant of its exp
    claim to a process with the same secret whose users table has a row
    for that id, at a moment when the user query succeeds and its first
    row scans, is answered 200 with a new pair; both new tokens carry the
    same user id, the subject of that row and the roles and permissions
    which the two loads keep of the names now recorded for the id: all of
    them when no query meets a fault. *)
Theorem issued_refresh_token_refreshes :
  forall (w w2 : World) (userId : uuid.UUID) (subject : string)
         (roles permissions : list string)
         (row : db.UserRow) (rest : list db.UserRow) (bad : list nat),
    (userId < 2 ^ 128)%N ->
    JWT_SECRET w2 = JWT_SECRET w ->
    time.Before (time.tick (clock w2)).1
      (jwtlib.NewNumericDate
         (time.Add (reading 4 (clock w)).1
            (time.dadd (TOKEN_EXPIRATION w) jwt.REFRESH_TOKEN_EXTRA_TIME))) = true ->
    upcoming w2 0 = db.ScanFails bad -> 0%nat ∉ bad ->
    db.selectUserById (database w2) (uuid.String userId) = row :: rest ->
    let newRoles :=
      kept (upcoming w2 2)
        (db.selectNames (db.user_roles (database w2)) (uuid.String userId)) in
    let newPermissions :=
      kept (upcoming w2 1)
        (db.selectNames (db.user_permissions (database w2)) (uuid.String userId)) in
    exists p w' resp w2' ca cr,
      jwt.GenerateTokenPair userId subject roles permissions w = (inl p, w') /\
      user.refreshToken (refreshBody (jwt.TokenPair.RefreshToken p)) w2 =
        (gin.JSON http.StatusOK resp, w2') /\
      user.LoginResponse.AccessToken resp
        = jwtlib.Compact jwtlib.HS256 (JWT_SECRET w) ca /\
      user.LoginResponse.RefreshToken resp
        = jwtlib.Compact jwtlib.HS256 (JWT_SECRET w) cr /\
      carries ca (uuid.String userId) (db.subject row) newRoles newPermissions /\
      carries cr (uuid.String userId) (db.subject row) newRoles newPermissions /\
      (faults w2 = [] ->
       newRoles =
         db.selectNames (db.user_roles (database w2)) (uuid.String userId) /\
       newPermissions =
         db.selectNames (db.user_permissions (database w2)) (uuid.String userId)).
Proof.
  intros w w2 userId subject roles permissions row rest bad Hu Hsecret Hbefore
    Hf Hbad Hrow newRoles newPermissions. subst newRoles newPermissions.
  pose proof (selectUserById_id _ _ _ _ Hrow) as Hid.
  pose proof (Parse_String userId Hu) as Hparse.
  assert (uuid.Parse (db.id row) = Some userId) as Hparse' by congruence.
  assert (readable (upcoming (withClock (time.tick (clock w2)).2 w2) 0)
            (db.selectUserById
               (database (withClock (time.tick (clock w2)).2 w2))
               (uuid.String userId)) = Some (row, userId)) as Hread.
  { apply readable_Some. exists bad, rest. repeat split; done. }
  destruct (GetUserById_found (withClock (time.tick (clock w2)).2 w2) userId
              row userId Hread)
    as (u & w3 & Hget & HId & HSub & HRoles & HPerms & _ & _ & Hsec & _).
  change (upcoming (withClock (time.tick (clock w2)).2 w2)) with (upcoming w2)
    in HRoles, HPerms.
  cbn [withClock JWT_SECRET database] in Hsec, HRoles, HPerms.
  set (c := issuedClaims userId subject roles permissions "refresh"
              (time.Add (reading 4 (clock w)).1
                 (time.dadd (TOKEN_EXPIRATION w) jwt.REFRESH_TOKEN_EXTRA_TIME))
              (reading 5 (clock w)).1).
  assert (jwt.ValidateRefreshToken
            (jwtlib.Compact jwtlib.HS256 (JWT_SECRET w) c) w2 =
          (inl c, withClock (time.tick (clock w2)).2 w2)) as Hv.
  { unfold jwt.ValidateRefreshToken, bind. rewrite <- Hsecret.
    rewrite ValidateToken_signed by done. cbn [fst snd].
    unfold jwtlib.Validate. cbn [jwtlib.GetExpirationTime jwtlib.GetNotBefore
      jwt.TokenClaims_Claims]. subst c. unfold issuedClaims.
    cbn [jwt.RegisteredClaims jwtlib.ExpiresAt jwtlib.NotBefore jwt.TokenType].
    rewrite Hbefore. reflexivity. }
  pose proof (refreshToken_run w2 _ w3 _ c userId u Hv Hparse Hget) as Hrun.
  rewrite GenerateTokenPair_run in Hrun. cbn [fst snd] in Hrun.
  rewrite Hsec, HId, HSub, HRoles, HPerms in Hrun.
  rewrite GenerateTokenPair_run. cbn zeta.
  eexists _, _, _, _, _, _. split; [reflexivity|].
  cbn [jwt.TokenPair.RefreshToken]. split; [exact Hrun|].
  cbn [user.LoginResponse.AccessToken user.LoginResponse.RefreshToken].
  rewrite Hsecret. split; [reflexivity|]. split; [reflexivity|].
  split; [repeat split; reflexivity|]. split; [repeat split; reflexivity|].
  intros Hnone. unfold upcoming. rewrite Hnone. cbn [nth].
  split; apply kept_healthy.
Qed.

Lemma issued_refresh_token_refreshes_witness :
  let w := withDatabase exampleDatabase (exampleWorld 0 [] None) in
  exists p w' resp w2' ca,
    jwt.GenerateTokenPair 7%N "alice@example.com" ["admin"] ["write:users"] w
      = (inl p, w') /\
    user.refreshToken (refreshBody (jwt.TokenPair.RefreshToken p)) w
      = (gin.JSON http.StatusOK resp, w2') /\
    user.LoginResponse.AccessToken resp
      = jwtlib.Compact jwtlib.HS256 "test-secret" ca /\
    jwt.Roles ca = ["viewer"] /\ jwt.Permissions ca = ["read:self"].
Proof.
  intros w.
  destruct (issued_refresh_token_refreshes w w 7%N "alice@example.com"
              ["admin"] ["write:users"]
              (db.mkUserRow "00000000-0000-0000-0000-000000000007"
                 "alice@example.com" "hash" "salt" "pepper" 0 "system" 0 "system")
              [] [])
    as (p & w' & resp & w2' & ca & cr & Hp & Hr & Ha & _ & Hca & _ & Hall).
  - reflexivity.
  - reflexivity.
  - vm_compute. reflexivity.
  - reflexivity.
  - apply not_elem_of_nil.
  - vm_compute. reflexivity.
  - exists p, w', resp, w2', ca. split; [exact Hp|]. split; [exact Hr|].
    split; [exact Ha|]. destruct Hca as (_ & _ & Hroles & Hperms).
    destruct (Hall eq_refl) as [Hr' Hp'].
    split.
    + rewrite Hroles, Hr'. vm_compute. reflexivity.
    + rewrite Hperms, Hp'. vm_compute. reflexivity.
Defined.
